(** * Film release tracker: date selection, calendar and watchlist loop

    A shallow embedding of [examples/multi_user_update.py] and of the parts of
    Python's [datetime], [str], [int] and [urllib.parse] that it calls, with
    the properties of the release-date classification, of the iCalendar
    serialisation, of the request URL and of the loop over a watchlist.

    Conventions.
    - A Python [str] is a Rocq [string]; its characters are the code points
      below 256.  The operations used by the script (slicing, [split],
      [replace], concatenation) do not look at the code points they move.
    - A Python exception is a value [Raise e] of the [result] type.
    - JSON numbers are integers ([Z]); floating point values are outside the
      model, as are integers of more than 4300 digits, which Python does not
      convert to text.
    - The definitions come first, the proofs after them. *)

From Stdlib Require Import ZArith Lia Bool List String Ascii.
From Stdlib Require Import Sorting.Sorted Sorting.Permutation.
Import ListNotations.
Open Scope string_scope.
Open Scope Z_scope.

(** ** Exceptions *)

Inductive exn : Type :=
| ValueError | KeyError | TypeError | AttributeError | OverflowError
| IndexError.

Inductive result (A : Type) : Type :=
| Ok (a : A)
| Raise (e : exn).
Arguments Ok {A} a.
Arguments Raise {A} e.

Definition bind {A B : Type} (r : result A) (k : A -> result B) : result B :=
  match r with
  | Ok a => k a
  | Raise e => Raise e
  end.

Notation "x <- r ;; k" := (bind r (fun x => k))
  (at level 61, r at next level, right associativity).

(** ** Checking a decidable property on an interval of integers *)

Fixpoint forall_range (f : Z -> bool) (lo : Z) (n : nat) : bool :=
  match n with
  | O => true
  | S k => f lo && forall_range f (lo + 1) k
  end.

(** ** Python strings and integers *)

Module Py.

Definition chr (n : Z) : ascii := ascii_of_N (Z.to_N n).
Definition ord (c : ascii) : Z := Z.of_N (N_of_ascii c).

Definition digit_char (k : Z) : ascii := chr (48 + k).

Definition digit_val (c : ascii) : option Z :=
  let n := ord c in
  if (48 <=? n) && (n <=? 57) then Some (n - 48) else None.

(** [s[:n]] *)
Fixpoint slice_to (n : nat) (s : string) : string :=
  match n, s with
  | S k, String c r => String c (slice_to k r)
  | _, _ => ""
  end.

Definition len (s : string) : Z := Z.of_nat (String.length s).

(** [s.split(c)] for a separator of one character. *)
Fixpoint split_char (c : ascii) (s : string) : list string :=
  match s with
  | "" => [""]
  | String a r =>
      if Ascii.eqb a c then "" :: split_char c r
      else match split_char c r with
           | w :: ws => String a w :: ws
           | [] => [String a ""]
           end
  end.

(** [s.replace(c, new)] for a pattern of one character. *)
Fixpoint replace_char (c : ascii) (new : string) (s : string) : string :=
  match s with
  | "" => ""
  | String a r =>
      if Ascii.eqb a c then new ++ replace_char c new r
      else String a (replace_char c new r)
  end.

(** [sep.join(xs)] *)
Fixpoint join (sep : string) (xs : list string) : string :=
  match xs with
  | [] => ""
  | [x] => x
  | x :: rest => x ++ sep ++ join sep rest
  end.

(** White space for [str.strip] and [int], among the code points below 256. *)
Definition is_space (c : ascii) : bool :=
  let n := ord c in
  ((9 <=? n) && (n <=? 13)) || ((28 <=? n) && (n <=? 32))
  || (n =? 133) || (n =? 160).

Fixpoint lstrip (s : string) : string :=
  match s with
  | String c r => if is_space c then lstrip r else s
  | "" => ""
  end.

Fixpoint rstrip (s : string) : string :=
  match s with
  | "" => ""
  | String c r =>
      match rstrip r with
      | "" => if is_space c then "" else String c ""
      | r' => String c r'
      end
  end.

Definition strip (s : string) : string := rstrip (lstrip s).

(** Decimal digits with single underscores between them: the value and the
    number of digits. *)
Fixpoint int_digits (s : string) (acc : Z) (count : Z) (after_digit : bool)
  : option (Z * Z) :=
  match s with
  | "" => if after_digit then Some (acc, count) else None
  | String c r =>
      match digit_val c with
      | Some v => int_digits r (10 * acc + v) (count + 1) true
      | None =>
          if Ascii.eqb c "_" && after_digit then int_digits r acc count false
          else None
      end
  end.

Definition MAX_STR_DIGITS : Z := 4300.

(** [int(s)] for a string [s]. *)
Definition int_of_str (s : string) : result Z :=
  let t := strip s in
  let '(neg, body) :=
    match t with
    | String "-" r => (true, r)
    | String "+" r => (false, r)
    | _ => (false, t)
    end in
  match int_digits body 0 0 false with
  | Some (v, count) =>
      if MAX_STR_DIGITS <? count then Raise ValueError
      else Ok (if neg then - v else v)
  | None => Raise ValueError
  end.

(** The decimal digits of a natural number. *)
Fixpoint digits_fuel (fuel : nat) (n : Z) (acc : string) : string :=
  match fuel with
  | O => acc
  | S f =>
      let acc' := String (digit_char (n mod 10)) acc in
      if n <? 10 then acc' else digits_fuel f (n / 10) acc'
  end.

Definition digits (n : Z) : string :=
  digits_fuel (S (Z.to_nat (Z.log2 n))) n "".

(** [str(z)] for an integer [z]. *)
Definition str_of_Z (z : Z) : string :=
  if z <? 0 then String "-" (digits (- z)) else digits z.

Fixpoint zeros (n : nat) : string :=
  match n with
  | O => ""
  | S k => String "0" (zeros k)
  end.

(** [format(z, "0<width>d")]: zero padding after the sign. *)
Definition format_0d (width : nat) (z : Z) : string :=
  if z <? 0 then
    let ds := digits (- z) in
    String "-" (zeros (width - 1 - String.length ds) ++ ds)
  else
    let ds := digits z in
    zeros (width - String.length ds) ++ ds.

(** The UTF-8 encoding of a string of code points below 256. *)
Fixpoint utf8 (s : string) : string :=
  match s with
  | "" => ""
  | String c r =>
      let n := ord c in
      if n <? 128 then String c (utf8 r)
      else String (chr (192 + n / 64)) (String (chr (128 + n mod 64)) (utf8 r))
  end.

(** The values [json.loads] builds, without floating point numbers. *)
#[warnings="-register-all"]
Inductive pyval : Type :=
| PNone
| PBool (b : bool)
| PInt (z : Z)
| PStr (s : string)
| PList (l : list pyval)
| PDict (kv : list (string * pyval)).

(** Truth value of an object. *)
Definition truthy (v : pyval) : bool :=
  match v with
  | PNone => false
  | PBool b => b
  | PInt z => negb (z =? 0)
  | PStr s => negb (String.eqb s "")
  | PList l => match l with [] => false | _ => true end
  | PDict kv => match kv with [] => false | _ => true end
  end.

(** [v == s] for a string literal [s]. *)
Definition eq_str (v : pyval) (s : string) : bool :=
  match v with
  | PStr t => String.eqb t s
  | _ => false
  end.

(** [v == n] for an integer literal [n]; [True] and [False] count as 1 and 0. *)
Definition eq_int (v : pyval) (n : Z) : bool :=
  match v with
  | PInt z => z =? n
  | PBool b => (if b then 1 else 0) =? n
  | _ => false
  end.

Fixpoint assoc (k : string) (kv : list (string * pyval)) : option pyval :=
  match kv with
  | [] => None
  | (k', v) :: rest => if String.eqb k' k then Some v else assoc k rest
  end.

(** [v.get(k, default)]: only a dict has the method. *)
Definition get (v : pyval) (k : string) (default : pyval) : result pyval :=
  match v with
  | PDict kv =>
      Ok (match assoc k kv with Some x => x | None => default end)
  | _ => Raise AttributeError
  end.

(** The items a [for] loop visits: the elements of a list, the characters of
    a string, the keys of a dict. *)
Definition iter (v : pyval) : result (list pyval) :=
  match v with
  | PList l => Ok l
  | PStr s => Ok (map (fun c => PStr (String c "")) (list_ascii_of_string s))
  | PDict kv => Ok (map (fun p => PStr (fst p)) kv)
  | _ => Raise TypeError
  end.

End Py.

(** ** [urllib.parse]: the encoding of a query *)

Module Urllib.

(** The characters that are never quoted. *)
Definition always_safe (c : ascii) : bool :=
  let n := Py.ord c in
  ((65 <=? n) && (n <=? 90)) || ((97 <=? n) && (n <=? 122))
  || ((48 <=? n) && (n <=? 57))
  || (n =? 95) || (n =? 46) || (n =? 45) || (n =? 126).

Definition hex_digit (n : Z) : ascii :=
  if n <? 10 then Py.chr (48 + n) else Py.chr (55 + n).

(** ['%{:02X}'.format(b)] *)
Definition percent (c : ascii) : string :=
  String "%" (String (hex_digit (Py.ord c / 16))
                (String (hex_digit (Py.ord c mod 16)) "")).

(** [quote_from_bytes(bs, safe)] with [safe] empty or a space. *)
Fixpoint quote_from_bytes (space_safe : bool) (bs : string) : string :=
  match bs with
  | "" => ""
  | String c r =>
      ((if always_safe c || (space_safe && Ascii.eqb c " ") then String c ""
        else percent c)
       ++ quote_from_bytes space_safe r)%string
  end.

Fixpoint has_space (s : string) : bool :=
  match s with
  | "" => false
  | String c r => Ascii.eqb c " " || has_space r
  end.

(** [quote_plus(s)] for a string [s]. *)
Definition quote_plus (s : string) : string :=
  if has_space s
  then Py.replace_char " " "+" (quote_from_bytes true (Py.utf8 s))
  else quote_from_bytes false (Py.utf8 s).

(** [{**d, k: v}] on a dict in insertion order. *)
Fixpoint dict_set (k v : string) (d : list (string * string))
  : list (string * string) :=
  match d with
  | [] => [(k, v)]
  | (k', v') :: rest =>
      if String.eqb k' k then (k, v) :: rest else (k', v') :: dict_set k v rest
  end.

Definition pair_text (p : string * string) : string :=
  (quote_plus (fst p) ++ "=" ++ quote_plus (snd p))%string.

(** [urlencode(d)] for a dict of strings. *)
Definition urlencode (d : list (string * string)) : string :=
  Py.join "&" (map pair_text d).

End Urllib.

(** ** The proleptic Gregorian calendar of [datetime] *)

Module Datetime.

Definition MINYEAR : Z := 1.
Definition MAXYEAR : Z := 9999.

Definition is_leap (y : Z) : bool :=
  (y mod 4 =? 0) && (negb (y mod 100 =? 0) || (y mod 400 =? 0)).

Definition DAYS_IN_MONTH (m : Z) : Z :=
  match m with
  | 1 => 31 | 2 => 28 | 3 => 31 | 4 => 30 | 5 => 31 | 6 => 30
  | 7 => 31 | 8 => 31 | 9 => 30 | 10 => 31 | 11 => 30 | 12 => 31
  | _ => -1
  end.

Definition DAYS_BEFORE_MONTH (m : Z) : Z :=
  match m with
  | 1 => 0 | 2 => 31 | 3 => 59 | 4 => 90 | 5 => 120 | 6 => 151
  | 7 => 181 | 8 => 212 | 9 => 243 | 10 => 273 | 11 => 304 | 12 => 334
  | _ => -1
  end.

Definition days_before_year (y : Z) : Z :=
  let y' := y - 1 in y' * 365 + y' / 4 - y' / 100 + y' / 400.

Definition days_in_month (y m : Z) : Z :=
  if (m =? 2) && is_leap y then 29 else DAYS_IN_MONTH m.

Definition days_before_month (y m : Z) : Z :=
  DAYS_BEFORE_MONTH m + (if (2 <? m) && is_leap y then 1 else 0).

Definition ymd2ord (y m d : Z) : Z :=
  days_before_year y + days_before_month y m + d.

Definition DI400Y : Z := 146097.
Definition DI100Y : Z := 36524.
Definition DI4Y : Z := 1461.
Definition MAXORDINAL : Z := 3652059.

(** The tail of [_ord2ymd]: month and day from the zero-based day of the
    year [n]. *)
Definition month_day (leapyear : bool) (n : Z) : Z * Z :=
  let month := Z.shiftr (n + 50) 5 in
  let preceding :=
    DAYS_BEFORE_MONTH month + (if (2 <? month) && leapyear then 1 else 0) in
  if n <? preceding then
    let month' := month - 1 in
    let preceding' :=
      preceding - (DAYS_IN_MONTH month' + (if (month' =? 2) && leapyear then 1 else 0)) in
    (month', n - preceding' + 1)
  else (month, n - preceding + 1).

Definition ord2ymd (n : Z) : Z * Z * Z :=
  let n := n - 1 in
  let n400 := n / DI400Y in
  let n := n mod DI400Y in
  let year := n400 * 400 + 1 in
  let n100 := n / DI100Y in
  let n := n mod DI100Y in
  let n4 := n / DI4Y in
  let n := n mod DI4Y in
  let n1 := n / 365 in
  let n := n mod 365 in
  let year := year + n100 * 100 + n4 * 4 + n1 in
  if (n1 =? 4) || (n100 =? 4) then (year - 1, 12, 31)
  else
    let leapyear := (n1 =? 3) && (negb (n4 =? 24) || (n100 =? 3)) in
    let '(month, day) := month_day leapyear n in
    (year, month, day).

(** A [datetime.date]. *)
Record date : Type := mkdate { year : Z; month : Z; day : Z }.

Definition valid (d : date) : Prop :=
  MINYEAR <= year d <= MAXYEAR /\ 1 <= month d <= 12 /\
  1 <= day d <= days_in_month (year d) (month d).

Definition validb (d : date) : bool :=
  (MINYEAR <=? year d) && (year d <=? MAXYEAR) &&
  (1 <=? month d) && (month d <=? 12) &&
  (1 <=? day d) && (day d <=? days_in_month (year d) (month d)).

(** The constructor [date(y, m, d)]: [ValueError] outside the calendar. *)
Definition date_new (y m d : Z) : result date :=
  if validb (mkdate y m d) then Ok (mkdate y m d) else Raise ValueError.

Definition toordinal (d : date) : Z := ymd2ord (year d) (month d) (day d).

Definition fromordinal (n : Z) : result date :=
  let '(y, m, d) := ord2ymd n in date_new y m d.

(** [date + timedelta(days=k)]. *)
Definition add_days (d : date) (k : Z) : result date :=
  let o := toordinal d + k in
  if (0 <? o) && (o <=? MAXORDINAL) then fromordinal o else Raise OverflowError.

(** Dates compare as the triples (year, month, day). *)
Definition cmp (a b : date) : comparison :=
  match year a ?= year b with
  | Eq => match month a ?= month b with
          | Eq => day a ?= day b
          | c => c
          end
  | c => c
  end.

Definition leb (a b : date) : bool :=
  match cmp a b with Gt => false | _ => true end.

Definition ltb (a b : date) : bool :=
  match cmp a b with Lt => true | _ => false end.

(** The constructor called with Python integers: the arguments are C ints. *)
Definition fits_int (z : Z) : bool := (- 2147483648 <=? z) && (z <=? 2147483647).

Definition date_call (y m d : Z) : result date :=
  if fits_int y && fits_int m && fits_int d then date_new y m d
  else Raise OverflowError.

(** [d.isoformat()] *)
Definition isoformat (d : date) : string :=
  (Py.format_0d 4 (year d) ++ "-" ++ Py.format_0d 2 (month d) ++ "-"
   ++ Py.format_0d 2 (day d))%string.

(** *** [date.fromisoformat], as CPython 3.11 and later implement it *)

Fixpoint parse_digits (n : nat) (s : string) (acc : Z) : option (Z * string) :=
  match n with
  | O => Some (acc, s)
  | S k =>
      match s with
      | String c r =>
          match Py.digit_val c with
          | Some v => parse_digits k r (10 * acc + v)
          | None => None
          end
      | EmptyString => None
      end
  end.

Definition starts_with (c : ascii) (s : string) : bool :=
  match s with
  | String a _ => Ascii.eqb a c
  | EmptyString => false
  end.

Definition tail (s : string) : string :=
  match s with
  | String _ r => r
  | EmptyString => EmptyString
  end.

Definition is_empty (s : string) : bool :=
  match s with
  | EmptyString => true
  | _ => false
  end.

Definition weekday (y m d : Z) : Z := (ymd2ord y m d + 6) mod 7.

Definition iso_week1_monday (y : Z) : Z :=
  let first_day := ymd2ord y 1 1 in
  let first_weekday := (first_day + 6) mod 7 in
  let week1_monday := first_day - first_weekday in
  if 3 <? first_weekday then week1_monday + 7 else week1_monday.

Definition iso_to_ymd (iso_year iso_week iso_day : Z) : option (Z * Z * Z) :=
  if (iso_year <? MINYEAR) || (MAXYEAR <? iso_year) then None
  else
    let out_of_range :=
      if (iso_week <=? 0) || (53 <=? iso_week) then
        if iso_week =? 53 then
          let first_weekday := weekday iso_year 1 1 in
          negb ((first_weekday =? 3) || ((first_weekday =? 2) && is_leap iso_year))
        else true
      else false in
    if out_of_range then None
    else if (iso_day <=? 0) || (8 <=? iso_day) then None
    else
      let day_1 := iso_week1_monday iso_year in
      let day_offset := (iso_week - 1) * 7 + iso_day - 1 in
      Some (ord2ymd (day_1 + day_offset)).

Definition parse_isoformat_date (s : string) : option (Z * Z * Z) :=
  match parse_digits 4 s 0 with
  | None => None
  | Some (y, p) =>
      let uses_separator := starts_with "-" p in
      let p := if uses_separator then tail p else p in
      if starts_with "W" p then
        match parse_digits 2 (tail p) 0 with
        | None => None
        | Some (w, p) =>
            if is_empty p then iso_to_ymd y w 1
            else if uses_separator && negb (starts_with "-" p) then None
            else
              let p := if uses_separator then tail p else p in
              match parse_digits 1 p 0 with
              | None => None
              | Some (dd, _) => iso_to_ymd y w dd
              end
        end
      else
        match parse_digits 2 p 0 with
        | None => None
        | Some (m, p) =>
            if uses_separator && negb (starts_with "-" p) then None
            else
              let p := if uses_separator then tail p else p in
              match parse_digits 2 p 0 with
              | None => None
              | Some (dd, _) => Some (y, m, dd)
              end
        end
  end.

(** The length test is on the UTF-8 encoding, which is also what is parsed. *)
Definition fromisoformat (s : string) : result date :=
  let b := Py.utf8 s in
  let n := Py.len b in
  if (n =? 7) || (n =? 8) || (n =? 10) then
    match parse_isoformat_date b with
    | Some (y, m, d) => date_new y m d
    | None => Raise ValueError
    end
  else Raise ValueError.

(** The day after [d] in the calendar. *)
Definition next_day (d : date) : date :=
  if day d <? days_in_month (year d) (month d)
  then mkdate (year d) (month d) (day d + 1)
  else if month d <? 12 then mkdate (year d) (month d + 1) 1
  else mkdate (year d + 1) 1 1.

End Datetime.

(** ** [examples/multi_user_update.py] *)

Module MultiUserUpdate.
Import Datetime.

Definition TMDB_API : string := "https://api.themoviedb.org/3".
Definition IMG_BASE : string := "https://image.tmdb.org/t/p/w342".
Definition TMDB_RELEASE_TYPE_THEATRICAL : Z := 3.

(** [get_utc_timestamp()], as a function of the clock reading: the date
    and the time of day of [datetime.now(UTC)], whose microsecond is set to
    zero and does not show in the format.  The year of a clock reading has
    four digits. *)
Definition get_utc_timestamp (now : date) (hour minute second : Z) : string :=
  (Py.format_0d 4 (year now) ++ Py.format_0d 2 (month now)
   ++ Py.format_0d 2 (day now) ++ "T" ++ Py.format_0d 2 hour
   ++ Py.format_0d 2 minute ++ Py.format_0d 2 second ++ "Z")%string.

Definition NL : string := String "010" "".

(** [parse_iso_date(s)] for a string [s]. *)
Definition parse_iso_date (s : string) : result date :=
  fromisoformat (Py.slice_to 10 s).

(** [parse_iso_date(v)] for any value: only a string can be sliced and
    parsed.  Slicing a dict looks the slice up as a key ([KeyError], Python
    3.12 and later). *)
Definition parse_iso_date_val (v : Py.pyval) : result date :=
  match v with
  | Py.PStr s => parse_iso_date s
  | Py.PDict _ => Raise KeyError
  | _ => Raise TypeError
  end.

(** A line of the error stream: the warning of [choose_gb_theatrical_date]
    with the release date it could not parse.  The text of the exception
    that follows in the message is not modelled. *)
Inductive warning : Type :=
| CouldNotParse (release_date : Py.pyval).

(** The first loop: the first entry whose region is GB, or [None]. *)
Fixpoint find_gb (results : list Py.pyval) : result Py.pyval :=
  match results with
  | [] => Ok Py.PNone
  | r :: rest =>
      c <- Py.get r "iso_3166_1" Py.PNone ;;
      if Py.eq_str c "GB" then Ok r else find_gb rest
  end.

(** One round of the second loop: what it writes to the error stream and
    what it appends to [theatrical]. *)
Definition visit_release_date (rd : Py.pyval) : result (list warning * list date) :=
  ty <- Py.get rd "type" Py.PNone ;;
  if Py.eq_int ty TMDB_RELEASE_TYPE_THEATRICAL then
    v <- Py.get rd "release_date" Py.PNone ;;
    if Py.truthy v then
      match parse_iso_date_val v with
      | Ok d => Ok ([], [d])
      | Raise ValueError => Ok ([CouldNotParse v], [])
      | Raise KeyError => Ok ([CouldNotParse v], [])
      | Raise e => Raise e
      end
    else Ok ([], [])
  else Ok ([], []).

Fixpoint collect_theatrical (rds : list Py.pyval) : result (list warning * list date) :=
  match rds with
  | [] => Ok ([], [])
  | rd :: rest =>
      r <- visit_release_date rd ;;
      rs <- collect_theatrical rest ;;
      Ok ((fst r ++ fst rs)%list, (snd r ++ snd rs)%list)
  end.

(** [list.sort()] on dates.  Equal dates are indistinguishable, so the
    sorted list does not depend on the sorting algorithm. *)
Fixpoint insert_sorted (d : date) (l : list date) : list date :=
  match l with
  | [] => [d]
  | x :: rest => if leb d x then d :: l else x :: insert_sorted d rest
  end.

Fixpoint sort (l : list date) : list date :=
  match l with
  | [] => []
  | d :: rest => insert_sorted d (sort rest)
  end.

(** [l[0]] *)
Definition item0 (l : list date) : result date :=
  match l with
  | d :: _ => Ok d
  | [] => Raise IndexError
  end.

(** The value returned: a pair of a date string or [None] and a bucket or
    [None]. *)
Definition selection : Type := option string * option string.

(** The result is the error stream and the returned pair. *)
Definition choose_gb_theatrical_date (release_dates_payload : Py.pyval) (today : date)
  : result (list warning * selection) :=
  results <- Py.get release_dates_payload "results" (Py.PList []) ;;
  rs <- Py.iter results ;;
  gb <- find_gb rs ;;
  if negb (Py.truthy gb) then Ok ([], (None, None))
  else
    release_dates <- Py.get gb "release_dates" (Py.PList []) ;;
    rds <- Py.iter release_dates ;;
    c <- collect_theatrical rds ;;
    let '(stderr, theatrical) := c in
    match theatrical with
    | [] => Ok (stderr, (None, None))
    | _ =>
        let theatrical := sort theatrical in
        let future := filter (fun d => leb today d) theatrical in
        match future with
        | _ :: _ =>
            d <- item0 future ;;
            Ok (stderr, (Some (isoformat d), Some "upcoming"))
        | [] =>
            d <- item0 theatrical ;;
            Ok (stderr, (Some (isoformat d), Some "released"))
        end
    end.

(** A movie as [process_user_watchlist] builds it for the calendar. *)
Record movie : Type := mkmovie {
  tmdb_id : Z;
  title : string;
  release_date : string;
  tmdb_url : string
}.

Definition yyyymmdd (dt : date) : string :=
  (Py.format_0d 4 (year dt) ++ Py.format_0d 2 (month dt)
   ++ Py.format_0d 2 (day dt))%string.

Definition ics_escape (s : string) : string :=
  Py.replace_char "010" "\n"
    (Py.replace_char "," "\,"
       (Py.replace_char ";" "\;"
          (Py.replace_char "\" "\\" s))).

(** [y, mo, d = map(int, s.split("-"))] followed by [datetime.date(y, mo, d)].
    With fewer or more than three parts the unpacking raises [ValueError],
    as does [int] on a part that is no integer. *)
Definition parse_ymd (s : string) : result date :=
  match Py.split_char "-" s with
  | [a; b; c] =>
      y <- Py.int_of_str a ;;
      mo <- Py.int_of_str b ;;
      d <- Py.int_of_str c ;;
      date_call y mo d
  | _ => Raise ValueError
  end.

Definition uid_of (m : movie) (username : string) : string :=
  ("tmdb-" ++ Py.str_of_Z (tmdb_id m) ++ "-" ++ username
   ++ "@film-release-tracker")%string.

(** The lines one round of the loop appends. *)
Definition event_lines (dtstamp_utc username : string) (m : movie)
  : result (list string) :=
  start <- parse_ymd (release_date m) ;;
  stop <- add_days start 1 ;;
  let uid := uid_of m username in
  let summary := (title m ++ " (UK theatrical release)")%string in
  let desc := ("TMDb: " ++ tmdb_url m)%string in
  Ok [ "BEGIN:VEVENT";
       ("UID:" ++ ics_escape uid)%string;
       ("DTSTAMP:" ++ dtstamp_utc)%string;
       ("DTSTART;VALUE=DATE:" ++ yyyymmdd start)%string;
       ("DTEND;VALUE=DATE:" ++ yyyymmdd stop)%string;
       ("SUMMARY:" ++ ics_escape summary)%string;
       ("DESCRIPTION:" ++ ics_escape desc)%string;
       "STATUS:CONFIRMED";
       "TRANSP:TRANSPARENT";
       "END:VEVENT" ].

Fixpoint events (dtstamp_utc username : string) (movies : list movie)
  : result (list string) :=
  match movies with
  | [] => Ok []
  | m :: rest =>
      ls <- event_lines dtstamp_utc username m ;;
      rs <- events dtstamp_utc username rest ;;
      Ok (ls ++ rs)%list
  end.

Definition header (username : string) : list string :=
  [ "BEGIN:VCALENDAR";
    "VERSION:2.0";
    ("PRODID:-//Film Release Tracker//" ++ username ++ "//EN")%string;
    "CALSCALE:GREGORIAN";
    "METHOD:PUBLISH";
    ("X-WR-CALNAME:" ++ username ++ "'s Film Releases")%string;
    ("X-WR-CALDESC:UK theatrical releases tracked by " ++ username)%string ].

Definition build_ics_events (movies : list movie) (dtstamp_utc username : string)
  : result string :=
  evs <- events dtstamp_utc username movies ;;
  Ok (Py.join NL (header username ++ evs ++ ["END:VCALENDAR"]) ++ NL)%string.

(** A call [build_ics_events(movies, dtstamp_utc)] or
    [build_ics_events(movies, dtstamp_utc, username)]: the parameter
    [username] has no default value, so a call without it raises
    [TypeError]. *)
Definition call_build_ics_events (movies : list movie) (dtstamp_utc : string)
  (username : option string) : result string :=
  match username with
  | Some u => build_ics_events movies dtstamp_utc u
  | None => Raise TypeError
  end.

End MultiUserUpdate.

(** The function [tmdb_url] of the script, in a module of its own because
    the movies have a field of the same name. *)
Module Tmdb.
Import MultiUserUpdate.

(** [tmdb_url(path, params)], for parameters that are strings.  The key
    read from the environment when the module is loaded is the argument
    [api_key]. *)
Definition tmdb_url (api_key : string) (path : string)
  (params : list (string * string)) : string :=
  (TMDB_API ++ path ++ "?"
   ++ Urllib.urlencode (Urllib.dict_set "api_key" api_key params))%string.

End Tmdb.

(** ** [process_user_watchlist]: from the loop over the watchlist to the
    calendar

    The part of the function between the reading of the watchlist file and
    the writing of the two output files.  The watchlist is the array of the
    file, its objects with an integer [tmdb_id]; the network is a function
    from the URL of a request to its outcome; [str] of a list or a dict,
    which only shows in the text of a title, is a parameter too. *)

Module Watchlist.
Import Datetime MultiUserUpdate Tmdb.

(** An object of the watchlist: [item.get("tmdb_id")], [None] for a
    missing key or a null, and [item.get("title_hint")]. *)
Record watch_item : Type := mkitem {
  item_id : option Z;
  title_hint : Py.pyval
}.

(** A movie as the loop builds it. *)
Record entry : Type := mkentry {
  e_tmdb_id : Z;
  e_title : Py.pyval;
  e_release_date : option string;
  e_poster_url : option string;
  e_tmdb_url : string
}.

(** The lines the loop itself writes to the error stream. *)
Inductive log_line : Type :=
| InvalidDetails (id : Z)
| InvalidReleases (id : Z)
| ErrorProcessing (id : Z) (e : exn).

(** What one round of the loop does: nothing, a line on the error stream,
    or a movie appended to one of the three lists. *)
Inductive outcome : Type :=
| Skipped
| Logged (l : log_line)
| Upcoming (e : entry)
| Released (e : entry)
| Tbd (e : entry).

Definition is_dict (v : Py.pyval) : bool :=
  match v with
  | Py.PDict _ => true
  | _ => false
  end.

(** [k in v] for a dict [v]. *)
Definition contains_key (k : string) (v : Py.pyval) : bool :=
  match v with
  | Py.PDict kv => match Py.assoc k kv with Some _ => true | None => false end
  | _ => false
  end.

(** [a or b] *)
Definition py_or (a b : Py.pyval) : Py.pyval := if Py.truthy a then a else b.

(** [IMG_BASE + details["poster_path"]] if the path counts as true. *)
Definition poster_url (details : Py.pyval) : result (option string) :=
  v <- Py.get details "poster_path" Py.PNone ;;
  if Py.truthy v then
    match v with
    | Py.PStr s => Ok (Some (IMG_BASE ++ s)%string)
    | _ => Raise TypeError
    end
  else Ok None.

(** Lowercase of a character below 256. *)
Definition lower_char (c : ascii) : ascii :=
  let n := Py.ord c in
  if ((65 <=? n) && (n <=? 90))
     || ((192 <=? n) && (n <=? 222) && negb (n =? 215))
  then Py.chr (n + 32) else c.

Fixpoint lower (s : string) : string :=
  match s with
  | "" => ""
  | String c r => String (lower_char c) (lower r)
  end.

(** [a < b] on strings: the order of the code points. *)
Fixpoint str_ltb (a b : string) : bool :=
  match a, b with
  | _, "" => false
  | "", String _ _ => true
  | String x a', String y b' =>
      if Py.ord x <? Py.ord y then true
      else if Py.ord y <? Py.ord x then false
      else str_ltb a' b'
  end.

(** A stable sort by a key of strings: [insert_before] puts an element
    before the first one that is not before it. *)
Fixpoint insert_before {A} (before : A -> A -> bool) (x : A) (l : list A) : list A :=
  match l with
  | [] => [x]
  | y :: r => if before y x then y :: insert_before before x r else x :: l
  end.

Fixpoint stable_sort {A} (before : A -> A -> bool) (l : list A) : list A :=
  match l with
  | [] => []
  | x :: r => insert_before before x (stable_sort before r)
  end.

Definition key_before (reverse : bool) (a b : string * entry) : bool :=
  if reverse then str_ltb (fst b) (fst a) else str_ltb (fst a) (fst b).

(** The keys [m["release_date"]] of a list: [None] among them cannot be
    compared. *)
Fixpoint date_keys (l : list entry) : option (list (string * entry)) :=
  match l with
  | [] => Some []
  | e :: r =>
      match e_release_date e, date_keys r with
      | Some s, Some ks => Some ((s, e) :: ks)
      | _, _ => None
      end
  end.

(** [l.sort(key=lambda m: m["release_date"], reverse=...)] *)
Definition sort_by_release_date (reverse : bool) (l : list entry) : result (list entry) :=
  match l with
  | [] | [_] => Ok l
  | _ =>
      match date_keys l with
      | Some ks => Ok (map snd (stable_sort (key_before reverse) ks))
      | None => Raise TypeError
      end
  end.

(** The keys [m["title"].lower()]: only a string has the method. *)
Fixpoint title_keys (l : list entry) : result (list (string * entry)) :=
  match l with
  | [] => Ok []
  | e :: r =>
      match e_title e with
      | Py.PStr s => ks <- title_keys r ;; Ok ((lower s, e) :: ks)
      | _ => Raise AttributeError
      end
  end.

(** [l.sort(key=lambda m: m["title"].lower())] *)
Definition sort_by_title (l : list entry) : result (list entry) :=
  ks <- title_keys l ;;
  Ok (map snd (stable_sort (key_before false) ks)).

Section Loop.

Variable http_get_json : string -> result Py.pyval.
Variable api_key : string.
Variable str_of_container : Py.pyval -> string.

(** [str(v)], which an f-string applies to the value it shows. *)
Definition str_of (v : Py.pyval) : string :=
  match v with
  | Py.PNone => "None"
  | Py.PBool true => "True"
  | Py.PBool false => "False"
  | Py.PInt z => Py.str_of_Z z
  | Py.PStr s => s
  | _ => str_of_container v
  end.

(** The body of the [try] for the identifier [id]. *)
Definition try_item (today : date) (item : watch_item) (id : Z) : result outcome :=
  details <-
    http_get_json
      (tmdb_url api_key ("/movie/" ++ Py.str_of_Z id) [("language", "en-GB")]) ;;
  releases <-
    http_get_json
      (tmdb_url api_key ("/movie/" ++ Py.str_of_Z id ++ "/release_dates") []) ;;
  if negb (is_dict details) then Ok (Logged (InvalidDetails id))
  else if negb (is_dict releases) || negb (contains_key "results" releases)
  then Ok (Logged (InvalidReleases id))
  else
    chosen <- choose_gb_theatrical_date releases today ;;
    let '(chosen_date, bucket) := snd chosen in
    t1 <- Py.get details "title" Py.PNone ;;
    t2 <- Py.get details "original_title" Py.PNone ;;
    let title :=
      py_or t1 (py_or t2 (py_or (title_hint item)
                            (Py.PStr ("TMDb " ++ Py.str_of_Z id)))) in
    poster <- poster_url details ;;
    let movie :=
      mkentry id title chosen_date poster
        ("https://www.themoviedb.org/movie/" ++ Py.str_of_Z id) in
    match bucket with
    | Some b =>
        if String.eqb b "upcoming" then Ok (Upcoming movie)
        else if String.eqb b "released" then Ok (Released movie)
        else Ok (Tbd (mkentry id title None poster (e_tmdb_url movie)))
    | None => Ok (Tbd (mkentry id title None poster (e_tmdb_url movie)))
    end.

(** One round of the loop. *)
Definition process_item (today : date) (item : watch_item) : outcome :=
  match item_id item with
  | None => Skipped
  | Some id =>
      if id =? 0 then Skipped
      else
        match try_item today item id with
        | Ok o => o
        | Raise e => Logged (ErrorProcessing id e)
        end
  end.

Fixpoint logged (os : list outcome) : list log_line :=
  match os with
  | [] => []
  | Logged l :: r => l :: logged r
  | _ :: r => logged r
  end.

Fixpoint upcoming_of (os : list outcome) : list entry :=
  match os with
  | [] => []
  | Upcoming e :: r => e :: upcoming_of r
  | _ :: r => upcoming_of r
  end.

Fixpoint released_of (os : list outcome) : list entry :=
  match os with
  | [] => []
  | Released e :: r => e :: released_of r
  | _ :: r => released_of r
  end.

Fixpoint tbd_of (os : list outcome) : list entry :=
  match os with
  | [] => []
  | Tbd e :: r => e :: tbd_of r
  | _ :: r => tbd_of r
  end.

(** The movie as [build_ics_events] reads it. *)
Definition movie_of (e : entry) (release : string) : movie :=
  mkmovie (e_tmdb_id e) (str_of (e_title e)) release (e_tmdb_url e).

(** The loop of [build_ics_events] on the movies of the loop above: a
    release date [None] has no [split]. *)
Fixpoint entry_events (dtstamp_utc username : string) (l : list entry)
  : result (list string) :=
  match l with
  | [] => Ok []
  | e :: r =>
      match e_release_date e with
      | None => Raise AttributeError
      | Some s =>
          ls <- event_lines dtstamp_utc username (movie_of e s) ;;
          rs <- entry_events dtstamp_utc username r ;;
          Ok (ls ++ rs)%list
      end
  end.

Definition build_ics_events_of (l : list entry) (dtstamp_utc username : string)
  : result string :=
  evs <- entry_events dtstamp_utc username l ;;
  Ok (Py.join NL (header username ++ evs ++ ["END:VCALENDAR"]) ++ NL)%string.

(** What the function hands to the writer of the two files, and what it
    has written to the error stream itself. *)
Record outputs : Type := mkoutputs {
  out_stderr : list log_line;
  out_upcoming : list entry;
  out_tbd : list entry;
  out_released : list entry;
  out_ics : string
}.

Definition process_user_watchlist (watch : list watch_item) (username : string)
  (today : date) (dtstamp_utc : string) : result outputs :=
  let os := map (process_item today) watch in
  upcoming <- sort_by_release_date false (upcoming_of os) ;;
  released <- sort_by_release_date true (released_of os) ;;
  tbd <- sort_by_title (tbd_of os) ;;
  ics <- build_ics_events_of upcoming dtstamp_utc username ;;
  Ok (mkoutputs (logged os) upcoming tbd released ics).

End Loop.

End Watchlist.

(** ** The payloads and movies of the test suite *)

Module Examples.
Import Datetime MultiUserUpdate.

Definition entry (ty : Z) (s : string) : Py.pyval :=
  Py.PDict [("type", Py.PInt ty); ("release_date", Py.PStr s)].

Definition region (code : string) (rds : list Py.pyval) : Py.pyval :=
  Py.PDict [("iso_3166_1", Py.PStr code); ("release_dates", Py.PList rds)].

Definition payload (rs : list Py.pyval) : Py.pyval :=
  Py.PDict [("id", Py.PInt 123); ("results", Py.PList rs)].

Definition today : date := mkdate 2026 1 1.

Definition date_text : string := "2026-04-17T00:00:00.000Z".

Definition gb_single : Py.pyval := region "GB" [entry 3 date_text].

Definition gb_three : Py.pyval :=
  region "GB"
    [entry 3 "2026-05-01T00:00:00.000Z";
     entry 4 "2026-03-01T00:00:00.000Z";
     entry 3 date_text].

Definition us_single : Py.pyval := region "US" [entry 3 "2026-02-01"].

Definition gb_digital : Py.pyval := region "GB" [entry 4 date_text].

Definition with_malformed : list Py.pyval :=
  [entry 3 "2026-05-01T00:00:00.000Z"; entry 3 "not a date"; entry 3 date_text].

Definition without_malformed : list Py.pyval :=
  [entry 3 "2026-05-01T00:00:00.000Z"; entry 3 date_text].

Definition test_movie : movie :=
  mkmovie 123 "Test; Movie, Part 2" "2026-04-30"
    "https://www.themoviedb.org/movie/123".

Definition last_day_movie : movie :=
  mkmovie 123 "Test Movie" "9999-12-31" "https://www.themoviedb.org/movie/123".

Definition dtstamp : string := "20260101T000000Z".

(** A network that knows three movies: The Matrix, in cinemas on
    2026-05-01; a movie in cinemas on 2026-04-17; a movie without a GB
    release.  Every other request fails. *)
Definition net (url : string) : result Py.pyval :=
  if String.eqb url (Tmdb.tmdb_url "k" "/movie/603" [("language", "en-GB")])
  then Ok (Py.PDict [("title", Py.PStr "The Matrix");
                     ("poster_path", Py.PStr "/path.jpg")])
  else if String.eqb url (Tmdb.tmdb_url "k" "/movie/603/release_dates" [])
  then Ok (payload [region "GB" [entry 3 "2026-05-01T00:00:00.000Z"]])
  else if String.eqb url (Tmdb.tmdb_url "k" "/movie/7" [("language", "en-GB")])
  then Ok (Py.PDict [("original_title", Py.PStr "beta")])
  else if String.eqb url (Tmdb.tmdb_url "k" "/movie/7/release_dates" [])
  then Ok (payload [gb_single])
  else if String.eqb url (Tmdb.tmdb_url "k" "/movie/8" [("language", "en-GB")])
  then Ok (Py.PDict [("title", Py.PStr "Alpha")])
  else if String.eqb url (Tmdb.tmdb_url "k" "/movie/8/release_dates" [])
  then Ok (payload [])
  else Raise ValueError.


Definition no_container_text (v : Py.pyval) : string := "".

Definition watch : list Watchlist.watch_item :=
  [Watchlist.mkitem (Some 603) Py.PNone;
   Watchlist.mkitem None Py.PNone;
   Watchlist.mkitem (Some 5) Py.PNone;
   Watchlist.mkitem (Some 7) Py.PNone;
   Watchlist.mkitem (Some 8) (Py.PStr "hint")].

Definition watch_run : result Watchlist.outputs :=
  Watchlist.process_user_watchlist net "k" no_container_text watch "alice"
    today dtstamp.

(** What the run on [watch] hands to the writer. *)
Definition watch_outputs : Watchlist.outputs :=
  match watch_run with
  | Ok out => out
  | Raise _ => Watchlist.mkoutputs [] [] [] [] ""
  end.

End Examples.

(** ** The month tables with the leap year as a flag *)

Module Tables.
Import Datetime.

Definition pair_eqb (p q : Z * Z) : bool :=
  (fst p =? fst q) && (snd p =? snd q).

Definition dim_flag (L : bool) (m : Z) : Z :=
  if (m =? 2) && L then 29 else DAYS_IN_MONTH m.

Definition dbm_flag (L : bool) (m : Z) : Z :=
  DAYS_BEFORE_MONTH m + (if (2 <? m) && L then 1 else 0).

Definition month_day_check (L : bool) (m : Z) : bool :=
  forall_range
    (fun d => negb (d <=? dim_flag L m)
              || pair_eqb (month_day L (dbm_flag L m + d - 1)) (m, d))
    1 31.

End Tables.

(** ** The order on dates and the sorted list *)

Module Selection.
Import Datetime MultiUserUpdate.

(** The earliest date of a list, as the specification words it. *)
Fixpoint min_date (l : list date) : option date :=
  match l with
  | [] => None
  | d :: rest =>
      match min_date rest with
      | Some m => Some (if leb d m then d else m)
      | None => Some d
      end
  end.

Definition is_min (d : date) (l : list date) : Prop :=
  In d l /\ forall x, In x l -> leb d x = true.

Definition le_date (a b : date) : Prop := leb a b = true.

(** *** Shapes of a payload *)

(** [r] is an entry whose region is GB ([b = true]) or another ([b = false]). *)
Definition region_is (r : Py.pyval) (b : bool) : Prop :=
  exists c, Py.get r "iso_3166_1" Py.PNone = Ok c /\ Py.eq_str c "GB" = b.

(** [gb] is the first GB entry of the results. *)
Inductive first_gb : list Py.pyval -> Py.pyval -> Prop :=
| first_gb_here r rest : region_is r true -> first_gb (r :: rest) r
| first_gb_later r rest gb :
    region_is r false -> first_gb rest gb -> first_gb (r :: rest) gb.

(** A release-date entry of another type than theatrical. *)
Definition not_theatrical (rd : Py.pyval) : Prop :=
  exists ty, Py.get rd "type" Py.PNone = Ok ty
             /\ Py.eq_int ty TMDB_RELEASE_TYPE_THEATRICAL = false.

(** A theatrical entry whose release date is the string [s]. *)
Definition theatrical_on (rd : Py.pyval) (s : string) : Prop :=
  exists ty, Py.get rd "type" Py.PNone = Ok ty
             /\ Py.eq_int ty TMDB_RELEASE_TYPE_THEATRICAL = true
             /\ Py.get rd "release_date" Py.PNone = Ok (Py.PStr s).

(** The dates of the theatrical entries of a list, all of them parseable,
    in the order of the list. *)
Inductive theatrical_dates : list Py.pyval -> list date -> Prop :=
| td_nil : theatrical_dates [] []
| td_skip rd rds ds :
    not_theatrical rd -> theatrical_dates rds ds -> theatrical_dates (rd :: rds) ds
| td_take rd s d rds ds :
    theatrical_on rd s -> parse_iso_date s = Ok d -> theatrical_dates rds ds ->
    theatrical_dates (rd :: rds) (d :: ds).

(** A theatrical entry whose release date is a string that does not parse. *)
Definition malformed (rd : Py.pyval) : bool :=
  match Py.get rd "type" Py.PNone with
  | Ok ty =>
      Py.eq_int ty TMDB_RELEASE_TYPE_THEATRICAL
      && match Py.get rd "release_date" Py.PNone with
         | Ok (Py.PStr s) =>
             negb (String.eqb s "")
             && match parse_iso_date s with Ok _ => false | Raise _ => true end
         | _ => false
         end
  | Raise _ => false
  end.

(** A theatrical entry without a release date: the key is missing or its
    value is false in a test ([None], the empty string, zero). *)
Definition dateless (rd : Py.pyval) : bool :=
  match Py.get rd "type" Py.PNone with
  | Ok ty =>
      Py.eq_int ty TMDB_RELEASE_TYPE_THEATRICAL
      && match Py.get rd "release_date" Py.PNone with
         | Ok v => negb (Py.truthy v)
         | Raise _ => false
         end
  | Raise _ => false
  end.

(** A value that is neither a string nor a dict. *)
Definition not_sliceable_to_text (v : Py.pyval) : bool :=
  match v with
  | Py.PStr _ | Py.PDict _ => false
  | _ => true
  end.

(** The diagnostic of a malformed entry. *)
Definition diagnostic (rd : Py.pyval) : warning :=
  match Py.get rd "release_date" Py.PNone with
  | Ok v => CouldNotParse v
  | Raise _ => CouldNotParse Py.PNone
  end.

(** The release-date entries of the first GB entry; [None] without one. *)
Definition gb_release_dates (payload : Py.pyval) : result (option (list Py.pyval)) :=
  results <- Py.get payload "results" (Py.PList []) ;;
  rs <- Py.iter results ;;
  gb <- find_gb rs ;;
  if negb (Py.truthy gb) then Ok None
  else
    release_dates <- Py.get gb "release_dates" (Py.PList []) ;;
    rds <- Py.iter release_dates ;;
    Ok (Some rds).

(** The choice among the theatrical dates, as the specification words it:
    the earliest date on or after [today] if there is one, else the earliest
    date. *)
Definition pick (theatrical : list date) (today : date) : selection :=
  match min_date (filter (fun d => leb today d) theatrical) with
  | Some d => (Some (isoformat d), Some "upcoming")
  | None =>
      match min_date theatrical with
      | Some d => (Some (isoformat d), Some "released")
      | None => (None, None)
      end
  end.

End Selection.

(** ** Decimal formats of the calendar fields *)

Module Format.

(** The value of a string of decimal digits. *)
Fixpoint digits_value (s : string) (acc : Z) : option Z :=
  match s with
  | "" => Some acc
  | String c r =>
      match Py.digit_val c with
      | Some v => digits_value r (10 * acc + v)
      | None => None
      end
  end.

Definition is_digit (c : ascii) : bool :=
  match Py.digit_val c with Some _ => true | None => false end.

Definition opt_eqb (a b : option Z) : bool :=
  match a, b with
  | Some x, Some y => x =? y
  | None, None => true
  | _, _ => false
  end.

Definition res_eqb (a b : result Z) : bool :=
  match a, b with
  | Ok x, Ok y => x =? y
  | _, _ => false
  end.

(** What the proofs need of [format(n, "0<w>d")]: [w] digits that read back
    as [n], also through [int]. *)
Definition fmt_ok (w : nat) (n : Z) : bool :=
  let s := Py.format_0d w n in
  Nat.eqb (String.length s) w
  && opt_eqb (digits_value s 0) (Some n)
  && res_eqb (Py.int_of_str s) (Ok n).

(** The shape YYYY-MM-DD. *)
Definition iso_date_shape (s : string) : bool :=
  match s with
  | String y1 (String y2 (String y3 (String y4 (String "-"
      (String m1 (String m2 (String "-" (String d1 (String d2 ""))))))))) =>
      is_digit y1 && is_digit y2 && is_digit y3 && is_digit y4
      && is_digit m1 && is_digit m2 && is_digit d1 && is_digit d2
  | _ => false
  end.

End Format.

(** ** The calendar builder *)

Module Calendar.
Import Datetime MultiUserUpdate.

(** The escape of one character, as the specification words it: a
    backslash before a backslash, a semicolon and a comma; backslash and
    the letter n for a newline. *)
Definition escape_char (c : ascii) : string :=
  if Ascii.eqb c "\" then "\\"
  else if Ascii.eqb c ";" then "\;"
  else if Ascii.eqb c "," then "\,"
  else if Ascii.eqb c "010" then "\n"
  else String c "".

Fixpoint escape_text (s : string) : string :=
  match s with
  | "" => ""
  | String c r => (escape_char c ++ escape_text r)%string
  end.

(** The ten lines of an event with the given start and end dates. *)
Definition event_of (dtstamp_utc username : string) (m : movie) (start stop : date)
  : list string :=
  [ "BEGIN:VEVENT";
    ("UID:" ++ ics_escape (uid_of m username))%string;
    ("DTSTAMP:" ++ dtstamp_utc)%string;
    ("DTSTART;VALUE=DATE:" ++ yyyymmdd start)%string;
    ("DTEND;VALUE=DATE:" ++ yyyymmdd stop)%string;
    ("SUMMARY:" ++ ics_escape (title m ++ " (UK theatrical release)"))%string;
    ("DESCRIPTION:" ++ ics_escape ("TMDb: " ++ tmdb_url m))%string;
    "STATUS:CONFIRMED";
    "TRANSP:TRANSPARENT";
    "END:VEVENT" ].

(** The lines of a document, each with its newline. *)
Fixpoint concat_lines (ls : list string) : string :=
  match ls with
  | [] => ""
  | l :: rest => (l ++ NL ++ concat_lines rest)%string
  end.

Fixpoint total_len (ls : list string) : nat :=
  match ls with
  | [] => O
  | l :: rest => (String.length l + 1 + total_len rest)%nat
  end.

(** The start and end dates the builder computes for a movie. *)
Definition span_of (m : movie) (sp : date * date) : Prop :=
  parse_ymd (release_date m) = Ok (fst sp) /\ add_days (fst sp) 1 = Ok (snd sp).

(** The events of a list of movies with their dates, in the order of the
    list. *)
Fixpoint events_of (dtstamp_utc username : string) (ms : list movie)
  (sps : list (date * date)) : list string :=
  match ms, sps with
  | m :: ms', sp :: sps' =>
      (event_of dtstamp_utc username m (fst sp) (snd sp)
       ++ events_of dtstamp_utc username ms' sps')%list
  | _, _ => []
  end.

Definition is_special (c : ascii) : bool :=
  Ascii.eqb c "\" || Ascii.eqb c ";" || Ascii.eqb c "," || Ascii.eqb c "010".

Fixpoint count_special (s : string) : nat :=
  match s with
  | "" => O
  | String c r => ((if is_special c then 1 else 0) + count_special r)%nat
  end.

Fixpoint has_char (c : ascii) (s : string) : bool :=
  match s with
  | "" => false
  | String a r => Ascii.eqb a c || has_char c r
  end.

(** The text before the first user name of a document. *)
Definition preamble : string :=
  ("BEGIN:VCALENDAR" ++ NL ++ "VERSION:2.0" ++ NL
   ++ "PRODID:-//Film Release Tracker//")%string.

(** The identifier without a user segment. *)
Definition generic_uid (m : movie) : string :=
  ("tmdb-" ++ Py.str_of_Z (tmdb_id m) ++ "@film-release-tracker")%string.

End Calendar.

(** ** The request URL and the time stamp *)

Module Requests.
Import Datetime MultiUserUpdate Tmdb.

(** The characters a quoted text is made of. *)
Definition url_safe (c : ascii) : bool :=
  Urllib.always_safe c || Ascii.eqb c "+" || Ascii.eqb c "%".

Fixpoint all_chars (p : ascii -> bool) (s : string) : bool :=
  match s with
  | "" => true
  | String c r => p c && all_chars p r
  end.

Definition safe_or_space (c : ascii) : bool := url_safe c || Ascii.eqb c " ".

Definition has_key (k : string) (d : list (string * string)) : bool :=
  existsb (fun p => String.eqb (fst p) k) d.

End Requests.

(** ** What the loop over the watchlist is to keep *)

Module WatchlistSpec.
Import Datetime MultiUserUpdate Watchlist.

(** The date an entry shows, read back from its text. *)
Definition date_of_entry (e : entry) : date :=
  match e_release_date e with
  | Some s => match parse_iso_date s with Ok d => d | Raise _ => mkdate 1 1 1 end
  | None => mkdate 1 1 1
  end.

(** The entry shows a calendar date. *)
Definition dated (e : entry) : Prop :=
  valid (date_of_entry e)
  /\ e_release_date e = Some (isoformat (date_of_entry e)).

Definition is_skipped (o : outcome) : bool :=
  match o with Skipped => true | _ => false end.

(** The movie a round of the loop appends, if any. *)
Definition entry_of (o : outcome) : option entry :=
  match o with
  | Upcoming e | Released e | Tbd e => Some e
  | _ => None
  end.

Definition keeps_no_movie (o : outcome) : bool :=
  match o with Skipped | Logged _ => true | _ => false end.

Definition is_text (v : Py.pyval) : bool :=
  match v with Py.PStr _ => true | _ => false end.

Definition keyed (p : string * entry) : Prop := e_release_date (snd p) = Some (fst p).

(** The order in which two entries may follow each other after the sort. *)
Definition dates_in_order (reverse : bool) (a b : entry) : Prop :=
  if reverse then leb (date_of_entry b) (date_of_entry a) = true
  else leb (date_of_entry a) (date_of_entry b) = true.

(** The movie the builder reads in a dated entry. *)
Definition movie_of_dated (str_of_container : Py.pyval -> string) (e : entry)
  : movie :=
  movie_of str_of_container e (isoformat (date_of_entry e)).

(** [a] may stand before [b] in a list sorted by [before]. *)
Definition in_order {A : Type} (before : A -> A -> bool) (a b : A) : Prop :=
  before b a = false.

End WatchlistSpec.

(** * Proofs *)

Lemma forall_range_spec f n : forall lo,
  forall_range f lo n = true ->
  forall z, lo <= z < lo + Z.of_nat n -> f z = true.
Proof.
  induction n as [|n IH]; intros lo H z Hz; [lia|].
  cbn [forall_range] in H. apply andb_true_iff in H as [H0 H1].
  destruct (Z.eq_dec z lo) as [-> | Hne]; [exact H0|].
  apply (IH (lo + 1) H1). lia.
Qed.

(** ** Facts about the calendar *)

Module DatetimeFacts.
Import Datetime Tables.

Lemma is_leap_spec y :
  is_leap y = true <-> (y mod 4 = 0 /\ (y mod 100 <> 0 \/ y mod 400 = 0)).
Proof.
  unfold is_leap.
  rewrite andb_true_iff, orb_true_iff, negb_true_iff, !Z.eqb_eq, Z.eqb_neq.
  tauto.
Qed.

Lemma validb_spec d : validb d = true <-> valid d.
Proof.
  unfold validb, valid. rewrite !andb_true_iff, !Z.leb_le. tauto.
Qed.

Lemma small_cases4 e : 0 <= e < 4 -> e = 0 \/ e = 1 \/ e = 2 \/ e = 3.
Proof. lia. Qed.

(** The year before [y] in base (400, 100, 4, 1), the days before it, and
    the leap rule in those digits. *)
Lemma year_digits y :
  1 <= y ->
  exists a b c e, 0 <= a /\ 0 <= b < 4 /\ 0 <= c < 25 /\ 0 <= e < 4 /\
    y - 1 = 400 * a + 100 * b + 4 * c + e /\
    days_before_year y = 146097 * a + 36524 * b + 1461 * c + 365 * e /\
    (is_leap y = true <-> (e = 3 /\ (c <> 24 \/ b = 3))).
Proof.
  intros Hy.
  pose proof (Z.div_mod (y - 1) 400 ltac:(lia)) as E1.
  pose proof (Z.mod_pos_bound (y - 1) 400 ltac:(lia)) as B1.
  pose proof (Z.div_pos (y - 1) 400 ltac:(lia) ltac:(lia)) as P1.
  set (a := (y - 1) / 400) in *. set (r1 := (y - 1) mod 400) in *.
  pose proof (Z.div_mod r1 100 ltac:(lia)) as E2.
  pose proof (Z.mod_pos_bound r1 100 ltac:(lia)) as B2.
  pose proof (Z.div_pos r1 100 ltac:(lia) ltac:(lia)) as P2.
  set (b := r1 / 100) in *. set (r2 := r1 mod 100) in *.
  pose proof (Z.div_mod r2 4 ltac:(lia)) as E3.
  pose proof (Z.mod_pos_bound r2 4 ltac:(lia)) as B3.
  pose proof (Z.div_pos r2 4 ltac:(lia) ltac:(lia)) as P3.
  set (c := r2 / 4) in *. set (e := r2 mod 4) in *.
  clearbody a r1 b r2 c e.
  exists a, b, c, e.
  assert (Hb : 0 <= b < 4) by lia.
  assert (Hc : 0 <= c < 25) by lia.
  assert (HY : y = 400 * a + 100 * b + 4 * c + e + 1) by lia.
  clear E1 E2 E3 B1 B2 r1 r2.
  assert (M4 : y mod 4 = (e + 1) mod 4).
  { replace y with ((e + 1) + (100 * a + 25 * b + c) * 4) by lia.
    apply Z.mod_add. lia. }
  assert (M100 : y mod 100 = (4 * c + e + 1) mod 100).
  { replace y with ((4 * c + e + 1) + (4 * a + b) * 100) by lia.
    apply Z.mod_add. lia. }
  assert (M400 : y mod 400 = (100 * b + 4 * c + e + 1) mod 400).
  { replace y with ((100 * b + 4 * c + e + 1) + a * 400) by lia.
    apply Z.mod_add. lia. }
  split; [lia|]. split; [lia|]. split; [lia|]. split; [lia|]. split; [lia|].
  split; [|split].
  - unfold days_before_year; cbv zeta.
    assert (Q4 : (y - 1) / 4 = 100 * a + 25 * b + c)
      by (symmetry; apply (Z.div_unique _ _ _ e); lia).
    assert (Q100 : (y - 1) / 100 = 4 * a + b)
      by (symmetry; apply (Z.div_unique _ _ _ (4 * c + e)); lia).
    assert (Q400 : (y - 1) / 400 = a)
      by (symmetry; apply (Z.div_unique _ _ _ (100 * b + 4 * c + e)); lia).
    rewrite Q4, Q100, Q400. lia.
  - intros HL. apply is_leap_spec in HL. destruct HL as [H4 H100].
    rewrite M4 in H4. rewrite M100, M400 in H100.
    assert (e = 3)
      by (destruct (small_cases4 e B3) as [-> | [-> | [-> | ->]]];
          try discriminate; reflexivity).
    subst e. split; [reflexivity|].
    destruct (Z.eq_dec c 24) as [-> | Hc24]; [right | now left].
    destruct H100 as [H100 | H400]; [now elim H100 |].
    destruct (small_cases4 b Hb) as [-> | [-> | [-> | ->]]];
      try discriminate; reflexivity.
  - intros [-> Hcb]. apply is_leap_spec. rewrite M4, M100, M400. split.
    + reflexivity.
    + destruct (Z.eq_dec c 24) as [-> | Hc24].
      * right. destruct Hcb as [Hcb | ->]; [now elim Hcb | reflexivity].
      * left. rewrite Z.mod_small by lia. lia.
Qed.

Lemma divmod_unique n d q r :
  0 <= r < d -> n = d * q + r -> n / d = q /\ n mod d = r.
Proof.
  intros Hr Hn. split; symmetry.
  - apply (Z.div_unique n d q r); [left; exact Hr | exact Hn].
  - apply (Z.mod_unique n d q r); [left; exact Hr | exact Hn].
Qed.


Lemma pair_eqb_eq p q : pair_eqb p q = true -> p = q.
Proof.
  destruct p, q; unfold pair_eqb; cbn [fst snd].
  rewrite andb_true_iff, !Z.eqb_eq. intros [-> ->]. reflexivity.
Qed.



(** Evaluates the month tables at literal months. *)
Ltac eval_tables :=
  repeat match goal with
  | H : context [dbm_flag ?L ?m] |- _ =>
      let v := eval vm_compute in (dbm_flag L m) in
      change (dbm_flag L m) with v in H
  | H : context [dim_flag ?L ?m] |- _ =>
      let v := eval vm_compute in (dim_flag L m) in
      change (dim_flag L m) with v in H
  | |- context [dbm_flag ?L ?m] =>
      let v := eval vm_compute in (dbm_flag L m) in
      change (dbm_flag L m) with v
  | |- context [dim_flag ?L ?m] =>
      let v := eval vm_compute in (dim_flag L m) in
      change (dim_flag L m) with v
  end.


Lemma month_day_checked :
  forall_range (fun m => month_day_check true m && month_day_check false m) 1 12
  = true.
Proof. vm_compute. reflexivity. Qed.

(** [month_day] inverts the day-of-year computation of [ymd2ord]. *)
Lemma month_day_spec L m d :
  1 <= m <= 12 -> 1 <= d <= dim_flag L m ->
  month_day L (dbm_flag L m + d - 1) = (m, d).
Proof.
  intros Hm Hd.
  pose proof (forall_range_spec _ _ _ month_day_checked m ltac:(lia)) as H.
  cbv beta in H. apply andb_true_iff in H as [Ht Hf].
  assert (Hd31 : d <= 31).
  { unfold dim_flag in Hd. destruct ((m =? 2) && L); [lia|].
    assert (DAYS_IN_MONTH m <= 31); [|lia].
    assert (Hc : m = 1 \/ m = 2 \/ m = 3 \/ m = 4 \/ m = 5 \/ m = 6 \/ m = 7
                 \/ m = 8 \/ m = 9 \/ m = 10 \/ m = 11 \/ m = 12) by lia.
    repeat (destruct Hc as [-> | Hc]; [cbn; lia|]). subst m; cbn; lia. }
  assert (HL : month_day_check L m = true) by (destruct L; assumption).
  pose proof (forall_range_spec _ _ _ HL d ltac:(lia)) as H.
  cbv beta in H. apply orb_true_iff in H as [H | H].
  - apply negb_true_iff, Z.leb_gt in H. lia.
  - apply pair_eqb_eq. exact H.
Qed.

Lemma dbm_bound L m :
  1 <= m <= 12 -> 0 <= dbm_flag L m /\ dbm_flag L m + dim_flag L m <= 365 + (if L then 1 else 0).
Proof.
  intros Hm.
  assert (Hc : m = 1 \/ m = 2 \/ m = 3 \/ m = 4 \/ m = 5 \/ m = 6 \/ m = 7
               \/ m = 8 \/ m = 9 \/ m = 10 \/ m = 11 \/ m = 12) by lia.
  repeat (destruct Hc as [-> | Hc]; [destruct L; eval_tables; lia|]).
  subst m; destruct L; eval_tables; lia.
Qed.

(** [ord2ymd] on the ordinal of day [doy] (zero-based) of year [y]. *)
Lemma ord2ymd_doy y doy :
  1 <= y -> 0 <= doy < 365 + (if is_leap y then 1 else 0) ->
  ord2ymd (days_before_year y + doy + 1) =
    if doy =? 365 then (y, 12, 31)
    else let '(m, d) := month_day (is_leap y) doy in (y, m, d).
Proof.
  intros Hy Hdoy.
  destruct (year_digits y Hy) as (a & b & c & e & Ha & Hb & Hc & He & HY & HD & HL).
  unfold ord2ymd. cbv zeta. unfold DI400Y, DI100Y, DI4Y. rewrite HD.
  replace (146097 * a + 36524 * b + 1461 * c + 365 * e + doy + 1 - 1)
    with (146097 * a + (36524 * b + 1461 * c + 365 * e + doy)) by lia.
  assert (Hleap365 : doy = 365 -> e = 3 /\ (c <> 24 \/ b = 3)).
  { intros ->. apply HL. destruct (is_leap y); [reflexivity | lia]. }
  assert (Hdoy' : doy <= 365) by (destruct (is_leap y); lia).
  destruct (divmod_unique (146097 * a + (36524 * b + 1461 * c + 365 * e + doy))
              146097 a (36524 * b + 1461 * c + 365 * e + doy)) as [Q1 R1];
    [lia | lia | ].
  rewrite Q1, R1.
  destruct (Z.eq_dec doy 365) as [E365 | N365].
  - (* the last day of a leap year *)
    destruct (Hleap365 E365) as [-> Hcb]. subst doy.
    rewrite Z.eqb_refl.
    destruct (Z.eq_dec c 24) as [-> | Hc24].
    + assert (b = 3) by (destruct Hcb; [congruence | assumption]). subst b.
      replace (36524 * 3 + 1461 * 24 + 365 * 3 + 365) with 146096 by lia.
      change (146096 / 36524) with 4. change (146096 mod 36524) with 0.
      change (0 mod 1461) with 0. change (0 / 1461) with 0.
      change (0 / 365) with 0. change (4 =? 4) with true. rewrite orb_true_r.
      f_equal. f_equal. lia.
    + destruct (divmod_unique (36524 * b + 1461 * c + 365 * 3 + 365)
                  36524 b (1461 * c + 1460)) as [Q2 R2]; [lia | lia |].
      rewrite Q2, R2.
      destruct (divmod_unique (1461 * c + 1460) 1461 c 1460) as [Q3 R3];
        [lia | lia |].
      rewrite Q3, R3. change (1460 / 365) with 4.
      change (4 =? 4) with true. cbn [orb].
      f_equal. f_equal. lia.
  - destruct (Z.eqb_spec doy 365) as [|_]; [contradiction|].
    assert (Hd364 : doy <= 364 \/ (doy = 365 /\ False)).
    { destruct (is_leap y) eqn:EL; [|left; lia].
      destruct (Z.eq_dec doy 365); [contradiction | left; lia]. }
    assert (Hlt : doy < 365 \/ (e = 3 /\ (c <> 24 \/ b = 3))).
    { destruct (is_leap y) eqn:EL; [right; apply HL; reflexivity | left; lia]. }
    destruct (divmod_unique (36524 * b + 1461 * c + 365 * e + doy)
                36524 b (1461 * c + 365 * e + doy)) as [Q2 R2]; [| lia |].
    { destruct Hlt as [Hlt | [-> [Hc24 | ->]]]; lia. }
    rewrite Q2, R2.
    destruct (divmod_unique (1461 * c + 365 * e + doy) 1461 c (365 * e + doy))
      as [Q3 R3]; [| lia |].
    { destruct Hlt as [Hlt | [-> _]]; lia. }
    rewrite Q3, R3.
    destruct (Z.eq_dec doy 365) as [|_]; [contradiction|].
    assert (Hdl : doy < 365 \/ doy = 365) by lia.
    destruct Hdl as [Hdl | Hdl]; [|contradiction].
    destruct (divmod_unique (365 * e + doy) 365 e doy) as [Q4 R4]; [lia | lia |].
    rewrite Q4, R4.
    destruct (Z.eqb_spec e 4) as [|_]; [lia|].
    destruct (Z.eqb_spec b 4) as [|_]; [lia|]. cbn [orb].
    assert (EL : (e =? 3) && (negb (c =? 24) || (b =? 3)) = is_leap y).
    { apply eq_true_iff_eq. rewrite HL.
      rewrite andb_true_iff, orb_true_iff, negb_true_iff, !Z.eqb_eq, Z.eqb_neq.
      tauto. }
    rewrite EL.
    destruct (month_day (is_leap y) doy) as [m d].
    f_equal. f_equal. lia.
Qed.

(** [ord2ymd] is a left inverse of [ymd2ord] on calendar dates. *)
Lemma ord2ymd_ymd2ord y m d :
  1 <= y -> 1 <= m <= 12 -> 1 <= d <= days_in_month y m ->
  ord2ymd (ymd2ord y m d) = (y, m, d).
Proof.
  intros Hy Hm Hd.
  change (days_in_month y m) with (dim_flag (is_leap y) m) in Hd.
  pose proof (dbm_bound (is_leap y) m Hm) as [B0 B1].
  unfold ymd2ord. change (days_before_month y m) with (dbm_flag (is_leap y) m).
  replace (days_before_year y + dbm_flag (is_leap y) m + d)
    with (days_before_year y + (dbm_flag (is_leap y) m + d - 1) + 1) by lia.
  rewrite ord2ymd_doy by (try assumption; lia).
  destruct (Z.eqb_spec (dbm_flag (is_leap y) m + d - 1) 365) as [E | NE].
  - (* day 366 *)
    assert (HLy : is_leap y = true) by (destruct (is_leap y); [reflexivity | lia]).
    rewrite HLy in *.
    assert (Hc : m = 1 \/ m = 2 \/ m = 3 \/ m = 4 \/ m = 5 \/ m = 6 \/ m = 7
                 \/ m = 8 \/ m = 9 \/ m = 10 \/ m = 11 \/ m = 12) by lia.
    assert (Hmd : m = 12 /\ d = 31).
    { clear B0 B1.
      repeat (destruct Hc as [-> | Hc]; [eval_tables; lia|]).
      subst m. eval_tables. lia. }
    destruct Hmd as [-> ->]. reflexivity.
  - rewrite month_day_spec by assumption. reflexivity.
Qed.

Lemma div_pred_4 y : y / 4 = (y - 1) / 4 + (if y mod 4 =? 0 then 1 else 0).
Proof. destruct (Z.eqb_spec (y mod 4) 0); Z.div_mod_to_equations; lia. Qed.

Lemma div_pred_100 y : y / 100 = (y - 1) / 100 + (if y mod 100 =? 0 then 1 else 0).
Proof. destruct (Z.eqb_spec (y mod 100) 0); Z.div_mod_to_equations; lia. Qed.

Lemma div_pred_400 y : y / 400 = (y - 1) / 400 + (if y mod 400 =? 0 then 1 else 0).
Proof. destruct (Z.eqb_spec (y mod 400) 0); Z.div_mod_to_equations; lia. Qed.

Lemma mod_400_100 y : y mod 400 = 0 -> y mod 100 = 0.
Proof. intros H. Z.div_mod_to_equations. lia. Qed.

Lemma mod_100_4 y : y mod 100 = 0 -> y mod 4 = 0.
Proof. intros H. Z.div_mod_to_equations. lia. Qed.

(** A year has 365 days, a leap year 366. *)
Lemma days_before_year_succ y :
  days_before_year (y + 1) = days_before_year y + 365 + (if is_leap y then 1 else 0).
Proof.
  unfold days_before_year, is_leap. cbv zeta.
  replace (y + 1 - 1) with y by lia.
  rewrite (div_pred_4 y), (div_pred_100 y), (div_pred_400 y).
  destruct (Z.eqb_spec (y mod 400) 0) as [H400 | H400].
  - rewrite (mod_400_100 y H400), (mod_100_4 y (mod_400_100 y H400)).
    cbn. lia.
  - destruct (Z.eqb_spec (y mod 100) 0) as [H100 | H100].
    + rewrite (mod_100_4 y H100). cbn. lia.
    + destruct (Z.eqb_spec (y mod 4) 0); cbn; lia.
Qed.

Lemma days_before_year_mono a n :
  days_before_year a <= days_before_year (a + Z.of_nat n).
Proof.
  induction n as [|n IH].
  - replace (a + Z.of_nat 0) with a by lia. lia.
  - replace (a + Z.of_nat (S n)) with (a + Z.of_nat n + 1) by lia.
    rewrite days_before_year_succ. destruct (is_leap (a + Z.of_nat n)); lia.
Qed.

Lemma days_before_year_le a b :
  a <= b -> days_before_year a <= days_before_year b.
Proof.
  intros H. replace b with (a + Z.of_nat (Z.to_nat (b - a))) by lia.
  apply days_before_year_mono.
Qed.

Lemma days_before_year_nonneg y : 1 <= y -> 0 <= days_before_year y.
Proof.
  intros H. change 0 with (days_before_year 1).
  apply days_before_year_le. exact H.
Qed.

Lemma month_cases m :
  1 <= m <= 12 ->
  m = 1 \/ m = 2 \/ m = 3 \/ m = 4 \/ m = 5 \/ m = 6 \/ m = 7 \/ m = 8
  \/ m = 9 \/ m = 10 \/ m = 11 \/ m = 12.
Proof. lia. Qed.

Lemma dim_flag_pos L m : 1 <= m <= 12 -> 28 <= dim_flag L m <= 31.
Proof.
  intros Hm. pose proof (month_cases m Hm) as Hc.
  repeat (destruct Hc as [-> | Hc]; [destruct L; eval_tables; lia|]).
  subst m; destruct L; eval_tables; lia.
Qed.

Lemma dbm_flag_succ L m :
  1 <= m < 12 -> dbm_flag L (m + 1) = dbm_flag L m + dim_flag L m.
Proof.
  intros Hm. pose proof (month_cases m ltac:(lia)) as Hc.
  repeat (destruct Hc as [-> | Hc]; [destruct L; reflexivity|]).
  lia.
Qed.

(** The ordinal of a calendar date lies in the range of [date]. *)
Lemma toordinal_bounds d : valid d -> 1 <= toordinal d <= MAXORDINAL.
Proof.
  intros (Hy & Hm & Hd). unfold MINYEAR, MAXYEAR in Hy.
  unfold toordinal, ymd2ord.
  change (days_before_month (year d) (month d))
    with (dbm_flag (is_leap (year d)) (month d)).
  change (days_in_month (year d) (month d))
    with (dim_flag (is_leap (year d)) (month d)) in Hd.
  pose proof (dbm_bound (is_leap (year d)) (month d) Hm) as [B0 B1].
  pose proof (days_before_year_nonneg (year d) ltac:(lia)).
  split; [lia|].
  pose proof (days_before_year_succ (year d)) as HS.
  pose proof (days_before_year_le (year d + 1) 10000 ltac:(lia)) as HM.
  change (days_before_year 10000) with 3652059 in HM.
  unfold MAXORDINAL. destruct (is_leap (year d)); lia.
Qed.

Lemma next_day_valid d :
  valid d -> d <> mkdate 9999 12 31 -> valid (next_day d).
Proof.
  intros (Hy & Hm & Hd) Hne. unfold MINYEAR, MAXYEAR in Hy.
  unfold next_day, valid, MINYEAR, MAXYEAR.
  destruct (Z.ltb_spec (day d) (days_in_month (year d) (month d))) as [Hlt | Hge].
  - cbn [year month day]. lia.
  - destruct (Z.ltb_spec (month d) 12) as [Hm12 | Hm12]; cbn [year month day].
    + pose proof (dim_flag_pos (is_leap (year d)) (month d + 1) ltac:(lia)).
      change (days_in_month (year d) (month d + 1))
        with (dim_flag (is_leap (year d)) (month d + 1)). lia.
    + assert (Hm' : month d = 12) by lia.
      assert (Hd' : day d = 31).
      { rewrite Hm' in Hd, Hge. unfold days_in_month in Hd, Hge.
        cbn in Hd, Hge. lia. }
      assert (year d <> 9999).
      { intros Hy'. apply Hne. destruct d as [y m dd]; cbn in *. congruence. }
      change (days_in_month (year d + 1) 1) with 31. lia.
Qed.

(** [next_day] moves the ordinal by one. *)
Lemma toordinal_next_day d :
  1 <= year d -> 1 <= month d <= 12 ->
  1 <= day d <= days_in_month (year d) (month d) ->
  toordinal (next_day d) = toordinal d + 1.
Proof.
  intros Hy Hm Hd. unfold next_day, toordinal, ymd2ord.
  destruct (Z.ltb_spec (day d) (days_in_month (year d) (month d))) as [Hlt | Hge].
  - cbn [year month day]. lia.
  - assert (Hdd : day d = days_in_month (year d) (month d)) by lia.
    destruct (Z.ltb_spec (month d) 12) as [Hm12 | Hm12]; cbn [year month day].
    + change (days_before_month (year d) (month d + 1))
        with (dbm_flag (is_leap (year d)) (month d + 1)).
      rewrite dbm_flag_succ by lia.
      change (days_before_month (year d) (month d))
        with (dbm_flag (is_leap (year d)) (month d)).
      change (days_in_month (year d) (month d))
        with (dim_flag (is_leap (year d)) (month d)) in Hdd. lia.
    + assert (Hm' : month d = 12) by lia.
      rewrite Hm' in *. rewrite days_before_year_succ.
      change (days_before_month (year d + 1) 1) with 0.
      unfold days_in_month in Hdd. cbn [Z.eqb Pos.eqb andb DAYS_IN_MONTH] in Hdd.
      unfold days_before_month. change (2 <? 12) with true.
      cbn [andb DAYS_BEFORE_MONTH]. destruct (is_leap (year d)); lia.
Qed.

(** Adding one day through the ordinal gives the next calendar day; the
    last day of year 9999 has no successor. *)
Lemma add_days_one d :
  valid d -> d <> mkdate 9999 12 31 -> add_days d 1 = Ok (next_day d).
Proof.
  intros Hv Hne. pose proof (next_day_valid d Hv Hne) as Hv'.
  destruct Hv as (Hy & Hm & Hd). unfold MINYEAR in Hy.
  unfold add_days. cbv zeta.
  rewrite <- toordinal_next_day by (try assumption; lia).
  pose proof (toordinal_bounds _ Hv') as [B0 B1].
  destruct (Z.ltb_spec 0 (toordinal (next_day d))); [|lia].
  destruct (Z.leb_spec (toordinal (next_day d)) MAXORDINAL); [|lia].
  cbn [andb]. unfold fromordinal, toordinal.
  destruct Hv' as (Hy' & Hm' & Hd'). unfold MINYEAR in Hy'.
  rewrite ord2ymd_ymd2ord by (try assumption; lia).
  unfold date_new.
  assert (HV : validb (mkdate (year (next_day d)) (month (next_day d)) (day (next_day d))) = true).
  { apply validb_spec. unfold valid, MINYEAR. cbn [year month day]. lia. }
  rewrite HV. destruct (next_day d); reflexivity.
Qed.

Lemma add_days_one_max : add_days (mkdate 9999 12 31) 1 = Raise OverflowError.
Proof. reflexivity. Qed.

End DatetimeFacts.

Module SelectionFacts.
Import Datetime MultiUserUpdate Selection.

Lemma cmp_eq a b : cmp a b = Eq -> a = b.
Proof.
  destruct a as [y m d], b as [y' m' d']. unfold cmp. cbn [year month day].
  destruct (Z.compare_spec y y'); try discriminate.
  destruct (Z.compare_spec m m'); try discriminate.
  destruct (Z.compare_spec d d'); try discriminate.
  intros _. congruence.
Qed.

Lemma cmp_refl a : cmp a a = Eq.
Proof. unfold cmp. rewrite !Z.compare_refl. reflexivity. Qed.

Lemma cmp_antisym a b : cmp b a = CompOpp (cmp a b).
Proof.
  unfold cmp.
  rewrite (Z.compare_antisym (year a) (year b)).
  rewrite (Z.compare_antisym (month a) (month b)).
  rewrite (Z.compare_antisym (day a) (day b)).
  destruct (year a ?= year b); cbn; try reflexivity.
  destruct (month a ?= month b); cbn; reflexivity.
Qed.

(** [leb] as a lexicographic comparison of integers. *)
Lemma leb_spec a b :
  leb a b = true <->
  (year a < year b \/
   (year a = year b /\ (month a < month b \/ (month a = month b /\ day a <= day b)))).
Proof.
  unfold leb, cmp.
  destruct (Z.compare_spec (year a) (year b));
    [destruct (Z.compare_spec (month a) (month b));
       [destruct (Z.compare_spec (day a) (day b))| |] | |];
    split; intros; try reflexivity; try discriminate; lia.
Qed.

Lemma leb_refl a : leb a a = true.
Proof. unfold leb. rewrite cmp_refl. reflexivity. Qed.

Lemma leb_trans a b c : leb a b = true -> leb b c = true -> leb a c = true.
Proof. rewrite !leb_spec. lia. Qed.

Lemma leb_total a b : leb a b = true \/ leb b a = true.
Proof. rewrite !leb_spec. lia. Qed.

Lemma leb_antisym a b : leb a b = true -> leb b a = true -> a = b.
Proof.
  rewrite !leb_spec. intros H1 H2.
  destruct a as [y m d], b as [y' m' d']. cbn [year month day] in *.
  f_equal; lia.
Qed.

Lemma ltb_negb_leb a b : ltb a b = negb (leb b a).
Proof.
  unfold ltb, leb. rewrite (cmp_antisym a b).
  destruct (cmp a b); reflexivity.
Qed.

Lemma leb_false_flip a b : leb a b = false -> leb b a = true.
Proof. intros H. destruct (leb_total a b); congruence. Qed.

(** *** Insertion sort *)


Lemma insert_sorted_perm d l : Permutation (d :: l) (insert_sorted d l).
Proof.
  induction l as [|x l IH]; cbn [insert_sorted].
  - apply Permutation_refl.
  - destruct (leb d x).
    + apply Permutation_refl.
    + apply perm_trans with (x :: d :: l); [apply perm_swap|].
      apply perm_skip. exact IH.
Qed.

Lemma sort_perm l : Permutation l (sort l).
Proof.
  induction l as [|d l IH]; cbn [sort].
  - apply perm_nil.
  - apply perm_trans with (d :: sort l).
    + apply perm_skip. exact IH.
    + apply insert_sorted_perm.
Qed.

Lemma insert_sorted_In d l x : In x (insert_sorted d l) <-> x = d \/ In x l.
Proof.
  split; intros H.
  - apply (Permutation_in _ (Permutation_sym (insert_sorted_perm d l))) in H.
    destruct H; [left; congruence | right; assumption].
  - apply (Permutation_in _ (insert_sorted_perm d l)).
    destruct H; [left; congruence | right; assumption].
Qed.

Lemma insert_sorted_sorted d l :
  StronglySorted le_date l -> StronglySorted le_date (insert_sorted d l).
Proof.
  induction 1 as [|x l Hs IH Hx]; cbn [insert_sorted].
  - constructor; [constructor | constructor].
  - destruct (leb d x) eqn:E.
    + constructor; [constructor; assumption|].
      constructor; [exact E|].
      rewrite Forall_forall in *. intros y Hy.
      apply leb_trans with x; [exact E | apply Hx; exact Hy].
    + constructor; [exact IH|].
      rewrite Forall_forall in *. intros y Hy.
      apply insert_sorted_In in Hy. destruct Hy as [-> | Hy].
      * apply leb_false_flip. exact E.
      * apply Hx. exact Hy.
Qed.

Lemma sort_sorted l : StronglySorted le_date (sort l).
Proof.
  induction l as [|d l IH]; cbn [sort].
  - constructor.
  - apply insert_sorted_sorted. exact IH.
Qed.

Lemma filter_sorted (p : date -> bool) l :
  StronglySorted le_date l -> StronglySorted le_date (filter p l).
Proof.
  induction 1 as [|x l Hs IH Hx]; cbn [filter].
  - constructor.
  - destruct (p x); [|exact IH].
    constructor; [exact IH|].
    rewrite Forall_forall in *. intros y Hy.
    apply filter_In in Hy. apply Hx. tauto.
Qed.

(** *** The minimum *)

Lemma min_date_is_min l d : min_date l = Some d -> is_min d l.
Proof.
  revert d. induction l as [|x l IH]; intros d H; [discriminate|].
  cbn [min_date] in H. destruct (min_date l) as [m|] eqn:E.
  - destruct (IH m eq_refl) as [Hin Hle].
    destruct (leb x m) eqn:Exm; inversion H; subst d; split.
    + left; reflexivity.
    + intros y [<- | Hy]; [apply leb_refl|].
      apply leb_trans with m; [exact Exm | apply Hle; exact Hy].
    + right; exact Hin.
    + intros y [<- | Hy]; [apply leb_false_flip; exact Exm | apply Hle; exact Hy].
  - inversion H; subst d. destruct l; [|cbn in E; destruct (min_date l); discriminate].
    split; [left; reflexivity|]. intros y [<- | []]. apply leb_refl.
Qed.

Lemma min_date_none l : min_date l = None -> l = [].
Proof.
  destruct l as [|x l]; [reflexivity|]. cbn [min_date].
  destruct (min_date l); discriminate.
Qed.

Lemma is_min_unique l a b : is_min a l -> is_min b l -> a = b.
Proof.
  intros [Ha Hla] [Hb Hlb]. apply leb_antisym; auto.
Qed.

Lemma is_min_perm l l' d : Permutation l l' -> is_min d l -> is_min d l'.
Proof.
  intros HP [Hin Hle]. split.
  - apply (Permutation_in _ HP). exact Hin.
  - intros x Hx. apply Hle. apply (Permutation_in _ (Permutation_sym HP)). exact Hx.
Qed.

Lemma sorted_head_is_min d l : StronglySorted le_date (d :: l) -> is_min d (d :: l).
Proof.
  intros H. inversion H as [|? ? _ Hd]; subst. split; [left; reflexivity|].
  intros x [<- | Hx]; [apply leb_refl|].
  rewrite Forall_forall in Hd. apply Hd. exact Hx.
Qed.

Lemma filter_perm (p : date -> bool) l l' :
  Permutation l l' -> Permutation (filter p l) (filter p l').
Proof.
  induction 1 as [| x l l' _ IH | x y l | l l' l'' _ IH1 _ IH2]; cbn [filter].
  - apply perm_nil.
  - destruct (p x); [apply perm_skip|]; exact IH.
  - destruct (p x), (p y); try apply Permutation_refl. apply perm_swap.
  - apply perm_trans with (filter p l'); assumption.
Qed.

(** The head of the sorted and filtered list is the earliest of the
    dates that pass the filter. *)
Lemma head_filter_sort (p : date -> bool) l :
  item0 (filter p (sort l)) =
    match min_date (filter p l) with
    | Some d => Ok d
    | None => Raise IndexError
    end.
Proof.
  pose proof (filter_sorted p _ (sort_sorted l)) as HS.
  pose proof (filter_perm p _ _ (sort_perm l)) as HP.
  destruct (min_date (filter p l)) as [m|] eqn:E.
  - apply min_date_is_min in E.
    destruct (filter p (sort l)) as [|d r] eqn:EF.
    + destruct E as [Hin _]. apply (Permutation_in _ HP) in Hin. destruct Hin.
    + cbn [item0]. f_equal.
      apply (is_min_unique (d :: r)).
      * apply sorted_head_is_min. exact HS.
      * apply (is_min_perm _ _ _ HP). exact E.
  - apply min_date_none in E. rewrite E in HP.
    apply Permutation_nil in HP. rewrite HP. reflexivity.
Qed.

Lemma head_sort l :
  item0 (sort l) =
    match min_date l with
    | Some d => Ok d
    | None => Raise IndexError
    end.
Proof.
  pose proof (head_filter_sort (fun _ => true) l) as H.
  assert (F : forall l', filter (fun _ : date => true) l' = l').
  { induction l' as [|x l' IH]; cbn; [reflexivity | now rewrite IH]. }
  rewrite !F in H. exact H.
Qed.

End SelectionFacts.

(** ** Strings *)

Module StringFacts.

Lemma app_assoc (a b c : string) : ((a ++ b) ++ c = a ++ (b ++ c))%string.
Proof. induction a as [|x a IH]; cbn; [reflexivity | now rewrite IH]. Qed.

Lemma app_nil_r (a : string) : (a ++ "" = a)%string.
Proof. induction a as [|x a IH]; cbn; [reflexivity | now rewrite IH]. Qed.

Lemma app_length (a b : string) :
  String.length (a ++ b) = (String.length a + String.length b)%nat.
Proof. induction a as [|x a IH]; cbn; [reflexivity | now rewrite IH]. Qed.

Lemma app_inv_head (p a b : string) : (p ++ a = p ++ b)%string -> a = b.
Proof.
  induction p as [|x p IH]; cbn; intros H; [exact H|].
  inversion H. auto.
Qed.

Lemma app_inv_tail (a b q : string) : (a ++ q = b ++ q)%string -> a = b.
Proof.
  revert b. induction a as [|x a IH]; intros [|y b] H; cbn in H.
  - reflexivity.
  - exfalso. apply (f_equal String.length) in H. cbn in H.
    rewrite app_length in H. lia.
  - exfalso. apply (f_equal String.length) in H. cbn in H.
    rewrite app_length in H. lia.
  - inversion H. f_equal. auto.
Qed.

(** Two decompositions of one string: one head extends the other. *)
Lemma app_eq_prefix (a b x y : string) :
  (a ++ x = b ++ y)%string ->
  exists w, (b = a ++ w \/ a = b ++ w)%string.
Proof.
  revert b. induction a as [|c a IH]; intros b H.
  - exists b. left. reflexivity.
  - destruct b as [|c' b].
    + exists (String c a). right. reflexivity.
    + cbn in H. inversion H; subst c'. destruct (IH b H2) as [w [Hw | Hw]].
      * exists w. left. cbn. now rewrite Hw.
      * exists w. right. cbn. now rewrite Hw.
Qed.

Lemma slice_to_app (a b : string) :
  Py.slice_to (String.length a) (a ++ b) = a.
Proof. induction a as [|x a IH]; cbn; [now destruct b | now rewrite IH]. Qed.

Lemma slice_to_all (a : string) : Py.slice_to (String.length a) a = a.
Proof. induction a as [|x a IH]; cbn; [reflexivity | now rewrite IH]. Qed.

End StringFacts.

Module FormatFacts.
Import Format StringFacts.

Lemma fmt4_checked : forall_range (fmt_ok 4) 0 (Z.to_nat 10000) = true.
Proof. vm_compute. reflexivity. Qed.

Lemma fmt2_checked : forall_range (fmt_ok 2) 0 (Z.to_nat 100) = true.
Proof. vm_compute. reflexivity. Qed.

Lemma fmt_ok_spec w n :
  fmt_ok w n = true ->
  String.length (Py.format_0d w n) = w
  /\ digits_value (Py.format_0d w n) 0 = Some n
  /\ Py.int_of_str (Py.format_0d w n) = Ok n.
Proof.
  unfold fmt_ok. cbv zeta. rewrite !andb_true_iff, Nat.eqb_eq.
  intros [[H1 H2] H3]. split; [exact H1|]. split.
  - destruct (digits_value (Py.format_0d w n) 0); cbn in H2; [|discriminate].
    apply Z.eqb_eq in H2. congruence.
  - destruct (Py.int_of_str (Py.format_0d w n)); cbn in H3; [|discriminate].
    apply Z.eqb_eq in H3. congruence.
Qed.

Lemma fmt4 n :
  0 <= n <= 9999 ->
  String.length (Py.format_0d 4 n) = 4%nat
  /\ digits_value (Py.format_0d 4 n) 0 = Some n
  /\ Py.int_of_str (Py.format_0d 4 n) = Ok n.
Proof.
  intros H. apply fmt_ok_spec.
  apply (forall_range_spec _ _ _ fmt4_checked). rewrite Z2Nat.id; lia.
Qed.

Lemma fmt2 n :
  0 <= n <= 99 ->
  String.length (Py.format_0d 2 n) = 2%nat
  /\ digits_value (Py.format_0d 2 n) 0 = Some n
  /\ Py.int_of_str (Py.format_0d 2 n) = Ok n.
Proof.
  intros H. apply fmt_ok_spec.
  apply (forall_range_spec _ _ _ fmt2_checked). rewrite Z2Nat.id; lia.
Qed.

Lemma digit_val_ascii c v : Py.digit_val c = Some v -> (Py.ord c <? 128) = true.
Proof.
  unfold Py.digit_val. cbv zeta.
  destruct (Z.leb_spec 48 (Py.ord c)) as [H1 | H1];
    destruct (Z.leb_spec (Py.ord c) 57) as [H2 | H2];
    cbn; intros H; try discriminate. apply Z.ltb_lt. lia.
Qed.

Lemma digit_val_not c v (x : ascii) :
  Py.digit_val c = Some v -> Py.digit_val x = None -> Ascii.eqb c x = false.
Proof.
  intros Hc Hx. destruct (Ascii.eqb_spec c x) as [-> | _]; [congruence | reflexivity].
Qed.

Lemma parse_digits_app s : forall acc v r,
  digits_value s acc = Some v ->
  Datetime.parse_digits (String.length s) (s ++ r) acc = Some (v, r).
Proof.
  induction s as [|c s IH]; intros acc v r H; cbn in *.
  - congruence.
  - destruct (Py.digit_val c); [|discriminate]. apply IH. exact H.
Qed.

Lemma utf8_digits s : forall acc v r,
  digits_value s acc = Some v -> Py.utf8 (s ++ r) = (s ++ Py.utf8 r)%string.
Proof.
  induction s as [|c s IH]; intros acc v r H; cbn [digits_value] in H.
  - reflexivity.
  - destruct (Py.digit_val c) eqn:E; [|discriminate].
    cbn [append Py.utf8]. cbv zeta. rewrite (digit_val_ascii _ _ E).
    f_equal. eapply IH. exact H.
Qed.

Lemma split_digits s : forall acc v r,
  digits_value s acc = Some v ->
  Py.split_char "-" (s ++ String "-" r) = s :: Py.split_char "-" r.
Proof.
  induction s as [|c s IH]; intros acc v r H; cbn [digits_value] in H.
  - reflexivity.
  - destruct (Py.digit_val c) eqn:E; [|discriminate].
    cbn [append Py.split_char].
    rewrite (digit_val_not c z "-" E eq_refl).
    rewrite (IH _ _ r H). reflexivity.
Qed.

Lemma split_digits_last s : forall acc v,
  digits_value s acc = Some v -> Py.split_char "-" s = [s].
Proof.
  induction s as [|c s IH]; intros acc v H; cbn [digits_value] in H.
  - reflexivity.
  - destruct (Py.digit_val c) eqn:E; [|discriminate].
    cbn [Py.split_char].
    rewrite (digit_val_not c z "-" E eq_refl).
    rewrite (IH _ _ H). reflexivity.
Qed.

Lemma digits_head s acc v :
  digits_value s acc = Some v -> s <> "" ->
  exists c r, s = String c r /\ is_digit c = true.
Proof.
  destruct s as [|c r]; intros H Hne; [congruence|].
  exists c, r. split; [reflexivity|]. unfold is_digit.
  cbn in H. destruct (Py.digit_val c); [reflexivity | discriminate].
Qed.

Lemma digits2_shape s v :
  String.length s = 2%nat -> digits_value s 0 = Some v ->
  exists a b, s = String a (String b "") /\ is_digit a = true /\ is_digit b = true.
Proof.
  destruct s as [|a [|b [|c r]]]; cbn [String.length]; intros HL H; try discriminate.
  exists a, b. unfold is_digit. cbn in H.
  destruct (Py.digit_val a); [|discriminate].
  destruct (Py.digit_val b); [|discriminate]. auto.
Qed.

Lemma digits4_shape s v :
  String.length s = 4%nat -> digits_value s 0 = Some v ->
  exists a b c d, s = String a (String b (String c (String d "")))
    /\ is_digit a = true /\ is_digit b = true /\ is_digit c = true /\ is_digit d = true.
Proof.
  destruct s as [|a [|b [|c [|d [|e r]]]]]; cbn [String.length]; intros HL H;
    try discriminate.
  exists a, b, c, d. unfold is_digit. cbn in H.
  destruct (Py.digit_val a); [|discriminate].
  destruct (Py.digit_val b); [|discriminate].
  destruct (Py.digit_val c); [|discriminate].
  destruct (Py.digit_val d); [|discriminate]. auto.
Qed.

Lemma utf8_dash r : Py.utf8 (String "-" r) = String "-" (Py.utf8 r).
Proof. reflexivity. Qed.

Lemma utf8_digits_all s acc v : digits_value s acc = Some v -> Py.utf8 s = s.
Proof.
  intros H. pose proof (utf8_digits s acc v "" H) as E.
  cbn [Py.utf8] in E. rewrite !app_nil_r in E. exact E.
Qed.

Lemma starts_with_digits (x : ascii) s acc v r :
  digits_value s acc = Some v -> s <> "" -> Py.digit_val x = None ->
  Datetime.starts_with x (s ++ r) = false.
Proof.
  intros H Hne Hx. destruct s as [|c s]; [congruence|].
  cbn [digits_value] in H. destruct (Py.digit_val c) eqn:E; [|discriminate].
  cbn [append Datetime.starts_with]. eapply digit_val_not; eassumption.
Qed.

Lemma length_nonempty s n : String.length s = S n -> s <> "".
Proof. destruct s; cbn; congruence. Qed.

(** Parsing the text of a date in the extended format, whatever follows
    its ten characters. *)
Lemma fromisoformat_components A B C y m dd :
  String.length A = 4%nat -> digits_value A 0 = Some y ->
  String.length B = 2%nat -> digits_value B 0 = Some m ->
  String.length C = 2%nat -> digits_value C 0 = Some dd ->
  Datetime.fromisoformat (A ++ String "-" (B ++ String "-" C))
  = Datetime.date_new y m dd.
Proof.
  intros LA VA LB VB LC VC. unfold Datetime.fromisoformat. cbv zeta.
  rewrite (utf8_digits A 0 y _ VA), utf8_dash, (utf8_digits B 0 m _ VB), utf8_dash,
    (utf8_digits_all C 0 dd VC).
  unfold Py.len. rewrite app_length. cbn [String.length].
  rewrite app_length. cbn [String.length]. rewrite LA, LB, LC.
  change (Z.of_nat (4 + S (2 + S 2))) with 10.
  change ((10 =? 7) || (10 =? 8) || (10 =? 10)) with true. cbv iota.
  unfold Datetime.parse_isoformat_date.
  rewrite <- LA at 1. rewrite (parse_digits_app A 0 y _ VA).
  cbn [Datetime.starts_with Datetime.tail]. change (Ascii.eqb "-" "-") with true.
  cbv iota zeta.
  rewrite (starts_with_digits "W" B 0 m _ VB (length_nonempty _ _ LB) eq_refl).
  rewrite <- LB at 1. rewrite (parse_digits_app B 0 m _ VB).
  cbn [Datetime.starts_with Datetime.tail]. change (Ascii.eqb "-" "-") with true.
  cbn [andb negb]. cbv iota.
  rewrite <- (app_nil_r C) at 1. rewrite <- LC at 1.
  rewrite (parse_digits_app C 0 dd _ VC). reflexivity.
Qed.

Lemma date_new_valid d :
  Datetime.valid d ->
  Datetime.date_new (Datetime.year d) (Datetime.month d) (Datetime.day d) = Ok d.
Proof.
  intros H. unfold Datetime.date_new.
  assert (E : Datetime.mkdate (Datetime.year d) (Datetime.month d) (Datetime.day d) = d)
    by (destruct d; reflexivity).
  rewrite E. apply DatetimeFacts.validb_spec in H. rewrite H. reflexivity.
Qed.


Lemma valid_fields d :
  Datetime.valid d ->
  0 <= Datetime.year d <= 9999 /\ 0 <= Datetime.month d <= 99
  /\ 0 <= Datetime.day d <= 99.
Proof.
  intros (Hy & Hm & Hd). unfold Datetime.MINYEAR, Datetime.MAXYEAR in Hy.
  pose proof (DatetimeFacts.dim_flag_pos
                (Datetime.is_leap (Datetime.year d)) (Datetime.month d) Hm) as B.
  change (Tables.dim_flag (Datetime.is_leap (Datetime.year d)) (Datetime.month d))
    with (Datetime.days_in_month (Datetime.year d) (Datetime.month d)) in B.
  lia.
Qed.

Lemma fromisoformat_isoformat d :
  Datetime.valid d -> Datetime.fromisoformat (Datetime.isoformat d) = Ok d.
Proof.
  intros Hv. destruct (valid_fields d Hv) as (Hy & Hm & Hd).
  destruct (fmt4 _ Hy) as (LA & VA & _).
  destruct (fmt2 _ Hm) as (LB & VB & _).
  destruct (fmt2 _ Hd) as (LC & VC & _).
  unfold Datetime.isoformat.
  cbn [append].
  rewrite (fromisoformat_components _ _ _ _ _ _ LA VA LB VB LC VC).
  apply date_new_valid. exact Hv.
Qed.

Lemma isoformat_length d :
  Datetime.valid d -> String.length (Datetime.isoformat d) = 10%nat.
Proof.
  intros Hv. destruct (valid_fields d Hv) as (Hy & Hm & Hd).
  destruct (fmt4 _ Hy) as (LA & _).
  destruct (fmt2 _ Hm) as (LB & _).
  destruct (fmt2 _ Hd) as (LC & _).
  unfold Datetime.isoformat. rewrite !app_length. cbn [String.length].
  rewrite LA, LB, LC. reflexivity.
Qed.

Lemma isoformat_shape d :
  Datetime.valid d -> iso_date_shape (Datetime.isoformat d) = true.
Proof.
  intros Hv. destruct (valid_fields d Hv) as (Hy & Hm & Hd).
  destruct (fmt4 _ Hy) as (LA & VA & _).
  destruct (fmt2 _ Hm) as (LB & VB & _).
  destruct (fmt2 _ Hd) as (LC & VC & _).
  destruct (digits4_shape _ _ LA VA) as (a1 & a2 & a3 & a4 & EA & D1 & D2 & D3 & D4).
  destruct (digits2_shape _ _ LB VB) as (b1 & b2 & EB & D5 & D6).
  destruct (digits2_shape _ _ LC VC) as (c1 & c2 & EC & D7 & D8).
  unfold Datetime.isoformat. rewrite EA, EB, EC. cbn [append iso_date_shape].
  rewrite D1, D2, D3, D4, D5, D6, D7, D8. reflexivity.
Qed.

End FormatFacts.

(** ** Parsing a release date *)

Module ParseFacts.
Import Datetime MultiUserUpdate StringFacts FormatFacts.

Lemma parse_iso_date_prefix s t :
  String.length s = 10%nat -> parse_iso_date (s ++ t) = parse_iso_date s.
Proof.
  intros H. unfold parse_iso_date.
  rewrite <- H. rewrite slice_to_app, slice_to_all. reflexivity.
Qed.

Lemma parse_iso_date_isoformat d :
  valid d -> parse_iso_date (isoformat d) = Ok d.
Proof.
  intros Hv. unfold parse_iso_date.
  rewrite <- (isoformat_length d Hv), slice_to_all.
  apply fromisoformat_isoformat. exact Hv.
Qed.

(** A parsed date is a date of the calendar, and the only failure is
    [ValueError]. *)
Lemma fromisoformat_result s :
  (exists d, fromisoformat s = Ok d /\ valid d) \/ fromisoformat s = Raise ValueError.
Proof.
  unfold fromisoformat. cbv zeta.
  destruct ((Py.len (Py.utf8 s) =? 7) || (Py.len (Py.utf8 s) =? 8)
            || (Py.len (Py.utf8 s) =? 10)); [|right; reflexivity].
  destruct (parse_isoformat_date (Py.utf8 s)) as [[[y m] dd]|]; [|right; reflexivity].
  unfold date_new. destruct (validb (mkdate y m dd)) eqn:E; [left | right; reflexivity].
  exists (mkdate y m dd). split; [reflexivity|].
  apply DatetimeFacts.validb_spec. exact E.
Qed.

Lemma parse_iso_date_result s :
  (exists d, parse_iso_date s = Ok d /\ valid d) \/ parse_iso_date s = Raise ValueError.
Proof. apply fromisoformat_result. Qed.

Lemma parse_iso_date_valid s d : parse_iso_date s = Ok d -> valid d.
Proof.
  intros H. destruct (parse_iso_date_result s) as [(d' & E & V) | E]; congruence.
Qed.

(** X1. On a string, [parse_iso_date] returns a date of the calendar or raises
    [ValueError], the exception the selector catches: no other exception
    comes out of it. *)
Theorem parse_iso_date_value_error_only s :
  (exists d, parse_iso_date s = Ok d /\ valid d)
  \/ parse_iso_date s = Raise ValueError.
Proof. apply parse_iso_date_result. Qed.

(** C6. [parse_iso_date] reads a calendar date from its bare text
    YYYY-MM-DD and from that text followed by anything (a time and a zone);
    in general the result depends on the first ten characters only. *)
Theorem parse_iso_date_date_portion (d : date) (t : string) :
  valid d ->
  parse_iso_date (isoformat d) = Ok d
  /\ parse_iso_date (isoformat d ++ t) = Ok d
  /\ (forall s, String.length s = 10%nat ->
        parse_iso_date (s ++ t) = parse_iso_date s).
Proof.
  intros Hv. split; [|split].
  - apply parse_iso_date_isoformat. exact Hv.
  - rewrite parse_iso_date_prefix by (apply isoformat_length; exact Hv).
    apply parse_iso_date_isoformat. exact Hv.
  - intros s Hs. apply parse_iso_date_prefix. exact Hs.
Qed.

Lemma parse_iso_date_date_portion_witness :
  valid (mkdate 2026 4 17)
  /\ parse_iso_date "2026-04-17T00:00:00.000Z" = Ok (mkdate 2026 4 17).
Proof.
  assert (Hv : valid (mkdate 2026 4 17)).
  { unfold valid, MINYEAR, MAXYEAR. cbn. lia. }
  split; [exact Hv|].
  exact (proj1 (proj2 (parse_iso_date_date_portion (mkdate 2026 4 17)
                         "T00:00:00.000Z" Hv))).
Defined.

End ParseFacts.

(** ** The date selector *)

Module SelectorFacts.
Import Datetime MultiUserUpdate Selection SelectionFacts ParseFacts.

(** The selector is the choice [pick] on the dates collected from the
    release dates of the first GB entry. *)
Lemma choose_factor payload today :
  choose_gb_theatrical_date payload today =
    (x <- gb_release_dates payload ;;
     match x with
     | None => Ok ([], (None, None))
     | Some rds =>
         c <- collect_theatrical rds ;;
         Ok (fst c, pick (snd c) today)
     end).
Proof.
  unfold choose_gb_theatrical_date, gb_release_dates.
  destruct (Py.get payload "results" (Py.PList [])) as [results|e]; [|reflexivity].
  cbn [bind]. destruct (Py.iter results) as [rs|e]; [|reflexivity].
  cbn [bind]. destruct (find_gb rs) as [gb|e]; [|reflexivity].
  cbn [bind]. destruct (negb (Py.truthy gb)); [reflexivity|].
  destruct (Py.get gb "release_dates" (Py.PList [])) as [rel|e]; [|reflexivity].
  cbn [bind]. destruct (Py.iter rel) as [rds|e]; [|reflexivity].
  cbn [bind]. destruct (collect_theatrical rds) as [[stderr theatrical]|e]; [|reflexivity].
  cbn [bind fst snd]. unfold pick.
  destruct theatrical as [|d0 th]; [reflexivity|].
  set (l := d0 :: th).
  pose proof (head_filter_sort (fun d => leb today d) l) as HF.
  pose proof (head_sort l) as HS.
  destruct (filter (fun d => leb today d) (sort l)) as [|f fs] eqn:EF.
  - cbn [item0] in HF.
    destruct (min_date (filter (fun d => leb today d) l)); [discriminate|].
    rewrite HS. destruct (min_date l) as [m|] eqn:EM; [reflexivity|].
    apply min_date_none in EM. discriminate.
  - rewrite HF.
    destruct (min_date (filter (fun d => leb today d) l)); [reflexivity | discriminate].
Qed.

Lemma region_gb_truthy r : region_is r true -> Py.truthy r = true.
Proof.
  intros (c & Hget & Heq). destruct r; try discriminate.
  destruct kv as [|p kv]; [|reflexivity].
  cbn in Hget. inversion Hget; subst c. discriminate.
Qed.

Lemma find_gb_first rs gb : first_gb rs gb -> find_gb rs = Ok gb.
Proof.
  induction 1 as [r rest (c & Hget & Heq) | r rest gb (c & Hget & Heq) _ IH];
    cbn [find_gb]; rewrite Hget; cbn [bind]; rewrite Heq; [reflexivity | exact IH].
Qed.

Lemma first_gb_truthy rs gb : first_gb rs gb -> Py.truthy gb = true.
Proof. induction 1; [apply region_gb_truthy|]; assumption. Qed.

Lemma find_gb_none rs :
  Forall (fun r => region_is r false) rs -> find_gb rs = Ok Py.PNone.
Proof.
  induction 1 as [|r rest (c & Hget & Heq) _ IH]; cbn [find_gb]; [reflexivity|].
  rewrite Hget. cbn [bind]. rewrite Heq. exact IH.
Qed.

Lemma gb_release_dates_found payload rs gb rds :
  Py.get payload "results" (Py.PList []) = Ok (Py.PList rs) ->
  first_gb rs gb ->
  Py.get gb "release_dates" (Py.PList []) = Ok (Py.PList rds) ->
  gb_release_dates payload = Ok (Some rds).
Proof.
  intros Hres Hgb Hrel. unfold gb_release_dates.
  rewrite Hres. cbn [bind Py.iter]. rewrite (find_gb_first _ _ Hgb). cbn [bind].
  rewrite (first_gb_truthy _ _ Hgb). cbn [negb]. rewrite Hrel. reflexivity.
Qed.

Lemma gb_release_dates_absent payload rs :
  Py.get payload "results" (Py.PList []) = Ok (Py.PList rs) ->
  Forall (fun r => region_is r false) rs ->
  gb_release_dates payload = Ok None.
Proof.
  intros Hres Hno. unfold gb_release_dates.
  rewrite Hres. cbn [bind Py.iter]. rewrite (find_gb_none _ Hno). reflexivity.
Qed.

Lemma visit_not_theatrical rd :
  not_theatrical rd -> visit_release_date rd = Ok ([], []).
Proof.
  intros (ty & Hget & Hne). unfold visit_release_date.
  rewrite Hget. cbn [bind]. rewrite Hne. reflexivity.
Qed.

Lemma parse_nonempty s d : parse_iso_date s = Ok d -> String.eqb s "" = false.
Proof. destruct s; [discriminate | reflexivity]. Qed.

Lemma visit_theatrical rd s d :
  theatrical_on rd s -> parse_iso_date s = Ok d ->
  visit_release_date rd = Ok ([], [d]).
Proof.
  intros (ty & Hget & Hty & Hrel) Hp. unfold visit_release_date.
  rewrite Hget. cbn [bind]. rewrite Hty, Hrel. cbn [bind Py.truthy].
  rewrite (parse_nonempty _ _ Hp). cbn [negb parse_iso_date_val].
  rewrite Hp. reflexivity.
Qed.

Lemma collect_theatrical_dates rds ds :
  theatrical_dates rds ds -> collect_theatrical rds = Ok ([], ds).
Proof.
  induction 1 as [| rd rds ds Hn _ IH | rd s d rds ds Ht Hp _ IH];
    cbn [collect_theatrical].
  - reflexivity.
  - rewrite (visit_not_theatrical _ Hn), IH. reflexivity.
  - rewrite (visit_theatrical _ _ _ Ht Hp), IH. reflexivity.
Qed.

Lemma theatrical_dates_none rds :
  Forall not_theatrical rds -> theatrical_dates rds [].
Proof. induction 1; constructor; assumption. Qed.

Lemma theatrical_dates_app a b da db :
  theatrical_dates a da -> theatrical_dates b db ->
  theatrical_dates (a ++ b) (da ++ db).
Proof.
  induction 1; intros Hb; cbn [app]; [exact Hb | |].
  - apply td_skip; auto.
  - eapply td_take; eauto.
Qed.

(** The selector on a payload whose first GB entry lists parseable
    theatrical dates [ds] among entries of other types. *)
Lemma choose_on_dates payload rs gb rds ds today :
  Py.get payload "results" (Py.PList []) = Ok (Py.PList rs) ->
  first_gb rs gb ->
  Py.get gb "release_dates" (Py.PList []) = Ok (Py.PList rds) ->
  theatrical_dates rds ds ->
  choose_gb_theatrical_date payload today = Ok ([], pick ds today).
Proof.
  intros Hres Hgb Hrel Hds. rewrite choose_factor.
  rewrite (gb_release_dates_found _ _ _ _ Hres Hgb Hrel). cbn [bind].
  rewrite (collect_theatrical_dates _ _ Hds). reflexivity.
Qed.

Lemma pick_single d today :
  pick [d] today =
    (Some (isoformat d), Some (if leb today d then "upcoming" else "released")).
Proof.
  unfold pick. cbn [filter]. destruct (leb today d); reflexivity.
Qed.

Lemma bind_ok {A B} (r : result A) (k : A -> result B) b :
  bind r k = Ok b -> exists a, r = Ok a /\ k a = Ok b.
Proof. destruct r as [a|e]; cbn; [eauto | discriminate]. Qed.

Lemma visit_malformed rd :
  malformed rd = true -> visit_release_date rd = Ok ([diagnostic rd], []).
Proof.
  unfold malformed, visit_release_date, diagnostic.
  destruct (Py.get rd "type" Py.PNone) as [ty|e]; [|discriminate].
  cbn [bind]. destruct (Py.eq_int ty TMDB_RELEASE_TYPE_THEATRICAL); [|discriminate].
  cbn [andb].
  destruct (Py.get rd "release_date" Py.PNone) as [v|e]; [|discriminate].
  destruct v as [| | |s| |]; try discriminate.
  cbn [bind Py.truthy].
  destruct (negb (String.eqb s "")); [|discriminate]. cbn [andb parse_iso_date_val].
  destruct (parse_iso_date_result s) as [(d & E & _) | E]; rewrite E.
  - discriminate.
  - reflexivity.
Qed.

Lemma visit_valid rd w ds :
  visit_release_date rd = Ok (w, ds) -> Forall valid ds.
Proof.
  unfold visit_release_date.
  destruct (Py.get rd "type" Py.PNone) as [ty|e]; [|discriminate]. cbn [bind].
  destruct (Py.eq_int ty TMDB_RELEASE_TYPE_THEATRICAL);
    [|intros H; inversion H; constructor].
  destruct (Py.get rd "release_date" Py.PNone) as [v|e]; [|discriminate]. cbn [bind].
  destruct (Py.truthy v); [|intros H; inversion H; constructor].
  destruct v as [| | |s| |]; cbn [parse_iso_date_val]; try discriminate.
  - destruct (parse_iso_date s) as [d|e] eqn:E.
    + intros H; inversion H; subst. constructor; [|constructor].
      eapply parse_iso_date_valid; eassumption.
    + destruct e; intros H; inversion H; constructor.
  - intros H; inversion H; constructor.
Qed.

Lemma collect_valid rds : forall w ds,
  collect_theatrical rds = Ok (w, ds) -> Forall valid ds.
Proof.
  induction rds as [|rd rds IH]; intros w ds H; cbn [collect_theatrical] in H.
  - inversion H. constructor.
  - apply bind_ok in H as ([w1 d1] & Hv & H).
    apply bind_ok in H as ([w2 d2] & Hc & H).
    inversion H; subst. cbn [fst snd]. apply Forall_app. split.
    + eapply visit_valid; eassumption.
    + eapply IH; eassumption.
Qed.

(** Removing the malformed entries changes the error stream only. *)
Lemma collect_without_malformed rds : forall w' ds,
  collect_theatrical (filter (fun rd => negb (malformed rd)) rds) = Ok (w', ds) ->
  exists w,
    collect_theatrical rds = Ok (w, ds)
    /\ List.length w = (List.length w' + List.length (filter malformed rds))%nat
    /\ (forall rd, In rd rds -> malformed rd = true -> In (diagnostic rd) w)
    /\ (w' = [] -> w = map diagnostic (filter malformed rds)).
Proof.
  induction rds as [|rd rds IH]; intros w' ds H.
  - cbn in H. inversion H; subst. exists []. cbn.
    split; [reflexivity|]. split; [reflexivity|]. split; [intros rd []|auto].
  - cbn [filter] in *. destruct (malformed rd) eqn:EM; cbn [negb] in H.
    + destruct (IH _ _ H) as (w & Hc & Hl & Hin & Hex).
      exists (diagnostic rd :: w). cbn [collect_theatrical].
      rewrite (visit_malformed _ EM), Hc. cbn [bind fst snd app].
      split; [reflexivity|]. split; [cbn [List.length]; lia|]. split.
      * intros x [<- | Hx] Hm; [left; reflexivity | right; auto].
      * intros Hw. cbn [map]. f_equal. auto.
    + cbn [collect_theatrical] in H.
      apply bind_ok in H as ([w1 d1] & Hv & H).
      apply bind_ok in H as ([w2 d2] & Hc & H).
      inversion H; subst w' ds. cbn [fst snd] in *.
      destruct (IH _ _ Hc) as (w & Hc' & Hl & Hin & Hex).
      exists (w1 ++ w)%list. cbn [collect_theatrical].
      rewrite Hv, Hc'. cbn [bind fst snd].
      split; [reflexivity|]. split; [rewrite !length_app; lia|]. split.
      * intros x [<- | Hx] Hm; [congruence|]. apply in_or_app. right. auto.
      * intros Hw. apply app_eq_nil in Hw as [-> ->]. cbn [app]. auto.
Qed.

Lemma min_date_in l d : min_date l = Some d -> In d l.
Proof. intros H. apply min_date_is_min in H. apply H. Qed.

Lemma pick_cases ds today :
  pick ds today = (None, None)
  \/ exists d bucket, In d ds /\ pick ds today = (Some (isoformat d), Some bucket)
       /\ (bucket = "upcoming" \/ bucket = "released").
Proof.
  unfold pick.
  destruct (min_date (filter (fun d => leb today d) ds)) as [d|] eqn:E.
  - right. exists d, "upcoming". apply min_date_in, filter_In in E.
    split; [tauto|]. split; [reflexivity | left; reflexivity].
  - destruct (min_date ds) as [d|] eqn:E'.
    + right. exists d, "released". apply min_date_in in E'.
      split; [assumption|]. split; [reflexivity | right; reflexivity].
    + left. reflexivity.
Qed.

(** *** The claims on the date selector *)

(** C1. With exactly one theatrical entry in the first GB entry, and a
    release date that parses to [D], the selector returns [D] as "upcoming"
    when [D] is on or after the reference date [R] and as "released" when
    [D] is before [R]. *)
Theorem single_theatrical_date payload rs gb pre rd post s (D R : date) :
  Py.get payload "results" (Py.PList []) = Ok (Py.PList rs) ->
  first_gb rs gb ->
  Py.get gb "release_dates" (Py.PList []) = Ok (Py.PList (pre ++ rd :: post)) ->
  Forall not_theatrical pre -> Forall not_theatrical post ->
  theatrical_on rd s -> parse_iso_date s = Ok D ->
  (leb R D = true ->
   choose_gb_theatrical_date payload R
   = Ok ([], (Some (isoformat D), Some "upcoming")))
  /\ (ltb D R = true ->
      choose_gb_theatrical_date payload R
      = Ok ([], (Some (isoformat D), Some "released"))).
Proof.
  intros Hres Hgb Hrel Hpre Hpost Hrd Hp.
  assert (Hds : theatrical_dates (pre ++ rd :: post) ([] ++ D :: [])).
  { apply theatrical_dates_app; [apply theatrical_dates_none; exact Hpre|].
    eapply td_take; [exact Hrd | exact Hp | apply theatrical_dates_none; exact Hpost]. }
  cbn [app] in Hds.
  rewrite (choose_on_dates _ _ _ _ _ R Hres Hgb Hrel Hds), pick_single.
  split; intros H.
  - rewrite H. reflexivity.
  - rewrite ltb_negb_leb in H. apply negb_true_iff in H. rewrite H. reflexivity.
Qed.

(** C2. With several parseable theatrical dates, the selector returns the
    earliest of those on or after the reference date, as "upcoming", when
    there is one, and otherwise the earliest of all, as "released"; of two
    dates [D1 < D2] on or after the reference date it returns [D1]. *)
Theorem earliest_eligible_date payload rs gb rds ds (R : date) :
  Py.get payload "results" (Py.PList []) = Ok (Py.PList rs) ->
  first_gb rs gb ->
  Py.get gb "release_dates" (Py.PList []) = Ok (Py.PList rds) ->
  theatrical_dates rds ds ->
  choose_gb_theatrical_date payload R
  = Ok ([], match min_date (filter (fun d => leb R d) ds) with
            | Some d => (Some (isoformat d), Some "upcoming")
            | None =>
                match min_date ds with
                | Some d => (Some (isoformat d), Some "released")
                | None => (None, None)
                end
            end)
  /\ (forall D1 D2,
        ds = [D1; D2] \/ ds = [D2; D1] ->
        ltb D1 D2 = true -> leb R D1 = true -> leb R D2 = true ->
        choose_gb_theatrical_date payload R
        = Ok ([], (Some (isoformat D1), Some "upcoming"))).
Proof.
  intros Hres Hgb Hrel Hds.
  pose proof (choose_on_dates _ _ _ _ _ R Hres Hgb Hrel Hds) as H.
  split; [exact H|].
  intros D1 D2 Hcase Hlt H1 H2. rewrite H. unfold pick.
  assert (H12 : leb D1 D2 = true).
  { rewrite ltb_negb_leb in Hlt. apply negb_true_iff in Hlt.
    apply leb_false_flip. exact Hlt. }
  assert (H21 : leb D2 D1 = false).
  { rewrite ltb_negb_leb in Hlt. apply negb_true_iff in Hlt. exact Hlt. }
  destruct Hcase as [-> | ->]; cbn [filter]; rewrite H1, H2; cbn [min_date].
  - rewrite H12. reflexivity.
  - rewrite H21. reflexivity.
Qed.

(** C3. Without a GB entry in the results, or with a GB entry none of
    whose release dates is theatrical, the selector returns (None, None). *)
Theorem no_gb_or_no_theatrical payload rs (R : date) :
  Py.get payload "results" (Py.PList []) = Ok (Py.PList rs) ->
  (Forall (fun r => region_is r false) rs
   \/ exists gb rds,
        first_gb rs gb
        /\ Py.get gb "release_dates" (Py.PList []) = Ok (Py.PList rds)
        /\ Forall not_theatrical rds) ->
  choose_gb_theatrical_date payload R = Ok ([], (None, None)).
Proof.
  intros Hres [Hno | (gb & rds & Hgb & Hrel & Hnt)].
  - rewrite choose_factor, (gb_release_dates_absent _ _ Hres Hno). reflexivity.
  - rewrite (choose_on_dates _ _ _ _ [] R Hres Hgb Hrel
               (theatrical_dates_none _ Hnt)).
    reflexivity.
Qed.

(** C7. Theatrical entries whose date string does not parse do not make
    the selector fail: each one is skipped with one diagnostic on the error
    stream, and the result is the one computed from the payload without
    them. *)
Theorem malformed_dates_skipped payload payload' rds (R : date) w' sel :
  gb_release_dates payload = Ok (Some rds) ->
  gb_release_dates payload'
  = Ok (Some (filter (fun rd => negb (malformed rd)) rds)) ->
  choose_gb_theatrical_date payload' R = Ok (w', sel) ->
  exists w,
    choose_gb_theatrical_date payload R = Ok (w, sel)
    /\ List.length w = (List.length w' + List.length (filter malformed rds))%nat
    /\ (forall rd, In rd rds -> malformed rd = true -> In (diagnostic rd) w)
    /\ (w' = [] -> w = map diagnostic (filter malformed rds)).
Proof.
  intros Hp Hp' Hc. rewrite choose_factor, Hp' in Hc. cbn [bind] in Hc.
  apply bind_ok in Hc as ([w0 ds] & Hcol & Hc). cbn [fst snd] in Hc.
  inversion Hc; subst w0 sel.
  destruct (collect_without_malformed _ _ _ Hcol) as (w & Hc' & Hl & Hin & Hex).
  exists w. rewrite choose_factor, Hp. cbn [bind]. rewrite Hc'. cbn [bind fst snd].
  auto.
Qed.

Lemma selection_shape payload (R : date) w sel :
  choose_gb_theatrical_date payload R = Ok (w, sel) ->
  sel = (None, None)
  \/ exists d bucket,
       valid d
       /\ sel = (Some (isoformat d), Some bucket)
       /\ (bucket = "upcoming" \/ bucket = "released").
Proof.
  intros H. rewrite choose_factor in H.
  apply bind_ok in H as (x & Hx & H). destruct x as [rds|].
  - apply bind_ok in H as ([w0 ds] & Hcol & H). cbn [fst snd] in H.
    inversion H; subst w0 sel.
    destruct (pick_cases ds R) as [E | (d & bucket & Hin & E & Hb)]; [left; exact E|].
    right. exists d, bucket.
    assert (Hv : valid d).
    { pose proof (collect_valid _ _ _ Hcol) as HV.
      rewrite Forall_forall in HV. apply HV. exact Hin. }
    auto.
  - inversion H. left. reflexivity.
Qed.

(** C10. The pair returned by the selector is never half empty: it is
    (None, None), or the text YYYY-MM-DD of a calendar date with one of the
    buckets "upcoming" and "released". *)
Theorem selection_never_partial payload (R : date) w sel :
  choose_gb_theatrical_date payload R = Ok (w, sel) ->
  sel = (None, None)
  \/ exists d bucket,
       valid d
       /\ sel = (Some (isoformat d), Some bucket)
       /\ (bucket = "upcoming" \/ bucket = "released")
       /\ Format.iso_date_shape (isoformat d) = true.
Proof.
  intros H. destruct (selection_shape _ _ _ _ H) as [E | (d & b & Hv & E & Hb)].
  - left. exact E.
  - right. exists d, b. split; [exact Hv|]. split; [exact E|]. split; [exact Hb|].
    apply FormatFacts.isoformat_shape. exact Hv.
Qed.

(** *** The claims at the payloads of the test suite *)

Lemma region_is_gb code rds : region_is (Examples.region code rds) (String.eqb code "GB").
Proof. exists (Py.PStr code). split; reflexivity. Qed.

Lemma entry_not_theatrical ty s :
  (ty =? 3) = false -> not_theatrical (Examples.entry ty s).
Proof. intros H. exists (Py.PInt ty). split; [reflexivity | exact H]. Qed.

Lemma entry_theatrical s : theatrical_on (Examples.entry 3 s) s.
Proof. exists (Py.PInt 3). repeat split; reflexivity. Qed.

Lemma single_theatrical_date_witness :
  choose_gb_theatrical_date (Examples.payload [Examples.gb_single]) Examples.today
  = Ok ([], (Some (isoformat (mkdate 2026 4 17)), Some "upcoming")).
Proof.
  apply (single_theatrical_date
           (Examples.payload [Examples.gb_single]) [Examples.gb_single]
           Examples.gb_single [] (Examples.entry 3 Examples.date_text) []
           Examples.date_text (mkdate 2026 4 17) Examples.today).
  - reflexivity.
  - apply first_gb_here, (region_is_gb "GB").
  - reflexivity.
  - constructor.
  - constructor.
  - apply entry_theatrical.
  - vm_compute. reflexivity.
  - vm_compute. reflexivity.
Defined.

Lemma earliest_eligible_date_witness :
  choose_gb_theatrical_date
    (Examples.payload [Examples.us_single; Examples.gb_three]) Examples.today
  = Ok ([], (Some (isoformat (mkdate 2026 4 17)), Some "upcoming")).
Proof.
  assert (Hds : theatrical_dates
                  [Examples.entry 3 "2026-05-01T00:00:00.000Z";
                   Examples.entry 4 "2026-03-01T00:00:00.000Z";
                   Examples.entry 3 Examples.date_text]
                  [mkdate 2026 5 1; mkdate 2026 4 17]).
  { apply (td_take _ "2026-05-01T00:00:00.000Z" (mkdate 2026 5 1));
      [apply entry_theatrical | vm_compute; reflexivity |].
    apply td_skip; [apply entry_not_theatrical; reflexivity|].
    apply (td_take _ Examples.date_text (mkdate 2026 4 17));
      [apply entry_theatrical | vm_compute; reflexivity | apply td_nil]. }
  apply (proj2 (earliest_eligible_date
                  (Examples.payload [Examples.us_single; Examples.gb_three])
                  [Examples.us_single; Examples.gb_three] Examples.gb_three
                  _ _ Examples.today
                  eq_refl
                  (first_gb_later _ _ _ (region_is_gb "US" _)
                     (first_gb_here _ [] (region_is_gb "GB" _)))
                  eq_refl Hds)
           (mkdate 2026 4 17) (mkdate 2026 5 1)).
  - right. reflexivity.
  - vm_compute. reflexivity.
  - vm_compute. reflexivity.
  - vm_compute. reflexivity.
Defined.

Lemma no_gb_or_no_theatrical_witness :
  choose_gb_theatrical_date (Examples.payload [Examples.us_single]) Examples.today
  = Ok ([], (None, None))
  /\ choose_gb_theatrical_date (Examples.payload [Examples.gb_digital]) Examples.today
     = Ok ([], (None, None)).
Proof.
  split.
  - apply (no_gb_or_no_theatrical (Examples.payload [Examples.us_single])
             [Examples.us_single] Examples.today eq_refl).
    left. constructor; [apply (region_is_gb "US") | constructor].
  - apply (no_gb_or_no_theatrical (Examples.payload [Examples.gb_digital])
             [Examples.gb_digital] Examples.today eq_refl).
    right. exists Examples.gb_digital, [Examples.entry 4 Examples.date_text].
    split; [apply first_gb_here, (region_is_gb "GB")|].
    split; [reflexivity|].
    constructor; [apply entry_not_theatrical; reflexivity | constructor].
Defined.

Lemma malformed_dates_skipped_witness :
  exists w,
    choose_gb_theatrical_date
      (Examples.payload [Examples.region "GB" Examples.with_malformed])
      Examples.today
    = Ok (w, (Some "2026-04-17", Some "upcoming"))
    /\ w = [CouldNotParse (Py.PStr "not a date")].
Proof.
  destruct (malformed_dates_skipped
              (Examples.payload [Examples.region "GB" Examples.with_malformed])
              (Examples.payload [Examples.region "GB" Examples.without_malformed])
              Examples.with_malformed
              Examples.today [] (Some "2026-04-17", Some "upcoming")
              eq_refl
              ltac:(vm_compute; reflexivity)
              ltac:(vm_compute; reflexivity))
    as (w & Hc & _ & _ & Hw).
  exists w. split; [exact Hc|]. rewrite (Hw eq_refl). vm_compute. reflexivity.
Defined.

Lemma selection_never_partial_witness :
  (Some "2026-04-17", Some "released") = (None, None)
  \/ exists d bucket,
       valid d
       /\ (Some "2026-04-17", Some "released") = (Some (isoformat d), Some bucket)
       /\ (bucket = "upcoming" \/ bucket = "released")
       /\ Format.iso_date_shape (isoformat d) = true.
Proof.
  apply (selection_never_partial (Examples.payload [Examples.gb_single])
           (mkdate 2026 5 1) []).
  vm_compute. reflexivity.
Defined.

End SelectorFacts.

Module CalendarFacts.
Import Datetime MultiUserUpdate Calendar StringFacts.

(** *** Escaping *)

Lemma ics_escape_cons c r :
  ics_escape (String c r) = (escape_char c ++ ics_escape r)%string.
Proof.
  unfold ics_escape, escape_char. cbn [Py.replace_char].
  destruct (Ascii.eqb_spec c "\") as [-> | N1]; [reflexivity|].
  cbn [Py.replace_char].
  destruct (Ascii.eqb_spec c ";") as [-> | N2]; [reflexivity|].
  cbn [Py.replace_char].
  destruct (Ascii.eqb_spec c ",") as [-> | N3]; [reflexivity|].
  cbn [Py.replace_char].
  destruct (Ascii.eqb_spec c "010") as [-> | N4]; reflexivity.
Qed.

(** The four replacements in a row escape each character on its own. *)
Lemma ics_escape_spec s : ics_escape s = escape_text s.
Proof.
  induction s as [|c r IH]; [reflexivity|].
  rewrite ics_escape_cons. cbn [escape_text]. now rewrite IH.
Qed.

Lemma escape_text_app a b :
  escape_text (a ++ b) = (escape_text a ++ escape_text b)%string.
Proof.
  induction a as [|c a IH]; cbn [append escape_text]; [reflexivity|].
  rewrite IH, app_assoc. reflexivity.
Qed.

Lemma escape_char_cases c :
  (c = "\"%char /\ escape_char c = "\\")
  \/ (c = ";"%char /\ escape_char c = "\;")
  \/ (c = ","%char /\ escape_char c = "\,")
  \/ (c = "010"%char /\ escape_char c = "\n")
  \/ (c <> "\"%char /\ escape_char c = String c "").
Proof.
  unfold escape_char.
  destruct (Ascii.eqb_spec c "\") as [-> | N1]; [left; auto|].
  destruct (Ascii.eqb_spec c ";") as [-> | N2]; [right; left; auto|].
  destruct (Ascii.eqb_spec c ",") as [-> | N3]; [right; right; left; auto|].
  destruct (Ascii.eqb_spec c "010") as [-> | N4]; [right; right; right; left; auto|].
  right; right; right; right. auto.
Qed.

Lemma escape_char_length c : (1 <= String.length (escape_char c))%nat.
Proof.
  destruct (escape_char_cases c) as [[_ E] | [[_ E] | [[_ E] | [[_ E] | [_ E]]]]];
    rewrite E; cbn; lia.
Qed.

Lemma escape_text_length s : (String.length s <= String.length (escape_text s))%nat.
Proof.
  induction s as [|c r IH]; cbn [escape_text String.length]; [lia|].
  rewrite app_length. pose proof (escape_char_length c). lia.
Qed.

(** Escaping loses nothing: different texts have different escapes. *)
Lemma escape_text_inj a : forall b, escape_text a = escape_text b -> a = b.
Proof.
  induction a as [|c a IH]; intros [|c' b] H; cbn [escape_text] in H.
  - reflexivity.
  - exfalso. apply (f_equal String.length) in H. rewrite app_length in H.
    pose proof (escape_char_length c'). cbn in H. lia.
  - exfalso. apply (f_equal String.length) in H. rewrite app_length in H.
    pose proof (escape_char_length c). cbn in H. lia.
  - destruct (escape_char_cases c) as [[-> E] | [[-> E] | [[-> E] | [[-> E] | [N E]]]]];
    destruct (escape_char_cases c') as [[-> E'] | [[-> E'] | [[-> E'] | [[-> E'] | [N' E']]]]];
    rewrite ?E, ?E' in H; cbn [append] in H; inversion H; subst;
      try congruence; f_equal; auto.
Qed.

Lemma ics_escape_inj a b : ics_escape a = ics_escape b -> a = b.
Proof. rewrite !ics_escape_spec. apply escape_text_inj. Qed.

(** *** Lines and documents *)

Lemma concat_lines_app a b :
  concat_lines (a ++ b) = (concat_lines a ++ concat_lines b)%string.
Proof.
  induction a as [|l a IH]; cbn [app concat_lines]; [reflexivity|].
  rewrite IH, !app_assoc. reflexivity.
Qed.

Lemma concat_lines_length ls : String.length (concat_lines ls) = total_len ls.
Proof.
  induction ls as [|l ls IH]; cbn [concat_lines total_len]; [reflexivity|].
  rewrite !app_length, IH. change (String.length NL) with 1%nat. lia.
Qed.

Lemma total_len_app a b : total_len (a ++ b) = (total_len a + total_len b)%nat.
Proof. induction a as [|l a IH]; cbn [app total_len]; lia. Qed.

Lemma join_concat_lines ls :
  ls <> [] -> (Py.join NL ls ++ NL)%string = concat_lines ls.
Proof.
  induction ls as [|l ls IH]; intros Hne; [congruence|].
  destruct ls as [|l' ls].
  - cbn [Py.join concat_lines]. rewrite app_nil_r. reflexivity.
  - change (Py.join NL (l :: l' :: ls)) with (l ++ NL ++ Py.join NL (l' :: ls))%string.
    cbn [concat_lines] in *. rewrite !app_assoc. rewrite IH by discriminate.
    reflexivity.
Qed.

Lemma Ok_inj {A} (a b : A) : Ok a = Ok b -> a = b.
Proof. intros H. congruence. Qed.

(** The document is the header, the events and the closing line. *)
Lemma build_document movies ts u doc :
  build_ics_events movies ts u = Ok doc ->
  exists evs,
    events ts u movies = Ok evs
    /\ doc = concat_lines (header u ++ evs ++ ["END:VCALENDAR"]).
Proof.
  unfold build_ics_events. destruct (events ts u movies) as [evs|e]; [|discriminate].
  cbn [bind]. intros H. exists evs. split; [reflexivity|].
  apply Ok_inj in H. rewrite <- H. apply join_concat_lines. discriminate.
Qed.

Lemma event_lines_eq ts u m :
  event_lines ts u m =
    (start <- parse_ymd (release_date m) ;;
     stop <- add_days start 1 ;;
     Ok (event_of ts u m start stop)).
Proof. reflexivity. Qed.

(** Every movie of the list has its event in the lines of the events. *)
Lemma events_in ts u movies : forall evs m,
  events ts u movies = Ok evs -> In m movies ->
  exists start stop,
    parse_ymd (release_date m) = Ok start /\ add_days start 1 = Ok stop
    /\ incl (event_of ts u m start stop) evs.
Proof.
  induction movies as [|m0 movies IH]; intros evs m H Hin; [destruct Hin|].
  cbn [events] in H. rewrite event_lines_eq in H.
  destruct (parse_ymd (release_date m0)) as [start|e] eqn:E1; [|discriminate].
  cbn [bind] in H.
  destruct (add_days start 1) as [stop|e] eqn:E2; [|discriminate].
  cbn [bind] in H.
  destruct (events ts u movies) as [rs|e] eqn:E3; [|discriminate].
  cbn [bind] in H. apply Ok_inj in H. subst evs.
  destruct Hin as [<- | Hin].
  - exists start, stop. split; [exact E1|]. split; [exact E2|].
    apply incl_appl, incl_refl.
  - destruct (IH rs m eq_refl Hin) as (st & sp & P1 & P2 & P3).
    exists st, sp. split; [exact P1|]. split; [exact P2|].
    apply incl_appr. exact P3.
Qed.

(** *** Dates of an event *)

Lemma fits_int_small z : 0 <= z <= 9999 -> fits_int z = true.
Proof.
  intros H. unfold fits_int. apply andb_true_iff. rewrite !Z.leb_le. lia.
Qed.

(** The release date written by [isoformat] is read back by the builder. *)
Lemma parse_ymd_isoformat d : valid d -> parse_ymd (isoformat d) = Ok d.
Proof.
  intros Hv. destruct (FormatFacts.valid_fields d Hv) as (Hy & Hm & Hd).
  destruct (FormatFacts.fmt4 _ Hy) as (_ & VA & IA).
  destruct (FormatFacts.fmt2 _ Hm) as (_ & VB & IB).
  destruct (FormatFacts.fmt2 _ Hd) as (_ & VC & IC).
  unfold parse_ymd, isoformat. cbn [append].
  rewrite (FormatFacts.split_digits _ _ _ _ VA),
    (FormatFacts.split_digits _ _ _ _ VB),
    (FormatFacts.split_digits_last _ _ _ VC).
  rewrite IA, IB, IC. cbn [bind]. unfold date_call.
  rewrite !fits_int_small by lia. cbn [andb].
  apply FormatFacts.date_new_valid. exact Hv.
Qed.

Lemma event_lines_valid ts u m d :
  valid d -> d <> mkdate 9999 12 31 -> release_date m = isoformat d ->
  event_lines ts u m = Ok (event_of ts u m d (next_day d)).
Proof.
  intros Hv Hne Hr. rewrite event_lines_eq, Hr, (parse_ymd_isoformat d Hv).
  cbn [bind]. rewrite (DatetimeFacts.add_days_one d Hv Hne). reflexivity.
Qed.

(** *** Lengths of documents for two users *)

Lemma uid_length_ext m u w :
  String.length (ics_escape (uid_of m (u ++ w)))
  = (String.length (ics_escape (uid_of m u)) + String.length (escape_text w))%nat.
Proof.
  rewrite !ics_escape_spec. unfold uid_of.
  rewrite !escape_text_app, !app_length. lia.
Qed.

Lemma event_of_length_ext ts m u w start stop :
  total_len (event_of ts (u ++ w) m start stop)
  = (total_len (event_of ts u m start stop) + String.length (escape_text w))%nat.
Proof.
  unfold event_of. cbn [total_len]. rewrite !app_length, uid_length_ext. lia.
Qed.

Lemma events_length_ext ts u w movies : forall e1 e2,
  events ts u movies = Ok e1 -> events ts (u ++ w) movies = Ok e2 ->
  total_len e2
  = (total_len e1 + List.length movies * String.length (escape_text w))%nat.
Proof.
  induction movies as [|m movies IH]; intros e1 e2 H1 H2.
  - cbn in H1, H2. apply Ok_inj in H1, H2. subst. reflexivity.
  - cbn [events] in H1, H2. rewrite event_lines_eq in H1, H2.
    destruct (parse_ymd (release_date m)) as [start|e]; [|discriminate].
    cbn [bind] in H1, H2.
    destruct (add_days start 1) as [stop|e]; [|discriminate].
    cbn [bind] in H1, H2.
    destruct (events ts u movies) as [r1|e]; [|discriminate].
    destruct (events ts (u ++ w) movies) as [r2|e]; [|discriminate].
    cbn [bind] in H1, H2. apply Ok_inj in H1, H2. subst e1 e2.
    rewrite !total_len_app, event_of_length_ext, (IH r1 r2 eq_refl eq_refl).
    cbn [List.length]. lia.
Qed.

Lemma header_length_ext u w :
  total_len (header (u ++ w)) = (total_len (header u) + 3 * String.length w)%nat.
Proof.
  unfold header. cbn [total_len]. rewrite !app_length. lia.
Qed.

Lemma document_length_ext movies ts u w d1 d2 :
  build_ics_events movies ts u = Ok d1 ->
  build_ics_events movies ts (u ++ w) = Ok d2 ->
  String.length d2
  = (String.length d1 + 3 * String.length w
     + List.length movies * String.length (escape_text w))%nat.
Proof.
  intros H1 H2.
  apply build_document in H1 as (e1 & E1 & ->).
  apply build_document in H2 as (e2 & E2 & ->).
  rewrite !concat_lines_length, !total_len_app, header_length_ext.
  rewrite (events_length_ext _ _ _ _ _ _ E1 E2). lia.
Qed.


Lemma document_prefix u rest :
  exists x, concat_lines (header u ++ rest) = (preamble ++ (u ++ x))%string.
Proof.
  unfold header. cbn [app concat_lines]. rewrite !app_assoc.
  eexists. unfold preamble. rewrite !app_assoc. reflexivity.
Qed.

Lemma documents_differ_ext movies ts u w d1 d2 :
  build_ics_events movies ts u = Ok d1 ->
  build_ics_events movies ts (u ++ w) = Ok d2 ->
  d1 = d2 -> w = "".
Proof.
  intros H1 H2 E. pose proof (document_length_ext _ _ _ _ _ _ H1 H2) as HL.
  rewrite E in HL. destruct w; [reflexivity|]. cbn [String.length] in HL. lia.
Qed.

(** Documents built for two different users differ. *)
Lemma documents_differ movies ts u1 u2 d1 d2 :
  u1 <> u2 ->
  build_ics_events movies ts u1 = Ok d1 ->
  build_ics_events movies ts u2 = Ok d2 ->
  d1 <> d2.
Proof.
  intros Hne H1 H2 E.
  pose proof H1 as B1. pose proof H2 as B2.
  apply build_document in B1 as (e1 & _ & D1).
  apply build_document in B2 as (e2 & _ & D2).
  destruct (document_prefix u1 (e1 ++ ["END:VCALENDAR"])) as (x1 & P1).
  destruct (document_prefix u2 (e2 ++ ["END:VCALENDAR"])) as (x2 & P2).
  rewrite P1 in D1. rewrite P2 in D2.
  assert (EP : (u1 ++ x1 = u2 ++ x2)%string).
  { apply (app_inv_head preamble). congruence. }
  destruct (app_eq_prefix _ _ _ _ EP) as (w & [Hw | Hw]).
  - subst u2. pose proof (documents_differ_ext _ _ _ _ _ _ H1 H2 E) as ->.
    apply Hne. now rewrite app_nil_r.
  - subst u1. pose proof (documents_differ_ext _ _ _ _ _ _ H2 H1 (eq_sym E)) as ->.
    apply Hne. now rewrite app_nil_r.
Qed.

Lemma uid_of_inj m u1 u2 : uid_of m u1 = uid_of m u2 -> u1 = u2.
Proof.
  unfold uid_of. intros H.
  apply app_inv_head in H. apply app_inv_head in H. apply app_inv_head in H.
  apply app_inv_tail in H. exact H.
Qed.

Lemma uid_not_generic m u : uid_of m u <> generic_uid m.
Proof.
  unfold uid_of, generic_uid. intros H.
  apply app_inv_head in H. apply app_inv_head in H. discriminate.
Qed.

(** *** The claims on the calendar builder *)

(** C4. In every free-text field of an event (identifier, summary,
    description) each backslash, semicolon and comma gets a backslash before
    it and each newline becomes backslash-n; the title "Test; Movie, Part 2"
    gives the summary "Test\; Movie\, Part 2 (UK theatrical release)". *)
Theorem text_fields_escaped movies ts u doc m :
  build_ics_events movies ts u = Ok doc -> In m movies ->
  (forall s, ics_escape s = escape_text s)
  /\ (exists evs,
        doc = concat_lines (header u ++ evs ++ ["END:VCALENDAR"])
        /\ In ("UID:" ++ escape_text (uid_of m u))%string evs
        /\ In ("SUMMARY:" ++ escape_text (title m ++ " (UK theatrical release)"))%string evs
        /\ In ("DESCRIPTION:" ++ escape_text ("TMDb: " ++ tmdb_url m))%string evs)
  /\ ics_escape ("Test; Movie, Part 2" ++ " (UK theatrical release)")
     = "Test\; Movie\, Part 2 (UK theatrical release)".
Proof.
  intros Hb Hin. split; [exact ics_escape_spec|]. split; [|reflexivity].
  apply build_document in Hb as (evs & He & ->).
  destruct (events_in _ _ _ _ _ He Hin) as (start & stop & _ & _ & Hincl).
  exists evs. split; [reflexivity|].
  rewrite <- !ics_escape_spec.
  repeat split; apply Hincl; unfold event_of; cbn [In]; tauto.
Qed.

Lemma text_fields_escaped_witness :
  exists evs,
    build_ics_events [Examples.test_movie] Examples.dtstamp "alice"
    = Ok (concat_lines (header "alice" ++ evs ++ ["END:VCALENDAR"]))
    /\ In "SUMMARY:Test\; Movie\, Part 2 (UK theatrical release)" evs.
Proof.
  destruct (text_fields_escaped [Examples.test_movie] Examples.dtstamp "alice"
              _ Examples.test_movie
              ltac:(vm_compute; reflexivity) (or_introl eq_refl))
    as (_ & (evs & Hd & _ & Hs & _) & _).
  exists evs. split; [|exact Hs].
  rewrite <- Hd. vm_compute. reflexivity.
Defined.

(** C5, as the code has it. For a movie whose release date is a calendar
    date other than 9999-12-31, the event starts on that date and ends on
    the next calendar day, one day later; on 9999-12-31 no event is built. *)
Theorem event_end_is_next_day ts u m (d : date) :
  valid d -> d <> mkdate 9999 12 31 -> release_date m = isoformat d ->
  event_lines ts u m = Ok (event_of ts u m d (next_day d))
  /\ In ("DTSTART;VALUE=DATE:" ++ yyyymmdd d)%string (event_of ts u m d (next_day d))
  /\ In ("DTEND;VALUE=DATE:" ++ yyyymmdd (next_day d))%string
       (event_of ts u m d (next_day d))
  /\ valid (next_day d)
  /\ toordinal (next_day d) = toordinal d + 1.
Proof.
  intros Hv Hne Hr. split; [apply event_lines_valid; assumption|].
  split; [unfold event_of; cbn [In]; tauto|].
  split; [unfold event_of; cbn [In]; tauto|].
  split; [apply DatetimeFacts.next_day_valid; assumption|].
  destruct Hv as (Hy & Hm & Hd). unfold MINYEAR in Hy.
  apply DatetimeFacts.toordinal_next_day; try assumption; lia.
Qed.

Lemma valid_2026_04_30 : valid (mkdate 2026 4 30).
Proof. unfold valid, MINYEAR, MAXYEAR. cbn. lia. Qed.

Lemma event_end_is_next_day_witness :
  In "DTSTART;VALUE=DATE:20260430"
     (event_of Examples.dtstamp "alice" Examples.test_movie
        (mkdate 2026 4 30) (mkdate 2026 5 1))
  /\ In "DTEND;VALUE=DATE:20260501"
       (event_of Examples.dtstamp "alice" Examples.test_movie
          (mkdate 2026 4 30) (mkdate 2026 5 1)).
Proof.
  destruct (event_end_is_next_day Examples.dtstamp "alice" Examples.test_movie
              (mkdate 2026 4 30) valid_2026_04_30
              ltac:(discriminate) eq_refl) as (_ & H1 & H2 & _).
  split; [exact H1 | exact H2].
Defined.

(** The claim C5 fails on the last day of the calendar: the release date
    9999-12-31 is valid and the builder raises [OverflowError]. *)
Lemma event_end_counterexample :
  valid (mkdate 9999 12 31)
  /\ release_date Examples.last_day_movie = isoformat (mkdate 9999 12 31)
  /\ build_ics_events [Examples.last_day_movie] Examples.dtstamp "alice"
     = Raise OverflowError.
Proof.
  split; [unfold valid, MINYEAR, MAXYEAR; cbn; lia|].
  split; vm_compute; reflexivity.
Qed.

(** C8. Two documents built from the same movies and time stamp for two
    different user names differ, and so does the identifier of each event. *)
Theorem documents_differ_by_user movies ts u1 u2 doc1 doc2 :
  u1 <> u2 ->
  build_ics_events movies ts u1 = Ok doc1 ->
  build_ics_events movies ts u2 = Ok doc2 ->
  doc1 <> doc2
  /\ (exists evs1 evs2,
        doc1 = concat_lines (header u1 ++ evs1 ++ ["END:VCALENDAR"])
        /\ doc2 = concat_lines (header u2 ++ evs2 ++ ["END:VCALENDAR"])
        /\ forall m, In m movies ->
             In ("UID:" ++ ics_escape (uid_of m u1))%string evs1
             /\ In ("UID:" ++ ics_escape (uid_of m u2))%string evs2
             /\ ("UID:" ++ ics_escape (uid_of m u1))%string
                <> ("UID:" ++ ics_escape (uid_of m u2))%string).
Proof.
  intros Hne H1 H2. split; [eapply documents_differ; eassumption|].
  apply build_document in H1 as (e1 & E1 & ->).
  apply build_document in H2 as (e2 & E2 & ->).
  exists e1, e2. split; [reflexivity|]. split; [reflexivity|].
  intros m Hin.
  destruct (events_in _ _ _ _ _ E1 Hin) as (s1 & t1 & _ & _ & I1).
  destruct (events_in _ _ _ _ _ E2 Hin) as (s2 & t2 & _ & _ & I2).
  split; [apply I1; unfold event_of; cbn [In]; tauto|].
  split; [apply I2; unfold event_of; cbn [In]; tauto|].
  intros E. apply Hne. apply (uid_of_inj m). apply ics_escape_inj.
  apply (app_inv_head "UID:"). exact E.
Qed.

Lemma documents_differ_by_user_witness :
  exists doc1 doc2,
    build_ics_events [Examples.test_movie] Examples.dtstamp "alice" = Ok doc1
    /\ build_ics_events [Examples.test_movie] Examples.dtstamp "bob" = Ok doc2
    /\ doc1 <> doc2.
Proof.
  eexists. eexists. split; [vm_compute; reflexivity|].
  split; [vm_compute; reflexivity|].
  refine (proj1 (documents_differ_by_user [Examples.test_movie] Examples.dtstamp
                   "alice" "bob" _ _ ltac:(discriminate) _ _)).
  - vm_compute. reflexivity.
  - vm_compute. reflexivity.
Defined.

(** The claim C9 fails: without a user name the call raises [TypeError]
    and builds no document. *)
Lemma optional_user_counterexample :
  ~ exists doc,
      call_build_ics_events [Examples.test_movie] Examples.dtstamp None = Ok doc.
Proof. intros (doc & H). discriminate. Qed.

(** C9, as the code has it. The user name is a required parameter: a
    call without it raises [TypeError], and with a user name [u] the
    identifier of every event is "tmdb-<id>-<u>@film-release-tracker",
    never the identifier without a user segment. *)
Theorem user_name_required movies ts u doc m :
  call_build_ics_events movies ts (Some u) = Ok doc -> In m movies ->
  call_build_ics_events movies ts None = Raise TypeError
  /\ (exists evs,
        doc = concat_lines (header u ++ evs ++ ["END:VCALENDAR"])
        /\ In ("UID:" ++ ics_escape
                 ("tmdb-" ++ Py.str_of_Z (tmdb_id m) ++ "-" ++ u
                  ++ "@film-release-tracker"))%string evs)
  /\ ("tmdb-" ++ Py.str_of_Z (tmdb_id m) ++ "-" ++ u ++ "@film-release-tracker")%string
     <> ("tmdb-" ++ Py.str_of_Z (tmdb_id m) ++ "@film-release-tracker")%string.
Proof.
  intros Hb Hin. cbn [call_build_ics_events] in Hb.
  split; [reflexivity|]. split; [|apply (uid_not_generic m u)].
  apply build_document in Hb as (evs & He & ->).
  destruct (events_in _ _ _ _ _ He Hin) as (start & stop & _ & _ & Hincl).
  exists evs. split; [reflexivity|].
  apply Hincl. unfold event_of, uid_of. cbn [In]. tauto.
Qed.

Lemma user_name_required_witness :
  exists evs,
    build_ics_events [Examples.test_movie] Examples.dtstamp "alice"
    = Ok (concat_lines (header "alice" ++ evs ++ ["END:VCALENDAR"]))
    /\ In "UID:tmdb-123-alice@film-release-tracker" evs.
Proof.
  destruct (user_name_required [Examples.test_movie] Examples.dtstamp "alice"
              _ Examples.test_movie
              ltac:(vm_compute; reflexivity) (or_introl eq_refl))
    as (_ & (evs & Hd & Hu) & _).
  exists evs. split; [rewrite <- Hd; vm_compute; reflexivity|].
  exact Hu.
Defined.

End CalendarFacts.

(** ** More on the date selector *)

Module SelectorMore.
Import Datetime MultiUserUpdate Selection SelectionFacts ParseFacts SelectorFacts.

(** What a returning call has gone through. *)
Lemma choose_ok payload today w sel :
  choose_gb_theatrical_date payload today = Ok (w, sel) ->
  (gb_release_dates payload = Ok None /\ w = [] /\ sel = (None, None))
  \/ exists rds ds,
       gb_release_dates payload = Ok (Some rds)
       /\ collect_theatrical rds = Ok (w, ds)
       /\ sel = pick ds today.
Proof.
  intros H. rewrite choose_factor in H.
  apply bind_ok in H as (x & Hx & H). destruct x as [rds|].
  - apply bind_ok in H as ([w0 ds] & Hc & H). cbn [fst snd] in H.
    inversion H; subst. right. exists rds, ds. auto.
  - inversion H; subst. left. auto.
Qed.

Lemma pick_upcoming ds today s :
  pick ds today = (Some s, Some "upcoming") ->
  exists d, is_min d (filter (fun x => leb today x) ds) /\ s = isoformat d.
Proof.
  unfold pick.
  destruct (min_date (filter (fun x => leb today x) ds)) as [d|] eqn:E.
  - intros H. inversion H. exists d. split; [apply min_date_is_min; exact E | reflexivity].
  - destruct (min_date ds); intros H; inversion H.
Qed.

Lemma pick_released ds today s :
  pick ds today = (Some s, Some "released") ->
  filter (fun x => leb today x) ds = []
  /\ exists d, is_min d ds /\ s = isoformat d.
Proof.
  unfold pick.
  destruct (min_date (filter (fun x => leb today x) ds)) as [d|] eqn:E.
  - intros H. inversion H.
  - apply min_date_none in E. destruct (min_date ds) as [d|] eqn:E'.
    + intros H. inversion H. split; [exact E|].
      exists d. split; [apply min_date_is_min; exact E' | reflexivity].
    + intros H. inversion H.
Qed.

Lemma filter_nil_all (p : date -> bool) l :
  filter p l = [] -> forall x, In x l -> p x = false.
Proof.
  induction l as [|y l IH]; intros H x Hx; [destruct Hx|].
  cbn [filter] in H. destruct (p y) eqn:E; [discriminate|].
  destruct Hx as [<- | Hx]; [exact E | apply IH; assumption].
Qed.

Lemma pick_bucket ds today cd bucket :
  pick ds today = (cd, bucket) ->
  (bucket = Some "upcoming"
   /\ exists d, In d ds /\ leb today d = true /\ cd = Some (isoformat d))
  \/ (bucket = Some "released"
      /\ exists d, In d ds /\ ltb d today = true /\ cd = Some (isoformat d))
  \/ (bucket = None /\ cd = None).
Proof.
  unfold pick.
  destruct (min_date (filter (fun x => leb today x) ds)) as [d|] eqn:E.
  - intros H. inversion H; subst. left. split; [reflexivity|].
    apply min_date_in, filter_In in E. exists d. tauto.
  - apply min_date_none in E. destruct (min_date ds) as [d|] eqn:E'.
    + intros H. inversion H; subst. right. left. split; [reflexivity|].
      apply min_date_in in E'. exists d. split; [exact E'|]. split; [|reflexivity].
      rewrite ltb_negb_leb, (filter_nil_all _ _ E d E'). reflexivity.
    + intros H. inversion H; subst. right. right. auto.
Qed.

(** The buckets of a returning call and the dates that go with them. *)
Lemma choose_bucket payload today w cd bucket :
  choose_gb_theatrical_date payload today = Ok (w, (cd, bucket)) ->
  (bucket = Some "upcoming"
   /\ exists d, valid d /\ leb today d = true /\ cd = Some (isoformat d))
  \/ (bucket = Some "released"
      /\ exists d, valid d /\ ltb d today = true /\ cd = Some (isoformat d))
  \/ (bucket = None /\ cd = None).
Proof.
  intros H. apply choose_ok in H as [(_ & _ & E) | (rds & ds & Hg & Hc & E)].
  - inversion E. right. right. auto.
  - symmetry in E. pose proof (collect_valid _ _ _ Hc) as HV.
    rewrite Forall_forall in HV.
    apply pick_bucket in E
      as [(-> & d & Hin & Hd & ->) | [(-> & d & Hin & Hd & ->) | (-> & ->)]].
    + left. split; [reflexivity|]. exists d. auto.
    + right. left. split; [reflexivity|]. exists d. auto.
    + right. right. auto.
Qed.

(** X2. A date is returned as "released" only when every theatrical date
    collected from the GB entry is before the reference date; the date
    returned is then the earliest of them. *)
Theorem released_means_all_past payload today w s :
  choose_gb_theatrical_date payload today = Ok (w, (Some s, Some "released")) ->
  exists rds ds d,
    gb_release_dates payload = Ok (Some rds)
    /\ collect_theatrical rds = Ok (w, ds)
    /\ (forall x, In x ds -> ltb x today = true)
    /\ In d ds /\ (forall x, In x ds -> leb d x = true)
    /\ s = isoformat d.
Proof.
  intros H. apply choose_ok in H as [(_ & _ & E) | (rds & ds & Hg & Hc & E)];
    [discriminate|].
  symmetry in E. apply pick_released in E as (Hnil & d & [Hin Hmin] & ->).
  exists rds, ds, d. repeat split; auto.
  intros x Hx. rewrite ltb_negb_leb.
  rewrite (filter_nil_all _ _ Hnil x Hx). reflexivity.
Qed.

Lemma released_means_all_past_witness :
  exists rds ds d,
    gb_release_dates (Examples.payload [Examples.gb_single]) = Ok (Some rds)
    /\ collect_theatrical rds = Ok ([], ds)
    /\ (forall x, In x ds -> ltb x (mkdate 2026 5 1) = true)
    /\ In d ds /\ (forall x, In x ds -> leb d x = true)
    /\ "2026-04-17" = isoformat d.
Proof.
  apply (released_means_all_past (Examples.payload [Examples.gb_single])
           (mkdate 2026 5 1) [] "2026-04-17").
  vm_compute. reflexivity.
Defined.

(** X3. A date is returned as "upcoming" only when it is on or after the
    reference date, and it is the earliest such date among the theatrical
    dates collected from the GB entry. *)
Theorem upcoming_means_earliest_future payload today w s :
  choose_gb_theatrical_date payload today = Ok (w, (Some s, Some "upcoming")) ->
  exists rds ds d,
    gb_release_dates payload = Ok (Some rds)
    /\ collect_theatrical rds = Ok (w, ds)
    /\ In d ds /\ leb today d = true
    /\ (forall x, In x ds -> leb today x = true -> leb d x = true)
    /\ s = isoformat d.
Proof.
  intros H. apply choose_ok in H as [(_ & _ & E) | (rds & ds & Hg & Hc & E)];
    [discriminate|].
  symmetry in E. apply pick_upcoming in E as (d & [Hin Hmin] & ->).
  apply filter_In in Hin as [Hin Hle].
  exists rds, ds, d. repeat split; auto.
  intros x Hx Hrx. apply Hmin. apply filter_In. auto.
Qed.

Lemma upcoming_means_earliest_future_witness :
  exists rds ds d,
    gb_release_dates (Examples.payload [Examples.gb_three]) = Ok (Some rds)
    /\ collect_theatrical rds = Ok ([], ds)
    /\ In d ds /\ leb Examples.today d = true
    /\ (forall x, In x ds -> leb Examples.today x = true -> leb d x = true)
    /\ "2026-04-17" = isoformat d.
Proof.
  apply (upcoming_means_earliest_future (Examples.payload [Examples.gb_three])
           Examples.today [] "2026-04-17").
  vm_compute. reflexivity.
Defined.

(** X4. The scan stops at the first GB entry: what follows it in the results
    is never looked at. *)
Theorem entries_after_gb_ignored payload payload' pre gb post post' today :
  Py.get payload "results" (Py.PList []) = Ok (Py.PList (pre ++ gb :: post)) ->
  Py.get payload' "results" (Py.PList []) = Ok (Py.PList (pre ++ gb :: post')) ->
  Forall (fun r => region_is r false) pre -> region_is gb true ->
  choose_gb_theatrical_date payload today
  = choose_gb_theatrical_date payload' today.
Proof.
  intros H1 H2 Hpre Hgb.
  assert (F : forall rest, find_gb (pre ++ gb :: rest) = Ok gb).
  { intros rest. apply find_gb_first. clear H1 H2.
    induction Hpre as [|r pre Hr _ IH]; cbn [app].
    - apply first_gb_here. exact Hgb.
    - apply first_gb_later; assumption. }
  rewrite !choose_factor. unfold gb_release_dates.
  rewrite H1, H2. cbn [bind Py.iter]. rewrite !F. reflexivity.
Qed.

Lemma entries_after_gb_ignored_witness :
  choose_gb_theatrical_date
    (Examples.payload [Examples.us_single; Examples.gb_single; Py.PInt 7])
    Examples.today
  = choose_gb_theatrical_date
      (Examples.payload [Examples.us_single; Examples.gb_single; Examples.gb_three])
      Examples.today.
Proof.
  apply (entries_after_gb_ignored
           (Examples.payload [Examples.us_single; Examples.gb_single; Py.PInt 7])
           (Examples.payload
              [Examples.us_single; Examples.gb_single; Examples.gb_three])
           [Examples.us_single] Examples.gb_single
           [Py.PInt 7] [Examples.gb_three] Examples.today eq_refl eq_refl).
  - constructor; [apply (region_is_gb "US") | constructor].
  - apply (region_is_gb "GB").
Defined.

(** *** The order of the release dates *)

Lemma collect_cons rd rds w ds :
  collect_theatrical (rd :: rds) = Ok (w, ds) ->
  exists w1 d1 w2 d2,
    visit_release_date rd = Ok (w1, d1)
    /\ collect_theatrical rds = Ok (w2, d2)
    /\ w = (w1 ++ w2)%list /\ ds = (d1 ++ d2)%list.
Proof.
  cbn [collect_theatrical]. intros H.
  apply bind_ok in H as ([w1 d1] & Hv & H).
  apply bind_ok in H as ([w2 d2] & Hc & H).
  inversion H; subst. exists w1, d1, w2, d2. auto.
Qed.

Lemma collect_cons_ok rd rds w1 d1 w2 d2 :
  visit_release_date rd = Ok (w1, d1) ->
  collect_theatrical rds = Ok (w2, d2) ->
  collect_theatrical (rd :: rds) = Ok ((w1 ++ w2)%list, (d1 ++ d2)%list).
Proof.
  intros Hv Hc. cbn [collect_theatrical]. rewrite Hv, Hc. reflexivity.
Qed.

Lemma collect_perm rds rds' :
  Permutation rds rds' ->
  forall w ds, collect_theatrical rds = Ok (w, ds) ->
  exists w' ds',
    collect_theatrical rds' = Ok (w', ds')
    /\ Permutation w w' /\ Permutation ds ds'.
Proof.
  induction 1 as [| x l l' _ IH | x y l | l l' l'' _ IH1 _ IH2]; intros w ds H.
  - exists w, ds. auto.
  - apply collect_cons in H as (w1 & d1 & w2 & d2 & Hv & Hc & -> & ->).
    destruct (IH _ _ Hc) as (w' & ds' & Hc' & Pw & Pd).
    exists (w1 ++ w')%list, (d1 ++ ds')%list.
    split; [apply collect_cons_ok; assumption|].
    split; apply Permutation_app_head; assumption.
  - apply collect_cons in H as (w1 & d1 & w2 & d2 & Hv & Hc & -> & ->).
    apply collect_cons in Hc as (w3 & d3 & w4 & d4 & Hv' & Hc & -> & ->).
    exists (w3 ++ w1 ++ w4)%list, (d3 ++ d1 ++ d4)%list.
    split; [apply collect_cons_ok; [|apply collect_cons_ok]; assumption|].
    split; rewrite !List.app_assoc; apply Permutation_app_tail, Permutation_app_comm.
  - destruct (IH1 _ _ H) as (w' & ds' & Hc' & Pw & Pd).
    destruct (IH2 _ _ Hc') as (w'' & ds'' & Hc'' & Pw' & Pd').
    exists w'', ds''. split; [exact Hc''|].
    split; eapply perm_trans; eassumption.
Qed.

Lemma min_date_perm l l' : Permutation l l' -> min_date l = min_date l'.
Proof.
  intros HP. destruct (min_date l) as [d|] eqn:E, (min_date l') as [d'|] eqn:E'.
  - f_equal. apply (is_min_unique l').
    + apply (is_min_perm _ _ _ HP), min_date_is_min, E.
    + apply min_date_is_min, E'.
  - apply min_date_none in E'. subst l'. apply Permutation_sym, Permutation_nil in HP.
    subst l. discriminate.
  - apply min_date_none in E. subst l. apply Permutation_nil in HP.
    subst l'. discriminate.
  - reflexivity.
Qed.

Lemma pick_perm ds ds' today : Permutation ds ds' -> pick ds today = pick ds' today.
Proof.
  intros HP. unfold pick.
  rewrite (min_date_perm _ _ (filter_perm (fun d => leb today d) _ _ HP)).
  rewrite (min_date_perm _ _ HP). reflexivity.
Qed.

(** X5. The pair returned does not depend on the order of the release-date
    entries of the GB entry; the lines on the error stream are the same up
    to their order. *)
Theorem order_of_entries_irrelevant payload payload' rds rds' today w sel :
  gb_release_dates payload = Ok (Some rds) ->
  gb_release_dates payload' = Ok (Some rds') ->
  Permutation rds rds' ->
  choose_gb_theatrical_date payload today = Ok (w, sel) ->
  exists w',
    choose_gb_theatrical_date payload' today = Ok (w', sel) /\ Permutation w w'.
Proof.
  intros Hg Hg' HP H. rewrite choose_factor, Hg in H. cbn [bind] in H.
  apply bind_ok in H as ([w0 ds] & Hc & H). cbn [fst snd] in H.
  inversion H; subst w0 sel.
  destruct (collect_perm _ _ HP _ _ Hc) as (w' & ds' & Hc' & Pw & Pd).
  exists w'. split; [|exact Pw].
  rewrite choose_factor, Hg'. cbn [bind]. rewrite Hc'. cbn [bind fst snd].
  rewrite (pick_perm _ _ today Pd). reflexivity.
Qed.

Lemma order_of_entries_irrelevant_witness :
  exists w',
    choose_gb_theatrical_date
      (Examples.payload [Examples.region "GB" (rev Examples.with_malformed)])
      Examples.today
    = Ok (w', (Some "2026-04-17", Some "upcoming"))
    /\ Permutation [CouldNotParse (Py.PStr "not a date")] w'.
Proof.
  apply (order_of_entries_irrelevant
           (Examples.payload [Examples.region "GB" Examples.with_malformed])
           (Examples.payload [Examples.region "GB" (rev Examples.with_malformed)])
           Examples.with_malformed (rev Examples.with_malformed) Examples.today).
  - reflexivity.
  - reflexivity.
  - apply Permutation_rev.
  - vm_compute. reflexivity.
Defined.

(** X6. Once a title is "released" it stays so, with the same date, on every
    later reference date. *)
Theorem released_stays_released payload today later w s :
  choose_gb_theatrical_date payload today = Ok (w, (Some s, Some "released")) ->
  leb today later = true ->
  choose_gb_theatrical_date payload later = Ok (w, (Some s, Some "released")).
Proof.
  intros H Hle. apply choose_ok in H as [(_ & _ & E) | (rds & ds & Hg & Hc & E)];
    [discriminate|].
  rewrite choose_factor, Hg. cbn [bind]. rewrite Hc. cbn [bind fst snd].
  f_equal. f_equal. symmetry in E. pose proof E as E0.
  apply pick_released in E as (Hnil & _).
  assert (Hnil' : filter (fun x => leb later x) ds = []).
  { pose proof (filter_nil_all _ _ Hnil) as Hall.
    clear - Hall Hle. induction ds as [|x ds IH]; [reflexivity|].
    cbn [filter]. destruct (leb later x) eqn:Ex.
    - assert (leb today x = true) by (eapply leb_trans; eassumption).
      rewrite (Hall x (or_introl eq_refl)) in H. discriminate.
    - apply IH. intros y Hy. apply Hall. right. exact Hy. }
  unfold pick in *. rewrite Hnil in E0. rewrite Hnil'. exact E0.
Qed.

Lemma released_stays_released_witness :
  choose_gb_theatrical_date (Examples.payload [Examples.gb_single]) (mkdate 2027 1 1)
  = Ok ([], (Some "2026-04-17", Some "released")).
Proof.
  apply (released_stays_released (Examples.payload [Examples.gb_single])
           (mkdate 2026 5 1) (mkdate 2027 1 1) [] "2026-04-17").
  - vm_compute. reflexivity.
  - vm_compute. reflexivity.
Defined.

(** *** Entries that are not dates *)

Lemma visit_dateless rd : dateless rd = true -> visit_release_date rd = Ok ([], []).
Proof.
  unfold dateless, visit_release_date.
  destruct (Py.get rd "type" Py.PNone) as [ty|e]; [|discriminate]. cbn [bind].
  destruct (Py.eq_int ty TMDB_RELEASE_TYPE_THEATRICAL); [|discriminate].
  cbn [andb].
  destruct (Py.get rd "release_date" Py.PNone) as [v|e]; [|discriminate].
  cbn [bind]. intros H. apply negb_true_iff in H. rewrite H. reflexivity.
Qed.

Lemma collect_without_dateless rds :
  collect_theatrical (filter (fun rd => negb (dateless rd)) rds)
  = collect_theatrical rds.
Proof.
  induction rds as [|rd rds IH]; [reflexivity|].
  cbn [filter]. destruct (dateless rd) eqn:E; cbn [negb].
  - rewrite IH. cbn [collect_theatrical]. rewrite (visit_dateless _ E).
    cbn [bind fst snd app].
    destruct (collect_theatrical rds) as [[w ds]|e]; reflexivity.
  - cbn [collect_theatrical]. rewrite IH. reflexivity.
Qed.

(** X7. A theatrical entry without a release date, or with an empty one, is
    passed over without a word: the result and the error stream are those of
    the payload without it. *)
Theorem dateless_entries_silent payload payload' rds today :
  gb_release_dates payload = Ok (Some rds) ->
  gb_release_dates payload'
  = Ok (Some (filter (fun rd => negb (dateless rd)) rds)) ->
  choose_gb_theatrical_date payload today
  = choose_gb_theatrical_date payload' today.
Proof.
  intros H H'. rewrite !choose_factor, H, H'. cbn [bind].
  rewrite collect_without_dateless. reflexivity.
Qed.

Lemma dateless_entries_silent_witness :
  choose_gb_theatrical_date
    (Examples.payload
       [Examples.region "GB"
          [Examples.entry 3 ""; Py.PDict [("type", Py.PInt 3)];
           Examples.entry 3 Examples.date_text]])
    Examples.today
  = choose_gb_theatrical_date (Examples.payload [Examples.gb_single]) Examples.today.
Proof.
  apply (dateless_entries_silent
           (Examples.payload
              [Examples.region "GB"
                 [Examples.entry 3 ""; Py.PDict [("type", Py.PInt 3)];
                  Examples.entry 3 Examples.date_text]])
           (Examples.payload [Examples.gb_single])
           [Examples.entry 3 ""; Py.PDict [("type", Py.PInt 3)];
            Examples.entry 3 Examples.date_text]).
  - reflexivity.
  - reflexivity.
Defined.

Lemma collect_app_raise pre : forall rd post w ds e,
  collect_theatrical pre = Ok (w, ds) ->
  visit_release_date rd = Raise e ->
  collect_theatrical (pre ++ rd :: post)%list = Raise e.
Proof.
  induction pre as [|x pre IH]; intros rd post w ds e Hc Hv; cbn [app].
  - cbn [collect_theatrical]. rewrite Hv. reflexivity.
  - apply collect_cons in Hc as (w1 & d1 & w2 & d2 & Hx & Hc & -> & ->).
    cbn [collect_theatrical]. rewrite Hx. cbn [bind].
    rewrite (IH rd post _ _ e Hc Hv). reflexivity.
Qed.

(** X8. Only [ValueError] and [KeyError] are caught around the parsing: a
    theatrical entry whose release date is a number, [True] or a list makes
    the selector raise [TypeError]. *)
Theorem non_text_date_raises payload pre rd post ty v today w ds :
  gb_release_dates payload = Ok (Some (pre ++ rd :: post)%list) ->
  collect_theatrical pre = Ok (w, ds) ->
  Py.get rd "type" Py.PNone = Ok ty ->
  Py.eq_int ty TMDB_RELEASE_TYPE_THEATRICAL = true ->
  Py.get rd "release_date" Py.PNone = Ok v ->
  Py.truthy v = true -> not_sliceable_to_text v = true ->
  choose_gb_theatrical_date payload today = Raise TypeError.
Proof.
  intros Hg Hpre Hty Heq Hv Ht Hn.
  rewrite choose_factor, Hg. cbn [bind].
  rewrite (collect_app_raise pre rd post w ds TypeError Hpre); [reflexivity|].
  unfold visit_release_date. rewrite Hty. cbn [bind]. rewrite Heq, Hv.
  cbn [bind]. rewrite Ht.
  destruct v; cbn [not_sliceable_to_text] in Hn; try discriminate; reflexivity.
Qed.

Lemma non_text_date_raises_witness :
  choose_gb_theatrical_date
    (Examples.payload
       [Examples.region "GB"
          [Examples.entry 3 Examples.date_text;
           Py.PDict [("type", Py.PInt 3); ("release_date", Py.PInt 20260417)]]])
    Examples.today
  = Raise TypeError.
Proof.
  apply (non_text_date_raises
           (Examples.payload
              [Examples.region "GB"
                 [Examples.entry 3 Examples.date_text;
                  Py.PDict [("type", Py.PInt 3);
                            ("release_date", Py.PInt 20260417)]]])
           [Examples.entry 3 Examples.date_text]
           (Py.PDict [("type", Py.PInt 3); ("release_date", Py.PInt 20260417)])
           [] (Py.PInt 3) (Py.PInt 20260417) Examples.today
           [] [mkdate 2026 4 17]).
  - reflexivity.
  - vm_compute. reflexivity.
  - reflexivity.
  - reflexivity.
  - reflexivity.
  - reflexivity.
  - reflexivity.
Defined.

End SelectorMore.

(** ** More on the calendar builder *)

Module CalendarMore.
Import Datetime MultiUserUpdate Calendar StringFacts CalendarFacts.

Lemma events_spans ts u movies : forall evs,
  events ts u movies = Ok evs ->
  exists sps, Forall2 span_of movies sps /\ evs = events_of ts u movies sps.
Proof.
  induction movies as [|m movies IH]; intros evs H.
  - cbn in H. apply Ok_inj in H. subst. exists []. split; [constructor | reflexivity].
  - cbn [events] in H. rewrite event_lines_eq in H.
    destruct (parse_ymd (release_date m)) as [start|e] eqn:E1; [|discriminate].
    cbn [bind] in H.
    destruct (add_days start 1) as [stop|e] eqn:E2; [|discriminate].
    cbn [bind] in H.
    destruct (events ts u movies) as [rs|e] eqn:E3; [|discriminate].
    cbn [bind] in H. apply Ok_inj in H. subst evs.
    destruct (IH rs eq_refl) as (sps & HF & ->).
    exists ((start, stop) :: sps). split; [|reflexivity].
    constructor; [split; assumption | exact HF].
Qed.

Lemma spans_events ts u movies sps :
  Forall2 span_of movies sps ->
  events ts u movies = Ok (events_of ts u movies sps).
Proof.
  induction 1 as [|m sp movies sps [H1 H2] _ IH]; [reflexivity|].
  cbn [events events_of]. rewrite event_lines_eq, H1. cbn [bind].
  rewrite H2. cbn [bind]. rewrite IH. reflexivity.
Qed.

Lemma events_of_length ts u movies sps :
  Forall2 span_of movies sps ->
  List.length (events_of ts u movies sps) = (10 * List.length movies)%nat.
Proof.
  induction 1 as [|m sp movies sps _ _ IH]; [reflexivity|].
  cbn [events_of]. rewrite length_app, IH. cbn [event_of List.length]. lia.
Qed.

(** X9. The document has one event of ten lines per movie, in the order of
    the list, between the seven lines of the header and the closing line;
    all events carry the time stamp given. *)
Theorem one_event_per_movie movies ts u doc :
  build_ics_events movies ts u = Ok doc ->
  exists sps,
    Forall2 span_of movies sps
    /\ doc = concat_lines (header u ++ events_of ts u movies sps ++ ["END:VCALENDAR"])
    /\ List.length (header u ++ events_of ts u movies sps ++ ["END:VCALENDAR"])
       = (8 + 10 * List.length movies)%nat.
Proof.
  intros H. apply build_document in H as (evs & He & ->).
  apply events_spans in He as (sps & HF & ->).
  exists sps. split; [exact HF|]. split; [reflexivity|].
  rewrite !length_app, (events_of_length _ _ _ _ HF). cbn [header List.length]. lia.
Qed.

Lemma one_event_per_movie_witness :
  exists sps,
    Forall2 span_of [Examples.test_movie] sps
    /\ List.length (header "alice"
                    ++ events_of Examples.dtstamp "alice" [Examples.test_movie] sps
                    ++ ["END:VCALENDAR"])
       = 18%nat.
Proof.
  destruct (one_event_per_movie [Examples.test_movie] Examples.dtstamp "alice" _
              ltac:(vm_compute; reflexivity)) as (sps & HF & _ & HL).
  exists sps. split; [exact HF | exact HL].
Defined.

(** X10. Whether the builder returns depends on the release dates alone: it
    returns exactly when every release date reads as a date that has a next
    day, whatever the time stamp and the user name. *)
Theorem build_succeeds_iff movies ts u :
  (exists doc, build_ics_events movies ts u = Ok doc)
  <-> Forall (fun m => exists sp, span_of m sp) movies.
Proof.
  split.
  - intros (doc & H). apply build_document in H as (evs & He & _).
    apply events_spans in He as (sps & HF & _).
    clear - HF. induction HF as [|m sp movies sps Hsp _ IH]; constructor; eauto.
  - intros HF.
    assert (Hs : exists sps, Forall2 span_of movies sps).
    { induction HF as [|m movies (sp & Hsp) _ (sps & IH)].
      - exists []. constructor.
      - exists (sp :: sps). constructor; assumption. }
    destruct Hs as (sps & Hs). unfold build_ics_events.
    rewrite (spans_events ts u _ _ Hs). cbn [bind]. eexists. reflexivity.
Qed.

(** *** Escaping *)

Lemma escape_char_special c :
  String.length (escape_char c) = ((if is_special c then 1 else 0) + 1)%nat.
Proof.
  unfold escape_char, is_special.
  destruct (Ascii.eqb c "\"); [reflexivity|].
  destruct (Ascii.eqb c ";"); [reflexivity|].
  destruct (Ascii.eqb c ","); [reflexivity|].
  destruct (Ascii.eqb c "010"); reflexivity.
Qed.

(** X11. The escape is longer than the text by one character for each
    backslash, semicolon, comma and newline of the text. *)
Theorem ics_escape_length s :
  String.length (ics_escape s) = (String.length s + count_special s)%nat.
Proof.
  rewrite ics_escape_spec.
  induction s as [|c r IH]; [reflexivity|].
  cbn [escape_text count_special String.length].
  rewrite app_length, IH, escape_char_special. lia.
Qed.

Lemma has_char_app c a b : has_char c (a ++ b) = has_char c a || has_char c b.
Proof.
  induction a as [|x a IH]; cbn [append has_char]; [reflexivity|].
  rewrite IH, orb_assoc. reflexivity.
Qed.

Lemma escape_char_no_newline c : has_char "010" (escape_char c) = false.
Proof.
  unfold escape_char.
  destruct (Ascii.eqb c "\"); [reflexivity|].
  destruct (Ascii.eqb c ";"); [reflexivity|].
  destruct (Ascii.eqb c ","); [reflexivity|].
  destruct (Ascii.eqb c "010") eqn:E; [reflexivity|].
  cbn [has_char]. rewrite E. reflexivity.
Qed.

(** X12. No newline is left in an escaped text: a field cannot break out of
    its line. *)
Theorem ics_escape_no_newline s : has_char "010" (ics_escape s) = false.
Proof.
  rewrite ics_escape_spec.
  induction s as [|c r IH]; [reflexivity|].
  cbn [escape_text]. rewrite has_char_app, escape_char_no_newline, IH. reflexivity.
Qed.

(** X13. Escaping loses nothing: two texts with the same escape are equal. *)
Theorem ics_escape_injective a b : ics_escape a = ics_escape b -> a = b.
Proof. apply ics_escape_inj. Qed.

Lemma ics_escape_injective_witness : "a;b" = "a;b".
Proof. apply (ics_escape_injective "a;b" "a;b"). reflexivity. Defined.

End CalendarMore.

(** ** From the selector to the builder *)

Module Pipeline.
Import Datetime MultiUserUpdate Selection SelectionFacts ParseFacts SelectorFacts.
Import SelectorMore Calendar CalendarFacts.

(** X14. A date string returned by the selector is the text of a calendar
    date, which the builder and the parser read back as that date; the
    builder then makes the event, unless the date is the last day of the
    calendar, for which it raises [OverflowError]. *)
Theorem selected_date_feeds_builder payload today w s bucket ts u m :
  choose_gb_theatrical_date payload today = Ok (w, (Some s, bucket)) ->
  release_date m = s ->
  exists d,
    valid d /\ s = isoformat d
    /\ parse_ymd s = Ok d /\ parse_iso_date s = Ok d
    /\ (d <> mkdate 9999 12 31 ->
        event_lines ts u m = Ok (event_of ts u m d (next_day d)))
    /\ (d = mkdate 9999 12 31 -> event_lines ts u m = Raise OverflowError).
Proof.
  intros H Hr.
  destruct (selection_shape _ _ _ _ H) as [E | (d & b & Hv & E & _)];
    [discriminate|].
  assert (Es : s = isoformat d) by congruence. clear E.
  rewrite Es in *. exists d.
  split; [exact Hv|]. split; [reflexivity|].
  split; [apply parse_ymd_isoformat; exact Hv|].
  split; [apply parse_iso_date_isoformat; exact Hv|].
  split.
  - intros Hne. apply event_lines_valid; assumption.
  - intros ->. rewrite event_lines_eq, Hr. vm_compute. reflexivity.
Qed.

Lemma selected_date_feeds_builder_witness :
  exists d,
    valid d /\ "2026-04-17" = isoformat d
    /\ parse_ymd "2026-04-17" = Ok d /\ parse_iso_date "2026-04-17" = Ok d
    /\ (d <> mkdate 9999 12 31 ->
        event_lines Examples.dtstamp "alice"
          (mkmovie 123 "Test Movie" "2026-04-17" "u")
        = Ok (event_of Examples.dtstamp "alice"
                (mkmovie 123 "Test Movie" "2026-04-17" "u") d (next_day d)))
    /\ (d = mkdate 9999 12 31 ->
        event_lines Examples.dtstamp "alice"
          (mkmovie 123 "Test Movie" "2026-04-17" "u")
        = Raise OverflowError).
Proof.
  apply (selected_date_feeds_builder (Examples.payload [Examples.gb_single])
           Examples.today [] "2026-04-17" (Some "upcoming")).
  - vm_compute. reflexivity.
  - reflexivity.
Defined.

End Pipeline.

Module RequestsFacts.
Import Datetime MultiUserUpdate Tmdb Requests StringFacts.

Lemma all_chars_app p a b : all_chars p (a ++ b) = all_chars p a && all_chars p b.
Proof.
  induction a as [|c a IH]; cbn [append all_chars]; [reflexivity|].
  rewrite IH, andb_assoc. reflexivity.
Qed.

Lemma ord_bound c : 0 <= Py.ord c < 256.
Proof.
  unfold Py.ord. pose proof (N_ascii_bounded c). lia.
Qed.

Lemma hex_digits_checked :
  forall_range (fun n => Urllib.always_safe (Urllib.hex_digit n)) 0 16 = true.
Proof. vm_compute. reflexivity. Qed.

Lemma hex_digit_safe n : 0 <= n < 16 -> Urllib.always_safe (Urllib.hex_digit n) = true.
Proof.
  intros H. apply (forall_range_spec _ _ _ hex_digits_checked). cbn. lia.
Qed.

Lemma percent_safe c : all_chars url_safe (Urllib.percent c) = true.
Proof.
  unfold Urllib.percent. cbn [all_chars]. unfold url_safe at 2 3.
  pose proof (ord_bound c) as B.
  rewrite !hex_digit_safe; [reflexivity | |].
  - apply Z.mod_pos_bound. lia.
  - split; [apply Z.div_pos; lia | apply Z.div_lt_upper_bound; lia].
Qed.

(** Quoting without a safe space leaves URL-safe characters only. *)
Lemma quote_from_bytes_safe bs :
  all_chars url_safe (Urllib.quote_from_bytes false bs) = true.
Proof.
  induction bs as [|c r IH]; [reflexivity|].
  cbn [Urllib.quote_from_bytes]. rewrite all_chars_app, IH, andb_true_r.
  cbn [andb]. rewrite orb_false_r.
  destruct (Urllib.always_safe c) eqn:E.
  - cbn [all_chars]. unfold url_safe. rewrite E. reflexivity.
  - apply percent_safe.
Qed.


Lemma quote_from_bytes_space bs :
  all_chars safe_or_space (Urllib.quote_from_bytes true bs) = true.
Proof.
  induction bs as [|c r IH]; [reflexivity|].
  cbn [Urllib.quote_from_bytes]. rewrite all_chars_app, IH, andb_true_r.
  cbn [andb].
  destruct (Urllib.always_safe c || Ascii.eqb c " ") eqn:E.
  - cbn [all_chars]. unfold safe_or_space, url_safe. rewrite andb_true_r.
    apply orb_true_iff in E as [E | E]; rewrite E;
      rewrite ?orb_true_r; reflexivity.
  - pose proof (percent_safe c) as H.
    revert H. generalize (Urllib.percent c). intros t.
    induction t as [|x t IHt]; [reflexivity|]. cbn [all_chars].
    intros H. apply andb_true_iff in H as [H1 H2].
    unfold safe_or_space at 1. rewrite H1. cbn [orb andb]. apply IHt. exact H2.
Qed.

Lemma replace_space_safe t :
  all_chars safe_or_space t = true ->
  all_chars url_safe (Py.replace_char " " "+" t) = true.
Proof.
  induction t as [|c t IH]; [reflexivity|]. cbn [all_chars Py.replace_char].
  intros H. apply andb_true_iff in H as [H1 H2].
  destruct (Ascii.eqb c " ") eqn:E.
  - cbn [append all_chars]. rewrite (IH H2). reflexivity.
  - cbn [all_chars]. rewrite (IH H2), andb_true_r.
    unfold safe_or_space in H1. rewrite E, orb_false_r in H1. exact H1.
Qed.

(** X15. Every character of a quoted text is a letter, a digit or one of
    [_ . - ~ + %]: a key or a value cannot add a separator to the query. *)
Theorem quote_plus_url_safe s : all_chars url_safe (Urllib.quote_plus s) = true.
Proof.
  unfold Urllib.quote_plus. destruct (Urllib.has_space s).
  - apply replace_space_safe, quote_from_bytes_space.
  - apply quote_from_bytes_safe.
Qed.

Lemma dict_set_absent k v d :
  has_key k d = false -> Urllib.dict_set k v d = (d ++ [(k, v)])%list.
Proof.
  induction d as [|[k' v'] d IH]; [reflexivity|].
  cbn [has_key existsb fst]. intros H. apply orb_false_iff in H as [H1 H2].
  cbn [Urllib.dict_set app]. rewrite H1. f_equal. apply IH. exact H2.
Qed.

Lemma join_snoc sep xs x :
  xs <> [] -> Py.join sep (xs ++ [x]) = (Py.join sep xs ++ sep ++ x)%string.
Proof.
  induction xs as [|y xs IH]; intros Hne; [congruence|].
  destruct xs as [|z xs].
  - reflexivity.
  - change ((y :: z :: xs) ++ [x])%list with (y :: (z :: xs) ++ [x])%list.
    change (Py.join sep (y :: (z :: xs) ++ [x])%list)
      with (y ++ sep ++ Py.join sep ((z :: xs) ++ [x])%list)%string.
    rewrite IH by discriminate.
    change (Py.join sep (y :: z :: xs)) with (y ++ sep ++ Py.join sep (z :: xs))%string.
    rewrite !app_assoc. reflexivity.
Qed.

(** X16. The key comes last in the query, after the parameters of the caller,
    when these do not name a key themselves. *)
Theorem api_key_sent_last api_key path params :
  has_key "api_key" params = false ->
  tmdb_url api_key path params
  = (TMDB_API ++ path ++ "?"
     ++ (match params with
         | [] => ""
         | _ => Urllib.urlencode params ++ "&"
         end)
     ++ "api_key=" ++ Urllib.quote_plus api_key)%string.
Proof.
  intros H. unfold tmdb_url, Urllib.urlencode.
  rewrite (dict_set_absent _ _ _ H), map_app. cbn [map].
  destruct params as [|p params]; [reflexivity|].
  rewrite join_snoc by discriminate.
  unfold Urllib.pair_text at 2. cbn [fst snd]. rewrite !app_assoc. reflexivity.
Qed.

Lemma api_key_sent_last_witness :
  tmdb_url "test_key_123" "/movie/123" [("language", "en-GB")]
  = "https://api.themoviedb.org/3/movie/123?language=en-GB&api_key=test_key_123".
Proof.
  rewrite (api_key_sent_last "test_key_123" "/movie/123" [("language", "en-GB")]
             eq_refl).
  vm_compute. reflexivity.
Defined.

(** X17. The time stamp is sixteen characters: eight digits of the date, a T,
    six digits of the time and a Z, which read back as the clock reading. *)
Theorem utc_timestamp_shape now hour minute second :
  valid now -> 0 <= hour < 24 -> 0 <= minute < 60 -> 0 <= second < 60 ->
  String.length (get_utc_timestamp now hour minute second) = 16%nat
  /\ exists y mo d h mi s,
       get_utc_timestamp now hour minute second
       = (y ++ mo ++ d ++ "T" ++ h ++ mi ++ s ++ "Z")%string
       /\ String.length y = 4%nat /\ Format.digits_value y 0 = Some (year now)
       /\ String.length mo = 2%nat /\ Format.digits_value mo 0 = Some (month now)
       /\ String.length d = 2%nat /\ Format.digits_value d 0 = Some (day now)
       /\ String.length h = 2%nat /\ Format.digits_value h 0 = Some hour
       /\ String.length mi = 2%nat /\ Format.digits_value mi 0 = Some minute
       /\ String.length s = 2%nat /\ Format.digits_value s 0 = Some second.
Proof.
  intros Hv Hh Hm Hs.
  destruct (FormatFacts.valid_fields now Hv) as (By & Bm & Bd).
  destruct (FormatFacts.fmt4 _ By) as (L1 & V1 & _).
  destruct (FormatFacts.fmt2 _ Bm) as (L2 & V2 & _).
  destruct (FormatFacts.fmt2 _ Bd) as (L3 & V3 & _).
  destruct (FormatFacts.fmt2 hour ltac:(lia)) as (L4 & V4 & _).
  destruct (FormatFacts.fmt2 minute ltac:(lia)) as (L5 & V5 & _).
  destruct (FormatFacts.fmt2 second ltac:(lia)) as (L6 & V6 & _).
  split.
  - unfold get_utc_timestamp. rewrite !app_length. cbn [String.length].
    rewrite L1, L2, L3, L4, L5, L6. reflexivity.
  - do 6 eexists. split; [reflexivity|]. repeat split; assumption.
Qed.

Lemma utc_timestamp_shape_witness :
  String.length (get_utc_timestamp (mkdate 2026 1 1) 0 0 0) = 16%nat.
Proof.
  apply (utc_timestamp_shape (mkdate 2026 1 1) 0 0 0).
  - unfold valid, MINYEAR, MAXYEAR. cbn. lia.
  - lia.
  - lia.
  - lia.
Defined.

End RequestsFacts.

(** ** Orders and stable sorting *)

Module SortFacts.
Import Datetime MultiUserUpdate Watchlist WatchlistSpec StringFacts Format FormatFacts.

Lemma str_ltb_irrefl a : str_ltb a a = false.
Proof.
  induction a as [|x a IH]; [reflexivity|]. cbn [str_ltb].
  rewrite Z.ltb_irrefl. exact IH.
Qed.

Lemma str_ltb_asym a : forall b, str_ltb a b = true -> str_ltb b a = false.
Proof.
  induction a as [|x a IH]; intros [|y b] H; cbn [str_ltb] in *;
    try reflexivity; try discriminate.
  destruct (Z.ltb_spec (Py.ord x) (Py.ord y)) as [L1 | L1];
    destruct (Z.ltb_spec (Py.ord y) (Py.ord x)) as [L2 | L2];
    try lia; try discriminate; try reflexivity.
  apply IH. exact H.
Qed.

(** The order [<=] on strings is transitive. *)
Lemma str_le_trans a : forall b c,
  str_ltb b a = false -> str_ltb c b = false -> str_ltb c a = false.
Proof.
  induction a as [|x a IH]; intros [|y b] [|z c] H1 H2; cbn [str_ltb] in *;
    try reflexivity; try discriminate.
  destruct (Z.ltb_spec (Py.ord y) (Py.ord x)) as [L1 | L1]; [discriminate|].
  destruct (Z.ltb_spec (Py.ord z) (Py.ord y)) as [L2 | L2]; [discriminate|].
  destruct (Z.ltb_spec (Py.ord z) (Py.ord x)) as [L3 | L3]; [lia|].
  destruct (Z.ltb_spec (Py.ord x) (Py.ord y)) as [L4 | L4];
    destruct (Z.ltb_spec (Py.ord y) (Py.ord z)) as [L5 | L5];
    destruct (Z.ltb_spec (Py.ord x) (Py.ord z)) as [L6 | L6];
    try reflexivity; try lia.
  eapply IH; eassumption.
Qed.

Lemma str_le_total a b : str_ltb a b = false \/ str_ltb b a = false.
Proof.
  destruct (str_ltb a b) eqn:E; [right | left; reflexivity].
  apply str_ltb_asym. exact E.
Qed.

Section Stable.

Context {A : Type} (before : A -> A -> bool).
Hypothesis before_asym : forall a b, before a b = true -> before b a = false.
Hypothesis before_trans :
  forall a b c, before b a = false -> before c b = false -> before c a = false.

Lemma insert_before_perm x l : Permutation (x :: l) (insert_before before x l).
Proof.
  induction l as [|y l IH]; cbn [insert_before]; [apply Permutation_refl|].
  destruct (before y x); [|apply Permutation_refl].
  apply perm_trans with (y :: x :: l); [apply perm_swap|].
  apply perm_skip. exact IH.
Qed.

Lemma stable_sort_perm l : Permutation l (stable_sort before l).
Proof.
  induction l as [|x l IH]; cbn [stable_sort]; [apply perm_nil|].
  apply perm_trans with (x :: stable_sort before l);
    [apply perm_skip; exact IH | apply insert_before_perm].
Qed.

Lemma insert_before_sorted x l :
  StronglySorted (in_order before) l ->
  StronglySorted (in_order before) (insert_before before x l).
Proof.
  induction 1 as [|y l Hs IH Hy]; cbn [insert_before].
  - constructor; constructor.
  - destruct (before y x) eqn:E.
    + constructor; [exact IH|].
      rewrite Forall_forall in *. intros z Hz.
      apply (Permutation_in _ (Permutation_sym (insert_before_perm x l))) in Hz.
      destruct Hz as [<- | Hz]; [apply before_asym; exact E | apply Hy; exact Hz].
    + constructor; [constructor; assumption|].
      constructor; [exact E|].
      rewrite Forall_forall in *. intros z Hz.
      unfold in_order. eapply before_trans; [exact E | apply Hy; exact Hz].
Qed.

Lemma stable_sort_sorted l : StronglySorted (in_order before) (stable_sort before l).
Proof.
  induction l as [|x l IH]; cbn [stable_sort]; [constructor|].
  apply insert_before_sorted. exact IH.
Qed.

End Stable.

Lemma key_before_asym (reverse : bool) (a b : string * entry) :
  key_before reverse a b = true -> key_before reverse b a = false.
Proof. unfold key_before. destruct reverse; apply str_ltb_asym. Qed.

Lemma key_before_trans (reverse : bool) (a b c : string * entry) :
  key_before reverse b a = false -> key_before reverse c b = false ->
  key_before reverse c a = false.
Proof.
  unfold key_before. destruct reverse; intros H1 H2.
  - eapply str_le_trans; eassumption.
  - eapply str_le_trans; eassumption.
Qed.

(** *** The order of the texts of dates *)

Lemma digit_val_ord c v : Py.digit_val c = Some v -> v = Py.ord c - 48 /\ 0 <= v <= 9.
Proof.
  unfold Py.digit_val. cbv zeta.
  destruct (Z.leb_spec 48 (Py.ord c)) as [H1 | H1];
    destruct (Z.leb_spec (Py.ord c) 57) as [H2 | H2];
    cbn; intros H; inversion H; lia.
Qed.

Lemma digits_value_some s : forall a b v,
  digits_value s a = Some v -> exists w, digits_value s b = Some w.
Proof.
  induction s as [|c s IH]; intros a b v H; cbn [digits_value] in *.
  - eexists. reflexivity.
  - destruct (Py.digit_val c); [|discriminate]. eapply IH. exact H.
Qed.

(** The value of a string of digits read after an accumulator. *)
Lemma digits_value_shift s : forall acc v0,
  digits_value s 0 = Some v0 ->
  digits_value s acc = Some (acc * 10 ^ Z.of_nat (String.length s) + v0)
  /\ 0 <= v0 < 10 ^ Z.of_nat (String.length s).
Proof.
  induction s as [|c s IH]; intros acc v0 H.
  - cbn in H. inversion H; subst. cbn. split; [f_equal; lia | lia].
  - cbn [digits_value] in *. destruct (Py.digit_val c) as [dv|] eqn:E; [|discriminate].
    destruct (digit_val_ord _ _ E) as [_ Bd].
    destruct (digits_value_some s _ 0 _ H) as (w0 & Hw0).
    destruct (IH (10 * 0 + dv) w0 Hw0) as [E1 B1].
    rewrite E1 in H. inversion H; subst v0. clear H.
    destruct (IH (10 * acc + dv) w0 Hw0) as [E2 _]. rewrite E2.
    cbn [String.length]. rewrite Nat2Z.inj_succ, Z.pow_succ_r by lia.
    split; [f_equal; lia | nia].
Qed.

(** Two strings of digits of the same length compare as their values do,
    also when followed by other texts. *)
Lemma str_ltb_digits a : forall b va vb x y,
  String.length a = String.length b ->
  digits_value a 0 = Some va -> digits_value b 0 = Some vb ->
  str_ltb (a ++ x) (b ++ y)
  = if va <? vb then true else if vb <? va then false else str_ltb x y.
Proof.
  induction a as [|c a IH]; intros [|c' b] va vb x y HL Ha Hb;
    cbn [String.length] in HL; try discriminate.
  - cbn in Ha, Hb. inversion Ha; inversion Hb; subst. reflexivity.
  - cbn [digits_value] in Ha, Hb.
    destruct (Py.digit_val c) as [dv|] eqn:E; [|discriminate].
    destruct (Py.digit_val c') as [dv'|] eqn:E'; [|discriminate].
    destruct (digit_val_ord _ _ E) as [O1 B1].
    destruct (digit_val_ord _ _ E') as [O2 B2].
    destruct (digits_value_some a _ 0 _ Ha) as (wa & Hwa).
    destruct (digits_value_some b _ 0 _ Hb) as (wb & Hwb).
    destruct (digits_value_shift a (10 * 0 + dv) wa Hwa) as [Ea Ba].
    destruct (digits_value_shift b (10 * 0 + dv') wb Hwb) as [Eb Bb].
    rewrite Ea in Ha. rewrite Eb in Hb.
    injection Ha as Ha. injection Hb as Hb.
    assert (HL' : String.length a = String.length b) by lia.
    rewrite <- HL' in *.
    set (P := 10 ^ Z.of_nat (String.length a)) in *.
    assert (HP : 0 < P) by (apply Z.pow_pos_nonneg; lia).
    assert (Hva : va = dv * P + wa) by lia.
    assert (Hvb : vb = dv' * P + wb) by lia.
    clear Ha Hb Ea Eb.
    cbn [append str_ltb]. rewrite (IH b wa wb x y HL' Hwa Hwb).
    destruct (Z.ltb_spec (Py.ord c) (Py.ord c')) as [L1 | L1].
    + destruct (Z.ltb_spec va vb); [reflexivity | nia].
    + destruct (Z.ltb_spec (Py.ord c') (Py.ord c)) as [L2 | L2].
      * destruct (Z.ltb_spec va vb); [nia|].
        destruct (Z.ltb_spec vb va); [reflexivity | nia].
      * assert (dv = dv') by lia. subst dv'.
        destruct (Z.ltb_spec wa wb); destruct (Z.ltb_spec va vb);
          try lia; try reflexivity.
        destruct (Z.ltb_spec wb wa); destruct (Z.ltb_spec vb va);
          try lia; reflexivity.
Qed.

(** The texts of two calendar dates compare as the dates do. *)
Lemma isoformat_ltb d1 d2 :
  valid d1 -> valid d2 -> str_ltb (isoformat d1) (isoformat d2) = ltb d1 d2.
Proof.
  intros V1 V2.
  destruct (valid_fields d1 V1) as (Y1 & M1 & D1).
  destruct (valid_fields d2 V2) as (Y2 & M2 & D2).
  destruct (fmt4 _ Y1) as (LA1 & VA1 & _). destruct (fmt4 _ Y2) as (LA2 & VA2 & _).
  destruct (fmt2 _ M1) as (LB1 & VB1 & _). destruct (fmt2 _ M2) as (LB2 & VB2 & _).
  destruct (fmt2 _ D1) as (LC1 & VC1 & _). destruct (fmt2 _ D2) as (LC2 & VC2 & _).
  unfold isoformat. cbn [append].
  rewrite (str_ltb_digits _ _ _ _ _ _ (eq_trans LA1 (eq_sym LA2)) VA1 VA2).
  cbn [str_ltb]. rewrite Z.ltb_irrefl.
  rewrite (str_ltb_digits _ _ _ _ _ _ (eq_trans LB1 (eq_sym LB2)) VB1 VB2).
  cbn [str_ltb]. rewrite Z.ltb_irrefl.
  rewrite <- (app_nil_r (Py.format_0d 2 (day d1))),
    <- (app_nil_r (Py.format_0d 2 (day d2))).
  rewrite (str_ltb_digits _ _ _ _ _ _ (eq_trans LC1 (eq_sym LC2)) VC1 VC2).
  cbn [str_ltb].
  unfold ltb, cmp.
  destruct (Z.compare_spec (year d1) (year d2)) as [E | L | L].
  - rewrite E, Z.ltb_irrefl.
    destruct (Z.compare_spec (month d1) (month d2)) as [E' | L' | L'].
    + rewrite E', Z.ltb_irrefl.
      destruct (Z.compare_spec (day d1) (day d2)) as [E'' | L'' | L''].
      * rewrite E'', Z.ltb_irrefl. reflexivity.
      * apply Z.ltb_lt in L''. rewrite L''. reflexivity.
      * destruct (Z.ltb_spec (day d1) (day d2)); [lia|].
        destruct (Z.ltb_spec (day d2) (day d1)); [reflexivity | lia].
    + apply Z.ltb_lt in L'. rewrite L'. reflexivity.
    + destruct (Z.ltb_spec (month d1) (month d2)); [lia|].
      destruct (Z.ltb_spec (month d2) (month d1)); [reflexivity | lia].
  - apply Z.ltb_lt in L. rewrite L. reflexivity.
  - destruct (Z.ltb_spec (year d1) (year d2)); [lia|].
    destruct (Z.ltb_spec (year d2) (year d1)); [reflexivity | lia].
Qed.

End SortFacts.

(** ** The loop over the watchlist *)

Module WatchlistFacts.
Import Datetime MultiUserUpdate Tmdb Watchlist Selection SelectionFacts.
Import ParseFacts SelectorFacts SelectorMore Calendar CalendarFacts CalendarMore.
Import SortFacts WatchlistSpec.

Lemma dated_intro e d :
  valid d -> e_release_date e = Some (isoformat d) ->
  dated e /\ date_of_entry e = d.
Proof.
  intros Hv He.
  assert (E : date_of_entry e = d).
  { unfold date_of_entry. rewrite He, (parse_iso_date_isoformat d Hv). reflexivity. }
  split; [|exact E]. unfold dated. rewrite E. auto.
Qed.

Section Loop.

Variable http_get_json : string -> result Py.pyval.
Variable api_key : string.
Variable str_of_container : Py.pyval -> string.

Local Abbreviation process_item := (process_item http_get_json api_key).
Local Abbreviation try_item := (try_item http_get_json api_key).

(** What a round of the loop appends, by bucket. *)
Lemma try_item_outcome today item id o :
  try_item today item id = Ok o ->
  match o with
  | Skipped => False
  | Logged l => l = InvalidDetails id \/ l = InvalidReleases id
  | Upcoming e => dated e /\ leb today (date_of_entry e) = true /\ e_tmdb_id e = id
  | Released e => dated e /\ ltb (date_of_entry e) today = true /\ e_tmdb_id e = id
  | Tbd e => e_release_date e = None /\ e_tmdb_id e = id
  end.
Proof.
  unfold Watchlist.try_item.
  destruct (http_get_json _) as [details|e]; [|discriminate]. cbn [bind].
  destruct (http_get_json _) as [releases|e]; [|discriminate]. cbn [bind].
  destruct (negb (is_dict details)).
  { intros H. inversion H. left. reflexivity. }
  destruct (negb (is_dict releases) || negb (contains_key "results" releases)).
  { intros H. inversion H. right. reflexivity. }
  destruct (choose_gb_theatrical_date releases today) as [[w [cd bucket]]|e] eqn:EC;
    [|discriminate].
  cbn [bind snd].
  destruct (Py.get details "title" Py.PNone) as [t1|e]; [|discriminate]. cbn [bind].
  destruct (Py.get details "original_title" Py.PNone) as [t2|e]; [|discriminate].
  cbn [bind].
  destruct (poster_url details) as [poster|e]; [|discriminate]. cbn [bind].
  apply choose_bucket in EC
    as [(-> & d & Hv & Hd & ->) | [(-> & d & Hv & Hd & ->) | (-> & ->)]].
  - cbn [String.eqb Ascii.eqb Bool.eqb]. intros H. apply Ok_inj in H. subst o.
    match goal with
    | |- dated ?e /\ _ => destruct (dated_intro e d Hv eq_refl) as [HD HE]
    end.
    split; [exact HD|]. rewrite HE. auto.
  - cbn [String.eqb Ascii.eqb Bool.eqb]. intros H. apply Ok_inj in H. subst o.
    match goal with
    | |- dated ?e /\ _ => destruct (dated_intro e d Hv eq_refl) as [HD HE]
    end.
    split; [exact HD|]. rewrite HE. auto.
  - intros H. apply Ok_inj in H. subst o. auto.
Qed.

Lemma py_or_truthy a b : Py.truthy b = true -> Py.truthy (py_or a b) = true.
Proof. intros H. unfold py_or. destruct (Py.truthy a) eqn:E; assumption. Qed.

Lemma try_item_title today item id o e :
  try_item today item id = Ok o -> entry_of o = Some e ->
  Py.truthy (e_title e) = true
  /\ e_tmdb_url e = ("https://www.themoviedb.org/movie/" ++ Py.str_of_Z id)%string.
Proof.
  unfold Watchlist.try_item.
  destruct (http_get_json _) as [details|x]; [|discriminate]. cbn [bind].
  destruct (http_get_json _) as [releases|x]; [|discriminate]. cbn [bind].
  destruct (negb (is_dict details)).
  { intros H. apply Ok_inj in H. subst o. discriminate. }
  destruct (negb (is_dict releases) || negb (contains_key "results" releases)).
  { intros H. apply Ok_inj in H. subst o. discriminate. }
  destruct (choose_gb_theatrical_date releases today) as [[w [cd bucket]]|x];
    [|discriminate].
  cbn [bind snd].
  destruct (Py.get details "title" Py.PNone) as [t1|x]; [|discriminate]. cbn [bind].
  destruct (Py.get details "original_title" Py.PNone) as [t2|x]; [|discriminate].
  cbn [bind].
  destruct (poster_url details) as [poster|x]; [|discriminate]. cbn [bind].
  assert (HT : Py.truthy
                 (py_or t1 (py_or t2 (py_or (title_hint item)
                    (Py.PStr ("TMDb " ++ Py.str_of_Z id))))) = true)
    by (do 3 apply py_or_truthy; reflexivity).
  destruct bucket as [b|].
  - destruct (String.eqb b "upcoming"); [|destruct (String.eqb b "released")];
      intros H; apply Ok_inj in H; subst o; intros E; inversion E; subst e;
      cbn [e_title e_tmdb_url]; auto.
  - intros H. apply Ok_inj in H. subst o. intros E. inversion E; subst e.
    cbn [e_title e_tmdb_url]. auto.
Qed.

Lemma process_item_title today item e :
  entry_of (process_item today item) = Some e -> Py.truthy (e_title e) = true.
Proof.
  unfold Watchlist.process_item. destruct (item_id item) as [id|]; [|discriminate].
  destruct (id =? 0); [discriminate|].
  destruct (try_item today item id) as [o|x] eqn:E; [|discriminate].
  intros H. apply (try_item_title _ _ _ _ _ E H).
Qed.

Lemma process_item_outcome today item :
  match process_item today item with
  | Upcoming e => dated e /\ leb today (date_of_entry e) = true
  | Released e => dated e /\ ltb (date_of_entry e) today = true
  | Tbd e => e_release_date e = None
  | _ => True
  end.
Proof.
  unfold Watchlist.process_item. destruct (item_id item) as [id|]; [|exact I].
  destruct (id =? 0); [exact I|].
  destruct (try_item today item id) as [o|e] eqn:E; [|exact I].
  apply try_item_outcome in E. destruct o; tauto.
Qed.

Lemma upcoming_dated today watch :
  Forall (fun e => dated e /\ leb today (date_of_entry e) = true)
    (upcoming_of (map (process_item today) watch)).
Proof.
  induction watch as [|it watch IH]; [constructor|]. cbn [map upcoming_of].
  pose proof (process_item_outcome today it) as H.
  destruct (process_item today it); try exact IH. constructor; assumption.
Qed.

Lemma released_dated today watch :
  Forall (fun e => dated e /\ ltb (date_of_entry e) today = true)
    (released_of (map (process_item today) watch)).
Proof.
  induction watch as [|it watch IH]; [constructor|]. cbn [map released_of].
  pose proof (process_item_outcome today it) as H.
  destruct (process_item today it); try exact IH. constructor; assumption.
Qed.

Lemma tbd_undated today watch :
  Forall (fun e => e_release_date e = None)
    (tbd_of (map (process_item today) watch)).
Proof.
  induction watch as [|it watch IH]; [constructor|]. cbn [map tbd_of].
  pose proof (process_item_outcome today it) as H.
  destruct (process_item today it); try exact IH. constructor; assumption.
Qed.

End Loop.

(** *** Sorting by release date *)


Lemma date_keys_dated l :
  Forall dated l ->
  exists ks, date_keys l = Some ks /\ map snd ks = l /\ Forall keyed ks.
Proof.
  induction 1 as [|e l [_ He] _ (ks & E & M & K)].
  - exists []. repeat split; constructor.
  - exists ((isoformat (date_of_entry e), e) :: ks). cbn [date_keys].
    rewrite He, E. split; [reflexivity|]. split; [cbn; now rewrite M|].
    constructor; [exact He | exact K].
Qed.


Lemma keys_in_order reverse (p q : string * entry) :
  keyed p -> keyed q -> dated (snd p) -> dated (snd q) ->
  in_order (key_before reverse) p q -> dates_in_order reverse (snd p) (snd q).
Proof.
  unfold keyed, in_order, key_before, dates_in_order.
  intros Kp Kq [Vp Ep] [Vq Eq] H.
  assert (Fp : fst p = isoformat (date_of_entry (snd p))) by congruence.
  assert (Fq : fst q = isoformat (date_of_entry (snd q))) by congruence.
  rewrite Fp, Fq in H. destruct reverse.
  - rewrite isoformat_ltb in H by assumption.
    rewrite ltb_negb_leb in H. apply negb_false_iff in H. exact H.
  - rewrite isoformat_ltb in H by assumption.
    rewrite ltb_negb_leb in H. apply negb_false_iff in H. exact H.
Qed.

Lemma sorted_map {A B} (R : A -> A -> Prop) (R' : B -> B -> Prop) (f : A -> B)
  (P : A -> Prop) l :
  (forall a b, P a -> P b -> R a b -> R' (f a) (f b)) ->
  Forall P l -> StronglySorted R l -> StronglySorted R' (map f l).
Proof.
  intros HR HP HS. induction HS as [|a l HS IH Ha]; cbn [map]; [constructor|].
  inversion HP as [|? ? Pa Pl]; subst. constructor; [apply IH; exact Pl|].
  rewrite Forall_forall in *. intros y Hy. apply in_map_iff in Hy as (x & <- & Hx).
  apply HR; auto.
Qed.

(** Sorting a bucket of dated entries returns them all, ordered by date. *)
Lemma sort_by_release_date_dated reverse l :
  Forall dated l ->
  exists l',
    sort_by_release_date reverse l = Ok l'
    /\ Permutation l l'
    /\ StronglySorted (dates_in_order reverse) l'.
Proof.
  intros HD. destruct (date_keys_dated l HD) as (ks & E & M & K).
  assert (HS : StronglySorted (dates_in_order reverse)
                 (map snd (stable_sort (key_before reverse) ks))).
  { apply (sorted_map (in_order (key_before reverse)) _ snd
             (fun p => keyed p /\ dated (snd p))).
    - intros a b [Ka Da] [Kb Db] H. apply keys_in_order; assumption.
    - assert (HK : Forall (fun p => keyed p /\ dated (snd p)) ks).
      { rewrite Forall_forall in *. intros p Hp. split; [apply K; exact Hp|].
        apply HD. rewrite <- M. apply in_map. exact Hp. }
      rewrite Forall_forall in *. intros p Hp. apply HK.
      apply (Permutation_in _ (Permutation_sym
               (stable_sort_perm (key_before reverse) ks))).
      exact Hp.
    - apply stable_sort_sorted.
      + apply key_before_asym.
      + apply key_before_trans. }
  assert (HP : Permutation l (map snd (stable_sort (key_before reverse) ks))).
  { rewrite <- M at 1. apply Permutation_map, stable_sort_perm. }
  unfold sort_by_release_date. rewrite E.
  destruct l as [|a [|b l]].
  - exists []. repeat split; constructor.
  - exists [a]. split; [reflexivity|]. split; [apply Permutation_refl|].
    constructor; constructor.
  - eexists. split; [reflexivity|]. split; assumption.
Qed.

Lemma title_keys_text l :
  Forall (fun e => is_text (e_title e) = true) l ->
  exists ks, title_keys l = Ok ks /\ map snd ks = l.
Proof.
  induction 1 as [|e l He _ (ks & E & M)].
  - exists []. split; reflexivity.
  - cbn [title_keys]. destruct (e_title e) as [| | |t| |]; try discriminate.
    rewrite E. cbn [bind]. eexists. split; [reflexivity|]. cbn. now rewrite M.
Qed.

Lemma sort_by_title_ok l ks :
  title_keys l = Ok ks -> map snd ks = l ->
  exists l', sort_by_title l = Ok l' /\ Permutation l l'.
Proof.
  intros E M. unfold sort_by_title. rewrite E. cbn [bind].
  eexists. split; [reflexivity|].
  rewrite <- M at 1. apply Permutation_map, stable_sort_perm.
Qed.

Lemma title_keys_map l : forall ks, title_keys l = Ok ks -> map snd ks = l.
Proof.
  induction l as [|e l IH]; intros ks H; cbn [title_keys] in H.
  - inversion H. reflexivity.
  - destruct (e_title e); try discriminate.
    apply bind_ok in H as (ks' & E & H). inversion H; subst. cbn.
    now rewrite (IH _ E).
Qed.

(** *** The calendar of the upcoming movies *)

Section Calendar.

Variable str_of_container : Py.pyval -> string.

Lemma entry_events_dated ts u l :
  Forall dated l ->
  entry_events str_of_container ts u l = events ts u (map (movie_of_dated str_of_container) l).
Proof.
  induction 1 as [|e l [_ He] _ IH]; [reflexivity|].
  cbn [entry_events map events]. rewrite He, IH. reflexivity.
Qed.

Lemma build_of_dated l ts u :
  Forall dated l ->
  build_ics_events_of str_of_container l ts u
  = build_ics_events (map (movie_of_dated str_of_container) l) ts u.
Proof.
  intros H. unfold build_ics_events_of, build_ics_events.
  rewrite (entry_events_dated ts u l H). reflexivity.
Qed.

Lemma last_day_text e :
  dated e -> e_release_date e <> Some "9999-12-31" ->
  date_of_entry e <> mkdate 9999 12 31.
Proof.
  intros [_ He] Hne E. apply Hne. rewrite He, E. vm_compute. reflexivity.
Qed.

Lemma spans_of_dated l :
  Forall (fun e => dated e /\ e_release_date e <> Some "9999-12-31") l ->
  exists sps, Forall2 span_of (map (movie_of_dated str_of_container) l) sps.
Proof.
  induction 1 as [|e l [HD Hne] _ (sps & IH)].
  - exists []. constructor.
  - exists ((date_of_entry e, next_day (date_of_entry e)) :: sps).
    cbn [map]. constructor; [|exact IH].
    destruct HD as [Hv He]. unfold span_of. cbn [fst snd movie_of_dated movie_of
      release_date].
    split; [apply parse_ymd_isoformat; exact Hv|].
    apply DatetimeFacts.add_days_one; [exact Hv|].
    apply last_day_text; [split; assumption | exact Hne].
Qed.

End Calendar.

(** *** The claims on the loop *)

Section Run.

Variable http_get_json : string -> result Py.pyval.
Variable api_key : string.
Variable str_of_container : Py.pyval -> string.

Local Abbreviation item_outcome := (process_item http_get_json api_key).
Local Abbreviation run :=
  (process_user_watchlist http_get_json api_key str_of_container).

Lemma run_ok watch u today ts out :
  run watch u today ts = Ok out ->
  sort_by_release_date false (upcoming_of (map (item_outcome today) watch))
  = Ok (out_upcoming out)
  /\ sort_by_release_date true (released_of (map (item_outcome today) watch))
     = Ok (out_released out)
  /\ sort_by_title (tbd_of (map (item_outcome today) watch)) = Ok (out_tbd out)
  /\ build_ics_events_of str_of_container (out_upcoming out) ts u = Ok (out_ics out)
  /\ out_stderr out = logged (map (item_outcome today) watch).
Proof.
  unfold process_user_watchlist. cbv zeta. intros H.
  apply bind_ok in H as (up & E1 & H).
  apply bind_ok in H as (rel & E2 & H).
  apply bind_ok in H as (tbd & E3 & H).
  apply bind_ok in H as (ics & E4 & H).
  apply Ok_inj in H. subst out. cbn. auto.
Qed.

Lemma forall_perm {A} (P : A -> Prop) l l' :
  Permutation l l' -> Forall P l -> Forall P l'.
Proof.
  intros HP H. rewrite Forall_forall in *. intros x Hx. apply H.
  apply (Permutation_in _ (Permutation_sym HP)). exact Hx.
Qed.

Lemma upcoming_sorted watch u today ts out :
  run watch u today ts = Ok out ->
  Permutation (upcoming_of (map (item_outcome today) watch)) (out_upcoming out)
  /\ Forall (fun e => dated e /\ leb today (date_of_entry e) = true) (out_upcoming out)
  /\ StronglySorted (dates_in_order false) (out_upcoming out).
Proof.
  intros H. apply run_ok in H as (E1 & _).
  pose proof (upcoming_dated http_get_json api_key today watch) as HD.
  destruct (sort_by_release_date_dated false _
              (Forall_impl _ (fun e (h : _ /\ _) => proj1 h) HD))
    as (l' & E & HP & HS).
  rewrite E in E1. apply Ok_inj in E1. subst l'.
  split; [exact HP|]. split; [|exact HS]. apply (forall_perm _ _ _ HP HD).
Qed.

Lemma released_sorted watch u today ts out :
  run watch u today ts = Ok out ->
  Permutation (released_of (map (item_outcome today) watch)) (out_released out)
  /\ Forall (fun e => dated e /\ ltb (date_of_entry e) today = true) (out_released out)
  /\ StronglySorted (dates_in_order true) (out_released out).
Proof.
  intros H. apply run_ok in H as (_ & E2 & _).
  pose proof (released_dated http_get_json api_key today watch) as HD.
  destruct (sort_by_release_date_dated true _
              (Forall_impl _ (fun e (h : _ /\ _) => proj1 h) HD))
    as (l' & E & HP & HS).
  rewrite E in E2. apply Ok_inj in E2. subst l'.
  split; [exact HP|]. split; [|exact HS]. apply (forall_perm _ _ _ HP HD).
Qed.

Lemma tbd_permuted watch u today ts out :
  run watch u today ts = Ok out ->
  Permutation (tbd_of (map (item_outcome today) watch)) (out_tbd out).
Proof.
  intros H. apply run_ok in H as (_ & _ & E3 & _).
  pose proof E3 as E. unfold sort_by_title in E.
  apply bind_ok in E as (ks & EK & _).
  destruct (sort_by_title_ok _ _ EK (title_keys_map _ _ EK)) as (l' & E' & HP).
  rewrite E' in E3. apply Ok_inj in E3. subst l'. exact HP.
Qed.

(** X18. The upcoming movies handed to the writer all show a calendar date on
    or after the reference date, and they come in the order of their dates,
    the earliest first. *)
Theorem upcoming_bucket_sorted_future watch u today ts out :
  run watch u today ts = Ok out ->
  exists ds,
    map e_release_date (out_upcoming out) = map (fun d => Some (isoformat d)) ds
    /\ Forall valid ds
    /\ Forall (fun d => leb today d = true) ds
    /\ StronglySorted (fun a b => leb a b = true) ds.
Proof.
  intros H. destruct (upcoming_sorted _ _ _ _ _ H) as (_ & HF & HS).
  exists (map date_of_entry (out_upcoming out)).
  split; [|split; [|split]].
  - rewrite map_map. apply map_ext_in. intros e He.
    rewrite Forall_forall in HF. apply (HF e He).
  - rewrite Forall_map. eapply Forall_impl; [|exact HF].
    intros e [[Hv _] _]. exact Hv.
  - rewrite Forall_map. eapply Forall_impl; [|exact HF].
    intros e [_ Hl]. exact Hl.
  - apply (sorted_map (dates_in_order false) _ date_of_entry (fun _ => True)).
    + intros a b _ _ Hab. exact Hab.
    + rewrite Forall_forall. auto.
    + exact HS.
Qed.

(** X19. The released movies all show a date before the reference date and
    come latest first; the movies without a date show none. *)
Theorem released_bucket_sorted_past watch u today ts out :
  run watch u today ts = Ok out ->
  (exists ds,
     map e_release_date (out_released out) = map (fun d => Some (isoformat d)) ds
     /\ Forall valid ds
     /\ Forall (fun d => ltb d today = true) ds
     /\ StronglySorted (fun a b => leb b a = true) ds)
  /\ Forall (fun e => e_release_date e = None) (out_tbd out).
Proof.
  intros H. split.
  - destruct (released_sorted _ _ _ _ _ H) as (_ & HF & HS).
    exists (map date_of_entry (out_released out)).
    split; [|split; [|split]].
    + rewrite map_map. apply map_ext_in. intros e He.
      rewrite Forall_forall in HF. apply (HF e He).
    + rewrite Forall_map. eapply Forall_impl; [|exact HF].
      intros e [[Hv _] _]. exact Hv.
    + rewrite Forall_map. eapply Forall_impl; [|exact HF].
      intros e [_ Hl]. exact Hl.
    + apply (sorted_map (dates_in_order true) _ date_of_entry (fun _ => True)).
      * intros a b _ _ Hab. exact Hab.
      * rewrite Forall_forall. auto.
      * exact HS.
  - apply (forall_perm _ _ _ (tbd_permuted _ _ _ _ _ H)).
    apply (tbd_undated http_get_json api_key).
Qed.

(** X20. The calendar written is the one [build_ics_events] makes of the
    upcoming movies, in their sorted order: one event each. *)
Theorem calendar_of_upcoming watch u today ts out :
  run watch u today ts = Ok out ->
  build_ics_events (map (movie_of_dated str_of_container) (out_upcoming out)) ts u
  = Ok (out_ics out)
  /\ map release_date (map (movie_of_dated str_of_container) (out_upcoming out))
     = map (fun e => isoformat (date_of_entry e)) (out_upcoming out)
  /\ map e_release_date (out_upcoming out)
     = map (fun e => Some (isoformat (date_of_entry e))) (out_upcoming out).
Proof.
  intros H. destruct (upcoming_sorted _ _ _ _ _ H) as (_ & HF & _).
  apply run_ok in H as (_ & _ & _ & E4 & _).
  assert (HD : Forall dated (out_upcoming out))
    by (eapply Forall_impl; [|exact HF]; intros e [h _]; exact h).
  split; [rewrite <- (build_of_dated str_of_container _ ts u HD); exact E4|].
  split; [rewrite map_map; reflexivity|].
  apply map_ext_in. intros e He. rewrite Forall_forall in HD. apply (HD e He).
Qed.

Lemma bucket_entries (os : list outcome) e :
  In e (upcoming_of os ++ released_of os ++ tbd_of os)%list ->
  exists o, In o os /\ entry_of o = Some e.
Proof.
  induction os as [|o os IH]; cbn [upcoming_of released_of tbd_of].
  - intros [].
  - intros H.
    assert (Hc : entry_of o = Some e
                 \/ In e (upcoming_of os ++ released_of os ++ tbd_of os)%list).
    { destruct o; cbn [entry_of]; auto;
        rewrite ?in_app_iff in *; cbn [In] in H; rewrite ?in_app_iff in *;
        intuition (subst; auto). }
    destruct Hc as [Hc | Hc].
    + exists o. split; [left; reflexivity | exact Hc].
    + destruct (IH Hc) as (o' & Hin & E). exists o'. split; [right|]; assumption.
Qed.

(** X23. Every movie handed to the writer has a title that counts as true:
    the title of the details, else the original title, else the hint of the
    watchlist, else "TMDb" and the identifier. *)
Theorem title_always_present watch u today ts out :
  run watch u today ts = Ok out ->
  Forall (fun e => Py.truthy (e_title e) = true)
    (out_upcoming out ++ out_released out ++ out_tbd out)%list.
Proof.
  intros H.
  destruct (upcoming_sorted _ _ _ _ _ H) as (P1 & _).
  destruct (released_sorted _ _ _ _ _ H) as (P2 & _).
  pose proof (tbd_permuted _ _ _ _ _ H) as P3.
  apply (forall_perm _ _ _ (Permutation_app P1 (Permutation_app P2 P3))).
  rewrite Forall_forall. intros e He.
  apply bucket_entries in He as (o & Hin & E).
  apply in_map_iff in Hin as (it & <- & _).
  apply (process_item_title http_get_json api_key today it e E).
Qed.

Lemma outcomes_count (os : list outcome) :
  List.length os
  = (List.length (filter is_skipped os) + List.length (logged os)
     + List.length (upcoming_of os) + List.length (released_of os)
     + List.length (tbd_of os))%nat.
Proof.
  induction os as [|o os IH]; [reflexivity|].
  destruct o; cbn [filter is_skipped logged upcoming_of released_of tbd_of List.length];
    lia.
Qed.

(** X21. Every object of the watchlist is accounted for once: passed over for
    want of an identifier, reported on the error stream, or in one of the
    three lists. *)
Theorem every_item_accounted_for watch u today ts out :
  run watch u today ts = Ok out ->
  List.length watch
  = (List.length (filter (fun it => is_skipped (item_outcome today it)) watch)
     + List.length (out_stderr out)
     + List.length (out_upcoming out) + List.length (out_released out)
     + List.length (out_tbd out))%nat.
Proof.
  intros H.
  destruct (upcoming_sorted _ _ _ _ _ H) as (P1 & _).
  destruct (released_sorted _ _ _ _ _ H) as (P2 & _).
  pose proof (tbd_permuted _ _ _ _ _ H) as P3.
  apply run_ok in H as (_ & _ & _ & _ & ->).
  rewrite <- (Permutation_length P1), <- (Permutation_length P2),
    <- (Permutation_length P3).
  rewrite <- (length_map (item_outcome today) watch) at 1.
  rewrite outcomes_count. f_equal. f_equal. f_equal. f_equal.
  clear. induction watch as [|it watch IH]; [reflexivity|].
  cbn [map filter]. destruct (is_skipped (item_outcome today it)); cbn [List.length];
    now rewrite IH.
Qed.

Lemma buckets_without a item b today :
  keeps_no_movie (item_outcome today item) = true ->
  upcoming_of (map (item_outcome today) (a ++ item :: b))
  = upcoming_of (map (item_outcome today) (a ++ b))
  /\ released_of (map (item_outcome today) (a ++ item :: b))
     = released_of (map (item_outcome today) (a ++ b))
  /\ tbd_of (map (item_outcome today) (a ++ item :: b))
     = tbd_of (map (item_outcome today) (a ++ b)).
Proof.
  intros H. induction a as [|x a (I1 & I2 & I3)]; cbn [app map].
  - destruct (item_outcome today item); try discriminate; auto.
  - destruct (item_outcome today x); cbn [upcoming_of released_of tbd_of];
      rewrite ?I1, ?I2, ?I3; auto.
Qed.

(** X22. An object that fails, or has no identifier, leaves the three lists
    and the calendar as they are without it: it shows on the error stream
    at most. *)
Theorem failing_item_only_logged a item b u today ts :
  keeps_no_movie (item_outcome today item) = true ->
  run (a ++ item :: b) u today ts
  = match run (a ++ b) u today ts with
    | Ok out =>
        Ok (mkoutputs (logged (map (item_outcome today) (a ++ item :: b)))
              (out_upcoming out) (out_tbd out) (out_released out) (out_ics out))
    | Raise e => Raise e
    end.
Proof.
  intros H. destruct (buckets_without a item b today H) as (E1 & E2 & E3).
  unfold process_user_watchlist. cbv zeta. rewrite E1, E2, E3.
  destruct (sort_by_release_date false _) as [up|e]; [|reflexivity]. cbn [bind].
  destruct (sort_by_release_date true _) as [rel|e]; [|reflexivity]. cbn [bind].
  destruct (sort_by_title _) as [tbd|e]; [|reflexivity]. cbn [bind].
  destruct (build_ics_events_of _ up ts u) as [ics|e]; reflexivity.
Qed.

(** X24. The run comes to its end when the titles of the movies without a
    date are texts and no upcoming movie is dated 9999-12-31: sorting by
    date and building the calendar cannot fail otherwise. *)
Theorem run_succeeds watch u today ts :
  Forall (fun it =>
            match item_outcome today it with
            | Upcoming e => e_release_date e <> Some "9999-12-31"
            | Tbd e => is_text (e_title e) = true
            | _ => True
            end) watch ->
  exists out, run watch u today ts = Ok out.
Proof.
  intros HW.
  pose proof (upcoming_dated http_get_json api_key today watch) as HU.
  pose proof (released_dated http_get_json api_key today watch) as HR.
  assert (HU' : Forall (fun e => e_release_date e <> Some "9999-12-31")
                  (upcoming_of (map (item_outcome today) watch))).
  { clear - HW. induction HW as [|it watch Hit _ IH]; [constructor|].
    cbn [map upcoming_of]. destruct (item_outcome today it); try exact IH.
    constructor; assumption. }
  assert (HT : Forall (fun e => is_text (e_title e) = true)
                 (tbd_of (map (item_outcome today) watch))).
  { clear - HW. induction HW as [|it watch Hit _ IH]; [constructor|].
    cbn [map tbd_of]. destruct (item_outcome today it); try exact IH.
    constructor; assumption. }
  destruct (sort_by_release_date_dated false _
              (Forall_impl _ (fun e (h : _ /\ _) => proj1 h) HU))
    as (up & E1 & P1 & _).
  destruct (sort_by_release_date_dated true _
              (Forall_impl _ (fun e (h : _ /\ _) => proj1 h) HR))
    as (rel & E2 & _ & _).
  destruct (title_keys_text _ HT) as (ks & EK & MK).
  destruct (sort_by_title_ok _ _ EK MK) as (tbd & E3 & _).
  assert (HD : Forall (fun e => dated e /\ e_release_date e <> Some "9999-12-31") up).
  { apply (forall_perm _ _ _ P1). rewrite Forall_forall in *.
    intros e He. split; [apply (HU e He) | apply (HU' e He)]. }
  destruct (spans_of_dated str_of_container up HD) as (sps & HS).
  unfold process_user_watchlist. cbv zeta. rewrite E1. cbn [bind].
  rewrite E2. cbn [bind]. rewrite E3. cbn [bind].
  rewrite (build_of_dated str_of_container up ts u)
    by (eapply Forall_impl; [|exact HD]; intros e [h _]; exact h).
  unfold build_ics_events. rewrite (spans_events ts u _ _ HS). cbn [bind].
  eexists. reflexivity.
Qed.



End Run.

(** *** The run of the example watchlist *)

Lemma watch_run_ok : Examples.watch_run = Ok Examples.watch_outputs.
Proof. vm_compute. reflexivity. Qed.

Lemma upcoming_bucket_sorted_future_witness :
  exists ds,
    map e_release_date (out_upcoming Examples.watch_outputs)
    = map (fun d => Some (isoformat d)) ds
    /\ Forall valid ds
    /\ Forall (fun d => leb Examples.today d = true) ds
    /\ StronglySorted (fun a b => leb a b = true) ds.
Proof.
  apply (upcoming_bucket_sorted_future Examples.net "k" Examples.no_container_text
           Examples.watch "alice" Examples.today Examples.dtstamp).
  vm_compute. reflexivity.
Defined.

Lemma released_bucket_sorted_past_witness :
  Forall (fun e => e_release_date e = None) (out_tbd Examples.watch_outputs).
Proof.
  apply (released_bucket_sorted_past Examples.net "k" Examples.no_container_text
           Examples.watch "alice" Examples.today Examples.dtstamp).
  vm_compute. reflexivity.
Defined.

Lemma calendar_of_upcoming_witness :
  build_ics_events
    (map (movie_of_dated Examples.no_container_text)
       (out_upcoming Examples.watch_outputs))
    Examples.dtstamp "alice"
  = Ok (out_ics Examples.watch_outputs).
Proof.
  apply (calendar_of_upcoming Examples.net "k" Examples.no_container_text
           Examples.watch "alice" Examples.today Examples.dtstamp).
  vm_compute. reflexivity.
Defined.

Lemma every_item_accounted_for_witness :
  List.length Examples.watch
  = (List.length
       (filter (fun it => is_skipped (process_item Examples.net "k" Examples.today it))
          Examples.watch)
     + List.length (out_stderr Examples.watch_outputs)
     + List.length (out_upcoming Examples.watch_outputs)
     + List.length (out_released Examples.watch_outputs)
     + List.length (out_tbd Examples.watch_outputs))%nat.
Proof.
  apply (every_item_accounted_for Examples.net "k" Examples.no_container_text
           Examples.watch "alice" Examples.today Examples.dtstamp).
  vm_compute. reflexivity.
Defined.

Lemma failing_item_only_logged_witness :
  process_user_watchlist Examples.net "k" Examples.no_container_text
    ([mkitem (Some 603) Py.PNone] ++ mkitem (Some 5) Py.PNone :: [])
    "alice" Examples.today Examples.dtstamp
  = match process_user_watchlist Examples.net "k" Examples.no_container_text
            ([mkitem (Some 603) Py.PNone] ++ []) "alice" Examples.today
            Examples.dtstamp with
    | Ok out =>
        Ok (mkoutputs
              (logged (map (process_item Examples.net "k" Examples.today)
                         ([mkitem (Some 603) Py.PNone]
                          ++ mkitem (Some 5) Py.PNone :: [])))
              (out_upcoming out) (out_tbd out) (out_released out) (out_ics out))
    | Raise e => Raise e
    end.
Proof.
  apply (failing_item_only_logged Examples.net "k" Examples.no_container_text
           [mkitem (Some 603) Py.PNone] (mkitem (Some 5) Py.PNone) []
           "alice" Examples.today Examples.dtstamp).
  vm_compute. reflexivity.
Defined.

Lemma title_always_present_witness :
  Forall (fun e => Py.truthy (e_title e) = true)
    (out_upcoming Examples.watch_outputs ++ out_released Examples.watch_outputs
     ++ out_tbd Examples.watch_outputs)%list.
Proof.
  apply (title_always_present Examples.net "k" Examples.no_container_text
           Examples.watch "alice" Examples.today Examples.dtstamp).
  vm_compute. reflexivity.
Defined.


Lemma run_succeeds_witness :
  exists out,
    process_user_watchlist Examples.net "k" Examples.no_container_text
      Examples.watch "alice" Examples.today Examples.dtstamp = Ok out.
Proof.
  apply (run_succeeds Examples.net "k" Examples.no_container_text
           Examples.watch "alice" Examples.today Examples.dtstamp).
  repeat constructor; vm_compute; try discriminate; reflexivity.
Defined.

End WatchlistFacts.
